(** * zendriver: the CDP binding generator and the DOM element facade

    A shallow embedding of
    - [scripts/generate_cdp.py]: schema loading, the upstream-schema patches,
      name mapping, the code emitted for properties and commands, type
      annotations and the imports of a module;
    - [zendriver/core/element.py]: element handles (attributes, equality,
      revalidation, text);
    - [zendriver/core/tab.py]: selector queries and what they do on a stale root,
      the text search with its best-match wrapper, evaluation, the
      security origin of the local storage, and the window state.

    Python values are modelled by explicit data types, exceptions by a sum
    type, mutation of a handle by passing the handle through, and the
    browser by a function from the requests sent so far to its reply to
    the last of them. *)

From Stdlib Require Import String Ascii List ZArith Bool Arith Lia Permutation.
Import ListNotations.
Open Scope string_scope.
Open Scope list_scope.

Set Implicit Arguments.
Set Warnings "-register-all".

(* ===================================================================== *)
(** * Python preliminaries *)
(* ===================================================================== *)

Module Py.

(** Exceptions that the modelled code can raise. *)
Inductive exn : Type :=
| AssertionError
| KeyError (key : string)
| ValueError (msg : string)
| IndexError
| TypeError (msg : string)
| AttributeError (msg : string)
| RuntimeError (msg : string)
| NameError (name : string)
| RecursionError
| ProtocolException (message : option string)
| SchemaTypeError (field : string)
| CalledProcessError (returncode : Z)
| SyntaxError.

(** A computation that returns or raises. *)
Inductive result (A : Type) : Type :=
| Ok (a : A)
| Raise (e : exn).
Arguments Ok {A} a.
Arguments Raise {A} e.

Definition bind {A B} (m : result A) (k : A -> result B) : result B :=
  match m with
  | Ok a => k a
  | Raise e => Raise e
  end.

Fixpoint mapM {A B} (f : A -> result B) (l : list A) : result (list B) :=
  match l with
  | [] => Ok []
  | x :: l' =>
      bind (f x) (fun y => bind (mapM f l') (fun ys => Ok (y :: ys)))
  end.

(** ** Characters and strings

    A [str] is kept as the bytes of its UTF-8 encoding.  The tests on
    characters and the case mapping below are those of the ASCII range. *)

Definition is_upper (c : ascii) : bool :=
  let n := nat_of_ascii c in (65 <=? n)%nat && (n <=? 90)%nat.

Definition is_lower (c : ascii) : bool :=
  let n := nat_of_ascii c in (97 <=? n)%nat && (n <=? 122)%nat.

Definition is_digit (c : ascii) : bool :=
  let n := nat_of_ascii c in (48 <=? n)%nat && (n <=? 57)%nat.

(** [str.isspace] on the ASCII range: TAB..CR, FS..US and the blank. *)
Definition is_space (c : ascii) : bool :=
  let n := nat_of_ascii c in
  ((9 <=? n)%nat && (n <=? 13)%nat) || ((28 <=? n)%nat && (n <=? 32)%nat).

Definition lower_char (c : ascii) : ascii :=
  if is_upper c then ascii_of_nat (nat_of_ascii c + 32) else c.

(** [s.lower()] *)
Fixpoint lower (s : string) : string :=
  match s with
  | EmptyString => EmptyString
  | String c s' => String (lower_char c) (lower s')
  end.

(** [s.lstrip()] *)
Fixpoint lstrip (s : string) : string :=
  match s with
  | EmptyString => EmptyString
  | String c s' => if is_space c then lstrip s' else s
  end.

(** [s.rstrip()]: a character is dropped when it and everything after it
    is white space. *)
Fixpoint rstrip (s : string) : string :=
  match s with
  | EmptyString => EmptyString
  | String c s' =>
      match rstrip s' with
      | EmptyString => if is_space c then EmptyString else String c EmptyString
      | r => String c r
      end
  end.

(** [s.strip()] *)
Definition strip (s : string) : string := rstrip (lstrip s).

(** [needle in hay] *)
Fixpoint contains (needle hay : string) : bool :=
  if prefix needle hay then true
  else match hay with
       | EmptyString => false
       | String _ hay' => contains needle hay'
       end.

(** [s.replace(c, "")] for a one-character [c]. *)
Fixpoint remove_char (c : ascii) (s : string) : string :=
  match s with
  | EmptyString => EmptyString
  | String d s' => if Ascii.eqb c d then remove_char c s' else String d (remove_char c s')
  end.

(** [s.replace(c, d)] for one-character [c] and [d]. *)
Fixpoint replace_char (c d : ascii) (s : string) : string :=
  match s with
  | EmptyString => EmptyString
  | String e s' => String (if Ascii.eqb c e then d else e) (replace_char c d s')
  end.

(** [len(s)]: the number of code points, that is of the bytes that are
    not continuation bytes [10xxxxxx] of the encoding. *)
Definition is_continuation (c : ascii) : bool :=
  let n := nat_of_ascii c in (128 <=? n)%nat && (n <=? 191)%nat.

Fixpoint len (s : string) : nat :=
  match s with
  | EmptyString => O
  | String c s' => if is_continuation c then len s' else S (len s')
  end.

(** [keyword.kwlist] *)
Definition kwlist : list string :=
  ["False"; "None"; "True"; "and"; "as"; "assert"; "async"; "await"; "break";
   "class"; "continue"; "def"; "del"; "elif"; "else"; "except"; "finally";
   "for"; "from"; "global"; "if"; "import"; "in"; "is"; "lambda"; "nonlocal";
   "not"; "or"; "pass"; "raise"; "return"; "try"; "while"; "with"; "yield"].

(** [keyword.iskeyword(s)] *)
Definition iskeyword (s : string) : bool := existsb (String.eqb s) kwlist.

Definition is_name_start (c : ascii) : bool :=
  is_upper c || is_lower c || Ascii.eqb c "_".

Definition is_name_char (c : ascii) : bool := is_name_start c || is_digit c.

(** [s.isidentifier()], for a name of ASCII characters. *)
Definition isidentifier (s : string) : bool :=
  match s with
  | EmptyString => false
  | String c s' => is_name_start c && forallb is_name_char (list_ascii_of_string s')
  end.

(** A string that can stand where Python's grammar asks for a name: an
    identifier that is not a keyword. *)
Definition is_name (s : string) : bool := isidentifier s && negb (iskeyword s).

(** [sep.join(l)] *)
Fixpoint join (sep : string) (l : list string) : string :=
  match l with
  | [] => ""
  | [x] => x
  | x :: l' => x ++ sep ++ join sep l'
  end.

(** Truthiness of a [str]. *)
Definition str_truthy (s : string) : bool :=
  match s with EmptyString => false | _ => true end.

(** [abs(a - b)] on lengths. *)
Definition abs_diff (a b : nat) : nat := Z.to_nat (Z.abs (Z.of_nat a - Z.of_nat b)).

End Py.

Notation "x <- m ;; k" := (Py.bind m (fun x => k))
  (at level 61, m at next level, right associativity).

(* ===================================================================== *)
(** * Third-party and interpreter functions used by the generator *)
(* ===================================================================== *)

(** [inflection.underscore] (package [inflection], not part of the
    repository):
<<
    word = re.sub(r"([A-Z]+)([A-Z][a-z])", r'\1_\2', word)
    word = re.sub(r"([a-z\d])([A-Z])", r'\1_\2', word)
    word = word.replace("-", "_")
    return word.lower()
>>
    The first substitution puts an underscore before the last capital of a
    run of capitals that is followed by a small letter: the greedy group
    takes the run but its last letter, and matches do not overlap because
    each ends in a small letter.  The second puts one between a small letter
    or digit and a capital. *)
Module Inflection.
Import Py.

Fixpoint sub_acronym (s : string) : string :=
  match s with
  | EmptyString => EmptyString
  | String x t =>
      match t with
      | String y (String l _) =>
          if is_upper x && is_upper y && is_lower l
          then String x (String "_" (sub_acronym t))
          else String x (sub_acronym t)
      | _ => String x (sub_acronym t)
      end
  end.

Fixpoint sub_camel (s : string) : string :=
  match s with
  | EmptyString => EmptyString
  | String x t =>
      match t with
      | String y _ =>
          if (is_lower x || is_digit x) && is_upper y
          then String x (String "_" (sub_camel t))
          else String x (sub_camel t)
      | _ => String x (sub_camel t)
      end
  end.

Definition underscore (word : string) : string :=
  lower (replace_char "-" "_" (sub_camel (sub_acronym word))).

End Inflection.

(** The attribute names of CPython's [builtins] module for which
    [getattr(builtins, name)] succeeds (CPython 3.11, with [site] loaded).
    Only the names without capital letters are listed: [is_builtin] is only
    asked about the result of [underscore], which has none.  [class] is a
    keyword of the language and not an attribute of the module. *)
Module Builtins.

Definition names : list string :=
  [ "__annotations__"; "__build_class__"; "__class__"; "__debug__";
    "__delattr__"; "__dict__"; "__dir__"; "__doc__"; "__eq__";
    "__format__"; "__ge__"; "__getattribute__"; "__getstate__"; "__gt__";
    "__hash__"; "__import__"; "__init__"; "__init_subclass__"; "__le__";
    "__loader__"; "__lt__"; "__name__"; "__ne__"; "__new__";
    "__package__"; "__reduce__"; "__reduce_ex__"; "__repr__";
    "__setattr__"; "__sizeof__"; "__spec__"; "__str__";
    "__subclasshook__"; "abs"; "aiter"; "all"; "anext"; "any"; "ascii";
    "bin"; "bool"; "breakpoint"; "bytearray"; "bytes"; "callable"; "chr";
    "classmethod"; "compile"; "complex"; "copyright"; "credits";
    "delattr"; "dict"; "dir"; "divmod"; "enumerate"; "eval"; "exec";
    "exit"; "filter"; "float"; "format"; "frozenset"; "getattr";
    "globals"; "hasattr"; "hash"; "help"; "hex"; "id"; "input"; "int";
    "isinstance"; "issubclass"; "iter"; "len"; "license"; "list";
    "locals"; "map"; "max"; "memoryview"; "min"; "next"; "object"; "oct";
    "open"; "ord"; "pow"; "print"; "property"; "quit"; "range"; "repr";
    "reversed"; "round"; "set"; "setattr"; "slice"; "sorted";
    "staticmethod"; "str"; "sum"; "super"; "tuple"; "type"; "vars";
    "zip" ].

(** [getattr(builtins, name)]: [true] when it returns, [false] when it
    raises [AttributeError]. *)
Definition has_attr (name : string) : bool :=
  existsb (String.eqb name) names.

End Builtins.

(* ===================================================================== *)
(** * JSON documents, as [json.load] returns them *)
(* ===================================================================== *)

Module Json.
Import Py.

(** A [dict] is kept as the list of its items in insertion order; the
    keys of a loaded document are distinct.  Numbers of the schema are
    integers. *)
Inductive t : Type :=
| Null
| Bool (b : bool)
| Num (z : Z)
| Str (s : string)
| Arr (l : list t)
| Obj (fields : list (string * t)).

Fixpoint lookup (k : string) (fields : list (string * t)) : option t :=
  match fields with
  | [] => None
  | (k', v) :: rest => if String.eqb k k' then Some v else lookup k rest
  end.

(** [d[k]] *)
Definition item (d : t) (k : string) : result t :=
  match d with
  | Obj fields =>
      match lookup k fields with
      | Some v => Ok v
      | None => Raise (KeyError k)
      end
  | _ => Raise (TypeError "indices must be integers or the object is not subscriptable")
  end.

(** [d.get(k)]: [None] when the key is missing. *)
Definition get (d : t) (k : string) : result (option t) :=
  match d with
  | Obj fields => Ok (lookup k fields)
  | _ => Raise (AttributeError "get")
  end.

(** [k in d]: a key of a dict, an item of a list, a part of a string. *)
Definition has (d : t) (k : string) : result bool :=
  match d with
  | Obj fields => Ok (match lookup k fields with Some _ => true | None => false end)
  | Arr l => Ok (existsb (fun v => match v with Str s => String.eqb s k | _ => false end) l)
  | Str s => Ok (contains k s)
  | _ => Raise (TypeError "argument is not iterable")
  end.

(** Truthiness. *)
Definition truthy (v : t) : bool :=
  match v with
  | Null => false
  | Bool b => b
  | Num z => negb (Z.eqb z 0)
  | Str s => str_truthy s
  | Arr l => match l with [] => false | _ => true end
  | Obj f => match f with [] => false | _ => true end
  end.

(** [v == s] for a string literal [s]. *)
Definition eq_str (v : t) (s : string) : bool :=
  match v with
  | Str s' => String.eqb s' s
  | _ => false
  end.

(** ** Reading a field at the type its dataclass annotation declares.

    Python stores whatever the document holds; a document whose field
    has another JSON type than the annotation is outside the schema
    format and is reported as [SchemaTypeError] here. *)

Definition as_str (field : string) (v : t) : result string :=
  match v with
  | Str s => Ok s
  | _ => Raise (SchemaTypeError field)
  end.

(** [d.get(k)] at type [Optional[str]]. *)
Definition get_opt_str (d : t) (k : string) : result (option string) :=
  o <- get d k ;;
  match o with
  | None | Some Null => Ok None
  | Some (Str s) => Ok (Some s)
  | Some _ => Raise (SchemaTypeError k)
  end.

(** [d.get(k, False)] at type [bool]. *)
Definition get_bool (d : t) (k : string) : result bool :=
  o <- get d k ;;
  match o with
  | None => Ok false
  | Some (Bool b) => Ok b
  | Some _ => Raise (SchemaTypeError k)
  end.

(** [d.get(k, [])] at type [List[str]]. *)
Definition get_str_list (d : t) (k : string) : result (list string) :=
  o <- get d k ;;
  match o with
  | None => Ok []
  | Some (Arr l) => mapM (as_str k) l
  | Some _ => Raise (SchemaTypeError k)
  end.

(** [d.get(k, list())] at type list of objects. *)
Definition get_list (d : t) (k : string) : result (list t) :=
  o <- get d k ;;
  match o with
  | None => Ok []
  | Some (Arr l) => Ok l
  | Some _ => Raise (SchemaTypeError k)
  end.

(** [d[k]] at type [str]. *)
Definition item_str (d : t) (k : string) : result string :=
  v <- item d k ;; as_str k v.

End Json.

(* ===================================================================== *)
(** * scripts/generate_cdp.py *)
(* ===================================================================== *)

Module GenerateCdp.
Import Py.

(** [is_builtin]: True if [name] would shadow a builtin. *)
Definition is_builtin (name : string) : bool := Builtins.has_attr name.

(** [snake_case]: camel case to snake case, with an underscore appended
    when the name would shadow a Python builtin. *)
Definition snake_case (name : string) : string :=
  let name := Inflection.underscore name in
  if is_builtin name then name ++ "_" else name.


(** ** The parsed schema *)

(** [CdpItems]: the type of a repeated item. *)
Module CdpItems.
Record t : Type := mk { type : string; ref : string }.

Definition from_json (type : Json.t) : result t :=
  o_type <- Json.get type "type" ;;
  o_ref <- Json.get type "$ref" ;;
  let type_ := match o_type with Some v => v | None => Json.Str "any" end in
  let ref := match o_ref with Some v => v | None => Json.Null end in
  if negb (Json.truthy type_) || negb (Json.truthy ref)
  then Raise (ValueError "CdpItems must have a 'type' and '$ref' field")
  else
    type_ <- Json.as_str "type" type_ ;;
    ref <- Json.as_str "$ref" ref ;;
    Ok (mk type_ ref).
End CdpItems.

(** [if "items" in d: CdpItems.from_json(d["items"]) else None] *)
Definition items_from_json (d : Json.t) : result (option CdpItems.t) :=
  present <- Json.has d "items" ;;
  if present : bool
  then (v <- Json.item d "items" ;; i <- CdpItems.from_json v ;; Ok (Some i))
  else Ok None.

(** [CdpProperty]: a property of a non-primitive type.  [CdpParameter]
    and [CdpReturn] are subclasses with the same fields. *)
Module CdpProperty.
Record t : Type := mk {
  name : string;
  description : option string;
  type : option string;
  ref : option string;
  enum : list string;
  items : option CdpItems.t;
  optional : bool;
  experimental : bool;
  deprecated : bool;
  domain : string
}.

(** [self.ref = r] *)
Definition set_ref (r : string) (p : t) : t :=
  mk (name p) (description p) (type p) (Some r) (enum p) (items p)
     (optional p) (experimental p) (deprecated p) (domain p).

(** [self.optional = b] *)
Definition set_optional (b : bool) (p : t) : t :=
  mk (name p) (description p) (type p) (ref p) (enum p) (items p)
     b (experimental p) (deprecated p) (domain p).

(** [py_name]: this property's Python name. *)
Definition py_name (p : t) : string := snake_case (name p).

Definition from_json (prop : Json.t) (domain : string) : result t :=
  name <- Json.item_str prop "name" ;;
  description <- Json.get_opt_str prop "description" ;;
  type <- Json.get_opt_str prop "type" ;;
  ref <- Json.get_opt_str prop "$ref" ;;
  enum <- Json.get_str_list prop "enum" ;;
  items <- items_from_json prop ;;
  optional <- Json.get_bool prop "optional" ;;
  experimental <- Json.get_bool prop "experimental" ;;
  deprecated <- Json.get_bool prop "deprecated" ;;
  Ok (mk name description type ref enum items optional experimental
         deprecated domain).

(** The body of the loops of the three [get_refs]: the refs that this
    property adds to the set,
<<
    if prop.items and prop.items.ref: refs.add(prop.items.ref)
    elif prop.ref: refs.add(prop.ref)
>> *)
Definition get_refs (p : t) : list string :=
  let own := match ref p with
             | Some r => if str_truthy r then [r] else []
             | None => []
             end in
  match items p with
  | Some i => if str_truthy (CdpItems.ref i) then [CdpItems.ref i] else own
  | None => own
  end.
End CdpProperty.

(** [CdpType]: a top-level type. *)
Module CdpType.
Record t : Type := mk {
  id : string;
  description : option string;
  type : string;
  items : option CdpItems.t;
  enum : list string;
  properties : list CdpProperty.t
}.

Definition set_properties (ps : list CdpProperty.t) (ty : t) : t :=
  mk (id ty) (description ty) (type ty) (items ty) (enum ty) ps.

Definition from_json (type_ : Json.t) (domain : string) : result t :=
  id <- Json.item_str type_ "id" ;;
  description <- Json.get_opt_str type_ "description" ;;
  type <- Json.item_str type_ "type" ;;
  items <- items_from_json type_ ;;
  enum <- Json.get_str_list type_ "enum" ;;
  props <- Json.get_list type_ "properties" ;;
  properties <- mapM (fun p => CdpProperty.from_json p domain) props ;;
  Ok (mk id description type items enum properties).

(** [CdpType.get_refs]: all refs for this type, as the list of the items
    added to the set. *)
Definition get_refs (ty : t) : list string :=
  match enum ty, properties ty with
  | _ :: _, _ => []
  | [], _ :: _ => flat_map CdpProperty.get_refs (properties ty)
  | [], [] =>
      match items ty with
      | Some i => if str_truthy (CdpItems.ref i) then [CdpItems.ref i] else []
      | None => []
      end
  end.
End CdpType.

(** [CdpCommand] *)
Module CdpCommand.
Record t : Type := mk {
  name : string;
  description : option string;
  experimental : bool;
  deprecated : bool;
  parameters : list CdpProperty.t;
  returns : list CdpProperty.t;
  domain : string
}.

Definition set_parameters (ps : list CdpProperty.t) (c : t) : t :=
  mk (name c) (description c) (experimental c) (deprecated c) ps
     (returns c) (domain c).

Definition py_name (c : t) : string := snake_case (name c).

Definition from_json (command : Json.t) (domain : string) : result t :=
  parameters <- Json.get_list command "parameters" ;;
  returns <- Json.get_list command "returns" ;;
  name <- Json.item_str command "name" ;;
  description <- Json.get_opt_str command "description" ;;
  experimental <- Json.get_bool command "experimental" ;;
  deprecated <- Json.get_bool command "deprecated" ;;
  parameters <- mapM (fun p => CdpProperty.from_json p domain) parameters ;;
  returns <- mapM (fun r => CdpProperty.from_json r domain) returns ;;
  Ok (mk name description experimental deprecated parameters returns domain).

(** [CdpCommand.get_refs]: the refs of the parameters and the returns. *)
Definition get_refs (c : t) : list string :=
  flat_map CdpProperty.get_refs (parameters c ++ returns c).
End CdpCommand.

(** [CdpEvent] *)
Module CdpEvent.
Record t : Type := mk {
  name : string;
  description : option string;
  deprecated : bool;
  experimental : bool;
  parameters : list CdpProperty.t;
  domain : string
}.

Definition set_description (d : option string) (e : t) : t :=
  mk (name e) d (deprecated e) (experimental e) (parameters e) (domain e).

Definition from_json (json : Json.t) (domain : string) : result t :=
  name <- Json.item_str json "name" ;;
  description <- Json.get_opt_str json "description" ;;
  deprecated <- Json.get_bool json "deprecated" ;;
  experimental <- Json.get_bool json "experimental" ;;
  parameters <- Json.get_list json "parameters" ;;
  parameters <- mapM (fun p => CdpProperty.from_json p domain) parameters ;;
  Ok (mk name description deprecated experimental parameters domain).

(** [CdpEvent.get_refs] *)
Definition get_refs (e : t) : list string :=
  flat_map CdpProperty.get_refs (parameters e).
End CdpEvent.

(** [CdpDomain]: metadata, types, commands and events. *)
Module CdpDomain.
Record t : Type := mk {
  domain : string;
  description : option string;
  experimental : bool;
  dependencies : list string;
  types : list CdpType.t;
  commands : list CdpCommand.t;
  events : list CdpEvent.t
}.

Definition set_types (l : list CdpType.t) (d : t) : t :=
  mk (domain d) (description d) (experimental d) (dependencies d) l
     (commands d) (events d).

Definition set_commands (l : list CdpCommand.t) (d : t) : t :=
  mk (domain d) (description d) (experimental d) (dependencies d)
     (types d) l (events d).

Definition set_events (l : list CdpEvent.t) (d : t) : t :=
  mk (domain d) (description d) (experimental d) (dependencies d)
     (types d) (commands d) l.

(** The name of the Python module for this domain. *)
Definition module (d : t) : string := snake_case (domain d).

Definition from_json (domain : Json.t) : result t :=
  types <- Json.get_list domain "types" ;;
  commands <- Json.get_list domain "commands" ;;
  events <- Json.get_list domain "events" ;;
  domain_name <- Json.item_str domain "domain" ;;
  description <- Json.get_opt_str domain "description" ;;
  experimental <- Json.get_bool domain "experimental" ;;
  dependencies <- Json.get_str_list domain "dependencies" ;;
  types <- mapM (fun ty => CdpType.from_json ty domain_name) types ;;
  commands <- mapM (fun c => CdpCommand.from_json c domain_name) commands ;;
  events <- mapM (fun e => CdpEvent.from_json e domain_name) events ;;
  Ok (mk domain_name description experimental dependencies types commands
         events).
End CdpDomain.

(** ** [parse]

    [schema] is the loaded JSON document.  The result carries the value
    left in the global [current_version] and the domain objects. *)
Definition parse (schema : Json.t) : result (string * list CdpDomain.t) :=
  version <- Json.item schema "version" ;;
  major <- Json.item version "major" ;;
  minor <- Json.item version "minor" ;;
  if negb (Json.eq_str major "1" && Json.eq_str minor "3")
  then Raise AssertionError
  else
    let current_version := "1.3" in
    ds <- Json.item schema "domains" ;;
    match ds with
    | Json.Arr l =>
        domains <- mapM CdpDomain.from_json l ;;
        Ok (current_version, domains)
    | _ => Raise (SchemaTypeError "domains")
    end.

(** ** [fix_protocol_spec]

    The function mutates the domain objects in place; here it returns the
    patched list, or the exception that [cmd.parameters[1]] raises when
    [resolveNode] has fewer than two parameters. *)

(** Patch 1: the [for cmd in domain.commands] loop with its [break]. *)
Fixpoint patch_resolve_node (cmds : list CdpCommand.t) : result (list CdpCommand.t) :=
  match cmds with
  | [] => Ok []
  | cmd :: rest =>
      if String.eqb (CdpCommand.name cmd) "resolveNode"
      then
        match CdpCommand.parameters cmd with
        | p0 :: p1 :: ps =>
            Ok (CdpCommand.set_parameters
                  (p0 :: CdpProperty.set_ref "BackendNodeId" p1 :: ps) cmd :: rest)
        | _ => Raise IndexError
        end
      else rest' <- patch_resolve_node rest ;; Ok (cmd :: rest')
  end.

(** Patch 2: the [for event in domain.events] loop with its [break]. *)
Fixpoint patch_screencast (events : list CdpEvent.t) : list CdpEvent.t :=
  match events with
  | [] => []
  | event :: rest =>
      if String.eqb (CdpEvent.name event) "screencastVisibilityChanged"
      then
        let d := match CdpEvent.description event with
                 | Some d => if str_truthy d then d else ""
                 | None => ""
                 end in
        CdpEvent.set_description (Some (remove_char "`" d)) event :: rest
      else event :: patch_screencast rest
  end.

(** Patch 3, inner loop: the first property named [expires]. *)
Fixpoint patch_expires (props : list CdpProperty.t) : list CdpProperty.t :=
  match props with
  | [] => []
  | prop :: rest =>
      if String.eqb (CdpProperty.name prop) "expires"
      then CdpProperty.set_optional true prop :: rest
      else prop :: patch_expires rest
  end.

(** Patch 3, outer loop: every type called [Cookie] (no [break]). *)
Definition patch_cookie (types : list CdpType.t) : list CdpType.t :=
  map (fun _type =>
         if String.eqb (CdpType.id _type) "Cookie"
         then CdpType.set_properties (patch_expires (CdpType.properties _type)) _type
         else _type)
      types.

Definition fix_domain (domain : CdpDomain.t) : result CdpDomain.t :=
  if String.eqb (CdpDomain.domain domain) "DOM" then
    cmds <- patch_resolve_node (CdpDomain.commands domain) ;;
    Ok (CdpDomain.set_commands cmds domain)
  else if String.eqb (CdpDomain.domain domain) "Page" then
    Ok (CdpDomain.set_events (patch_screencast (CdpDomain.events domain)) domain)
  else if String.eqb (CdpDomain.domain domain) "Network" then
    Ok (CdpDomain.set_types (patch_cookie (CdpDomain.types domain)) domain)
  else Ok domain.

Definition fix_protocol_spec (domains : list CdpDomain.t) : result (list CdpDomain.t) :=
  mapM fix_domain domains.

(** ** [main], the [try] block

    [domains.sort(key=operator.attrgetter("domain"))]: a stable sort on
    the domain name.  [insert_domain] puts a domain in front of a sorted
    list of later domains, before the first whose name is not smaller. *)
Fixpoint insert_domain (d : CdpDomain.t) (l : list CdpDomain.t) : list CdpDomain.t :=
  match l with
  | [] => [d]
  | x :: l' =>
      if String.ltb (CdpDomain.domain x) (CdpDomain.domain d)
      then x :: insert_domain d l'
      else d :: l
  end.

Definition sort_domains (l : list CdpDomain.t) : list CdpDomain.t :=
  fold_right insert_domain [] l.

(** Parsing of all the schema files: [domains.extend(parse(...))]. *)
Fixpoint parse_all (schemas : list Json.t) : result (list CdpDomain.t) :=
  match schemas with
  | [] => Ok []
  | s :: rest =>
      r <- parse s ;;
      ds <- parse_all rest ;;
      Ok (snd r ++ ds)
  end.

(** The files [main] writes below the output directory. *)
Inductive file : Type :=
| ModuleFile (name : string) (code : string)
| InitFile (modules : list string)
| Readme
| PyTyped
| Util.

(** The [for domain in domains] loop.  A module file is opened before
    [generate_code] runs, so it exists, empty, when that call raises. *)
Fixpoint write_modules (generate_code : CdpDomain.t -> result string)
         (domains : list CdpDomain.t) : list file * result unit :=
  match domains with
  | [] => ([], Ok tt)
  | domain :: rest =>
      let module_path := (CdpDomain.module domain ++ ".py")%string in
      match generate_code domain with
      | Raise e => ([ModuleFile module_path ""], Raise e)
      | Ok code =>
          let (files, r) := write_modules generate_code rest in
          (ModuleFile module_path code :: files, r)
      end
  end.

(** The files written and how the [try] block ends.  [generate_code] is
    [CdpDomain.generate_code], the text of a whole module.  [format] is
    [format(output_path)], the last statement of the block: it runs the
    formatter on the files written, by [subprocess.run] with
    [check=True], which raises when the formatter cannot be started or
    fails.  What the formatter does to the text of the files is not
    kept, nor is the [finally] clause, which removes the schema files. *)
Definition main (generate_code : CdpDomain.t -> result string)
           (format : list file -> result unit)
           (schemas : list Json.t) : list file * result unit :=
  match parse_all schemas with
  | Raise e => ([], Raise e)
  | Ok domains =>
      match fix_protocol_spec (sort_domains domains) with
      | Raise e => ([], Raise e)
      | Ok domains =>
          match write_modules generate_code domains with
          | (files, Raise e) => (files, Raise e)
          | (files, Ok _) =>
              let written :=
                files ++ [InitFile (map CdpDomain.module domains); Readme; PyTyped; Util] in
              (written, format written)
          end
      end
  end.

(** ** The code emitted for properties, classes and commands

    The generator builds Python text with format strings.  The text is
    kept here as a syntax tree of the few forms those strings produce,
    and [render_expr] and [render_stmt] print a tree back to the text of
    the format string it stands for. *)

Inductive expr : Type :=
| Name (x : string)                       (* x *)
| Attr (obj x : string)                   (* obj.x *)
| Subscript (d key : string)              (* d['key'] *)
| ToJson (e : expr)                       (* e.to_json() *)
| FromJson (cls : string) (e : expr)      (* cls.from_json(e) *)
| Call (ctor : string) (e : expr)         (* ctor(e) *)
| ListComp (body iter : expr)             (* [body for i in iter] *)
| IfKeyNotNone (e : expr) (d key : string).
                                          (* e if d.get('key', None) is not None else None *)

(** Statements without control transfer. *)
Inductive simple : Type :=
| NewDict (x : string)                    (* x: T_JSON_DICT = dict() *)
| SetItem (d key : string) (e : expr)     (* d['key'] = e *)
| IfNotNone (x : expr) (body : simple)    (* if x is not None: body *)
| CmdDict (x method : string) (params : option string).
                                          (* x: T_JSON_DICT = {'method': 'method', 'params': params} *)

Inductive stmt : Type :=
| Do (s : simple)
| YieldTo (x req : string)                (* x = yield req *)
| ReturnExpr (e : expr)                   (* return e *)
| ReturnTuple (es : list expr)            (* return (e1, e2, ...) *)
| ReturnNew (cls : string) (kwargs : list (string * expr)).
                                          (* return cls(k1=e1, k2=e2, ...) *)

Fixpoint render_expr (e : expr) : string :=
  (match e with
   | Name x => x
   | Attr obj x => obj ++ "." ++ x
   | Subscript d key => d ++ "['" ++ key ++ "']"
   | ToJson e => render_expr e ++ ".to_json()"
   | FromJson cls e => cls ++ ".from_json(" ++ render_expr e ++ ")"
   | Call ctor e => ctor ++ "(" ++ render_expr e ++ ")"
   | ListComp body iter => "[" ++ render_expr body ++ " for i in " ++ render_expr iter ++ "]"
   | IfKeyNotNone e d key =>
       render_expr e ++ " if " ++ d ++ ".get('" ++ key ++ "', None) is not None else None"
   end)%string.

Definition newline : string := String (ascii_of_nat 10) EmptyString.

(** Layout is not kept: a statement is printed on one line, but for the
    body of an [if], which goes on the next line as in
    [generate_to_json]. *)
Fixpoint render_simple (s : simple) : string :=
  (match s with
   | NewDict x => x ++ ": T_JSON_DICT = dict()"
   | SetItem d key e => d ++ "['" ++ key ++ "'] = " ++ render_expr e
   | IfNotNone x body =>
       "if " ++ render_expr x ++ " is not None:" ++ newline ++ "    " ++ render_simple body
   | CmdDict x method params =>
       x ++ ": T_JSON_DICT = {'method': '" ++ method ++ "',"
         ++ match params with Some p => " 'params': " ++ p ++ "," | None => "" end
         ++ "}"
   end)%string.

Definition render_stmt (s : stmt) : string :=
  (match s with
   | Do s => render_simple s
   | YieldTo x req => x ++ " = yield " ++ req
   | ReturnExpr e => "return " ++ render_expr e
   | ReturnTuple es => "return (" ++ join ", " (map render_expr es) ++ ")"
   | ReturnNew cls kwargs =>
       "return " ++ cls ++ "("
         ++ join ", " (map (fun ke => fst ke ++ "=" ++ render_expr (snd ke)) kwargs)
         ++ ")"
   end)%string.

(** [CdpPrimitiveType[cdp_type].value] *)
Definition CdpPrimitiveType (cdp_type : string) : result string :=
  if String.eqb cdp_type "boolean" then Ok "bool"
  else if String.eqb cdp_type "integer" then Ok "int"
  else if String.eqb cdp_type "number" then Ok "float"
  else if String.eqb cdp_type "object" then Ok "dict"
  else if String.eqb cdp_type "string" then Ok "str"
  else Raise (KeyError cdp_type).

(** [CdpPrimitiveType.get_constructor] *)
Definition get_constructor (cdp_type : option string) (val : expr) : result expr :=
  match cdp_type with
  | None => Ok val
  | Some ty =>
      if negb (str_truthy ty) || String.eqb ty "any" then Ok val
      else ctor <- CdpPrimitiveType ty ;; Ok (Call ctor val)
  end.

(** [s.split(".")] *)
Fixpoint split_dot (s : string) : list string :=
  match s with
  | EmptyString => [EmptyString]
  | String c s' =>
      if Ascii.eqb c "." then EmptyString :: split_dot s'
      else match split_dot s' with
           | [] => [String c EmptyString]
           | w :: ws => String c w :: ws
           end
  end.

(** [ref_to_python]: for a dotted ref the part before the dot is snake
    cased; the unpacking of [ref.split(".")] fails on two dots. *)
Definition ref_to_python (ref : string) : result string :=
  match split_dot ref with
  | [_] => Ok ref
  | [domain; subtype] => Ok (snake_case domain ++ "." ++ subtype)%string
  | _ => Raise (ValueError "too many values to unpack")
  end.

(** [s[n:]] *)
Fixpoint drop (n : nat) (s : string) : string :=
  match n, s with
  | O, _ => s
  | S n', String _ s' => drop n' s'
  | S _, EmptyString => EmptyString
  end.

Definition ref_to_python_domain (ref domain : string) : result string :=
  if prefix (domain ++ ".")%string ref
  then ref_to_python (drop (String.length domain + 1) ref)
  else ref_to_python ref.

(** Truthiness of an [Optional[str]]. *)
Definition opt_truthy (o : option string) : bool :=
  match o with Some s => str_truthy s | None => false end.

(** [{self_ref}{self.py_name}] *)
Definition target (p : CdpProperty.t) (use_self : bool) : expr :=
  if use_self then Attr "self" (CdpProperty.py_name p)
  else Name (CdpProperty.py_name p).

(** [CdpProperty.generate_to_json]: the code that exports this property
    to the dict named [dict_]. *)
Definition generate_to_json (p : CdpProperty.t) (dict_ : string) (use_self : bool) : simple :=
  let target := target p use_self in
  let value :=
    match CdpProperty.items p with
    | Some items =>
        if str_truthy (CdpItems.ref items)
        then ListComp (ToJson (Name "i")) target
        else ListComp (Name "i") target
    | None =>
        if opt_truthy (CdpProperty.ref p) then ToJson target else target
    end in
  let assign := SetItem dict_ (CdpProperty.name p) value in
  if CdpProperty.optional p then IfNotNone target assign else assign.

(** [CdpProperty.generate_from_json]: the code that reads this property
    from the dict named [dict_]. *)
Definition generate_from_json (p : CdpProperty.t) (dict_ : string) : result expr :=
  expr <-
    match CdpProperty.items p with
    | Some items =>
        if str_truthy (CdpItems.ref items)
        then
          py_ref <- ref_to_python_domain (CdpItems.ref items) (CdpProperty.domain p) ;;
          Ok (ListComp (FromJson py_ref (Name "i")) (Subscript dict_ (CdpProperty.name p)))
        else
          ctor <- get_constructor (Some (CdpItems.type items)) (Name "i") ;;
          Ok (ListComp ctor (Subscript dict_ (CdpProperty.name p)))
    | None =>
        match CdpProperty.ref p with
        | Some ref =>
            if str_truthy ref
            then
              py_ref <- ref_to_python_domain ref (CdpProperty.domain p) ;;
              Ok (FromJson py_ref (Subscript dict_ (CdpProperty.name p)))
            else get_constructor (CdpProperty.type p) (Subscript dict_ (CdpProperty.name p))
        | None => get_constructor (CdpProperty.type p) (Subscript dict_ (CdpProperty.name p))
        end
    end ;;
  Ok (if CdpProperty.optional p
      then IfKeyNotNone expr dict_ (CdpProperty.name p)
      else expr).

(** [CdpReturn.generate_return] *)
Definition generate_return (r : CdpProperty.t) (dict_ : string) : result expr :=
  generate_from_json r dict_.

(** A stable sort on the Boolean key [optional]: the required
    properties first, then the optional ones, each group in schema
    order. *)
Definition sort_by_optional (props : list CdpProperty.t) : list CdpProperty.t :=
  filter (fun p => negb (CdpProperty.optional p)) props
    ++ filter CdpProperty.optional props.

(** [CdpType.generate_class_code], the body of the emitted [to_json]. *)
Definition class_to_json_body (ty : CdpType.t) : list stmt :=
  let props := sort_by_optional (CdpType.properties ty) in
  Do (NewDict "json")
    :: map (fun p => Do (generate_to_json p "json" true)) props
    ++ [ReturnExpr (Name "json")].

(** [CdpType.generate_class_code], the body of the emitted [from_json]. *)
Definition class_from_json_body (ty : CdpType.t) : result (list stmt) :=
  let props := sort_by_optional (CdpType.properties ty) in
  from_jsons <-
    mapM (fun p =>
            from_json <- generate_from_json p "json" ;;
            Ok (CdpProperty.py_name p, from_json))
         props ;;
  Ok [ReturnNew (CdpType.id ty) from_jsons].

(** [CdpCommand.generate_code], the parameter list of the emitted
    function: the names in [sorted_params] order, each with whether it
    has the default [None]. *)
Definition command_signature (c : CdpCommand.t) : list (string * bool) :=
  map (fun p => (CdpProperty.py_name p, CdpProperty.optional p))
      (sort_by_optional (CdpCommand.parameters c)).

Definition nonempty {A} (l : list A) : bool :=
  match l with [] => false | _ => true end.

(** [CdpCommand.generate_code], the body of the emitted function. *)
Definition command_body (c : CdpCommand.t) : result (list stmt) :=
  let has_params := nonempty (CdpCommand.parameters c) in
  let assigns :=
    map (fun p => Do (generate_to_json p "params" false)) (CdpCommand.parameters c) in
  ret <-
    match CdpCommand.returns c with
    | [] => Ok []
    | [r] => ret <- generate_return r "json" ;; Ok [ReturnExpr ret]
    | rs => es <- mapM (fun r => generate_return r "json") rs ;; Ok [ReturnTuple es]
    end ;;
  Ok ((if has_params then [Do (NewDict "params")] else [])
        ++ assigns
        ++ [Do (CmdDict "cmd_dict"
                  (CdpCommand.domain c ++ "." ++ CdpCommand.name c)%string
                  (if has_params then Some "params" else None));
            YieldTo "json" "cmd_dict"]
        ++ ret).

(** ** Annotations and imports *)

(** [CdpPrimitiveType.get_annotation] *)
Definition get_annotation (cdp_type : option string) : result string :=
  match cdp_type with
  | None => Ok "typing.Any"
  | Some ty =>
      if negb (str_truthy ty) || String.eqb ty "any" then Ok "typing.Any"
      else CdpPrimitiveType ty
  end.

(** [CdpProperty.py_annotation]: this property's Python type
    annotation. *)
Definition py_annotation (p : CdpProperty.t) : result string :=
  ann <-
    match CdpProperty.items p with
    | Some items =>
        if str_truthy (CdpItems.ref items)
        then
          py_ref <- ref_to_python_domain (CdpItems.ref items) (CdpProperty.domain p) ;;
          Ok ("typing.List[" ++ py_ref ++ "]")%string
        else
          a <- get_annotation (Some (CdpItems.type items)) ;;
          Ok ("typing.List[" ++ a ++ "]")%string
    | None =>
        match CdpProperty.ref p with
        | Some ref =>
            if str_truthy ref
            then ref_to_python_domain ref (CdpProperty.domain p)
            else get_annotation (CdpProperty.type p)
        | None => get_annotation (CdpProperty.type p)
        end
    end ;;
  Ok (if CdpProperty.optional p then ("typing.Optional[" ++ ann ++ "]")%string else ann).

(** [sorted(s)] for a set [s] of strings given as the list of the items
    added to it: the items in ascending order, each once.
    [insert_sorted] puts one more item into such a list. *)
Fixpoint insert_sorted (x : string) (l : list string) : list string :=
  match l with
  | [] => [x]
  | y :: l' =>
      if String.eqb x y then l
      else if String.ltb x y then x :: l
      else y :: insert_sorted x l'
  end.

Definition sorted_set (l : list string) : list string :=
  fold_right insert_sorted [] l.

(** [CdpDomain.generate_imports], the set [refs]. *)
Definition domain_refs (d : CdpDomain.t) : list string :=
  flat_map CdpType.get_refs (CdpDomain.types d)
    ++ flat_map CdpCommand.get_refs (CdpDomain.commands d)
    ++ flat_map CdpEvent.get_refs (CdpDomain.events d).

(** [CdpDomain.generate_imports], the loop over [refs]: a ref that does
    not split into two parts at its dots is skipped, as is a ref into the
    domain itself. *)
Definition dependencies (d : CdpDomain.t) : list string :=
  flat_map (fun ref =>
              match split_dot ref with
              | [domain; _] =>
                  if String.eqb domain (CdpDomain.domain d) then []
                  else [snake_case domain]
              | _ => []
              end)
           (domain_refs d).

(** [CdpDomain.generate_imports], [needs_deprecation] *)
Definition needs_deprecation (d : CdpDomain.t) : bool :=
  existsb CdpCommand.deprecated (CdpDomain.commands d)
  || existsb CdpEvent.deprecated (CdpDomain.events d).

(** [CdpDomain.generate_imports]: the code that imports the modules this
    module depends on. *)
Definition generate_imports (d : CdpDomain.t) : string :=
  (join newline (map (fun m => "from . import " ++ m) (sorted_set (dependencies d)))
     ++ (if needs_deprecation d
         then newline ++ "from deprecated.sphinx import deprecated # type: ignore"
         else ""))%string.

End GenerateCdp.

(* ===================================================================== *)
(** * What the emitted code does when it runs *)
(* ===================================================================== *)

Module Generated.
Import Py GenerateCdp.

(** Python values.  [VObject] is an instance of an emitted class with its
    fields; a [dict] is kept as its items in insertion order. *)
Inductive value : Type :=
| VNone
| VBool (b : bool)
| VInt (z : Z)
| VStr (s : string)
| VList (l : list value)
| VTuple (l : list value)
| VDict (items : list (string * value))
| VObject (cls : string) (fields : list (string * value)).

Definition is_none (v : value) : bool :=
  match v with VNone => true | _ => false end.

Fixpoint lookup (k : string) (l : list (string * value)) : option value :=
  match l with
  | [] => None
  | (k', v) :: rest => if String.eqb k k' then Some v else lookup k rest
  end.

(** [d[k] = v], and the binding of a local name: the value of an existing
    key is replaced where it stands, a new key goes to the end. *)
Fixpoint update (k : string) (v : value) (l : list (string * value))
  : list (string * value) :=
  match l with
  | [] => [(k, v)]
  | (k', v') :: rest =>
      if String.eqb k k' then (k, v) :: rest else (k', v') :: update k v rest
  end.

Fixpoint chars (s : string) : list value :=
  match s with
  | EmptyString => []
  | String c s' => VStr (String c EmptyString) :: chars s'
  end.

(** The items a [for] clause runs over. *)
Definition iterate (v : value) : result (list value) :=
  match v with
  | VList l | VTuple l => Ok l
  | VDict items => Ok (map (fun kv => VStr (fst kv)) items)
  | VStr s => Ok (chars s)
  | _ => Raise (TypeError "object is not iterable")
  end.

(** The items of a [dict] without the key [k]. *)
Definition remove_key (k : string) (l : list (string * value)) : list (string * value) :=
  filter (fun kv => negb (String.eqb k (fst kv))) l.

(** A generator: it is done with a result or an exception, or it has
    yielded a request and waits to be resumed with the value sent. *)
Inductive gen : Type :=
| Done (r : result value)
| Yielded (request : value) (resume : value -> gen).

(** ** The emitted text as Python

    The interpreter below gives a meaning to every syntax tree.  The
    text that [render_stmt] prints for a tree is Python with that
    meaning under two conditions.  The strings that stand for names
    are names and the keys are plain text ([valid_function]): a keyword
    such as [class] among the names makes the text a syntax error, so
    that no function is defined; [call_command] tests this condition.
    And the classes and constructors that the text calls are those of
    the module, that is no local name of the function hides one of them
    ([well_scoped]): a parameter called [runtime] would be the [runtime]
    of [runtime.RemoteObject.from_json(...)]; the statements about what
    such calls return carry this condition as a hypothesis. *)

(** The text between the quotes stands for the string itself: no quote,
    backslash or line break in it.  (A quote or a line break ends the
    literal too early; a backslash starts an escape sequence, which
    makes another string of the text or no string at all.  Keys with a
    backslash are not modelled further: they count as text that is not
    Python.) *)
Definition is_literal (s : string) : bool :=
  forallb (fun c => negb (existsb (Ascii.eqb c)
                            [ascii_of_nat 39; ascii_of_nat 92; ascii_of_nat 10; ascii_of_nat 13]))
          (list_ascii_of_string s).

(** A dotted name such as [runtime.RemoteObject]. *)
Definition is_dotted_name (s : string) : bool := forallb is_name (split_dot s).

Fixpoint valid_expr (e : expr) : bool :=
  match e with
  | Name x => is_name x
  | Attr obj x => is_name obj && is_name x
  | Subscript d key => is_name d && is_literal key
  | ToJson e => valid_expr e
  | FromJson cls e => is_dotted_name cls && valid_expr e
  | Call ctor e => is_name ctor && valid_expr e
  | ListComp body iter => valid_expr body && valid_expr iter
  | IfKeyNotNone e d key => valid_expr e && is_name d && is_literal key
  end.

Fixpoint valid_simple (s : simple) : bool :=
  match s with
  | NewDict x => is_name x
  | SetItem d key e => is_name d && is_literal key && valid_expr e
  | IfNotNone x body => valid_expr x && valid_simple body
  | CmdDict x method params =>
      is_name x && is_literal method
      && match params with Some p => is_name p | None => true end
  end.

Definition valid_stmt (s : stmt) : bool :=
  match s with
  | Do s => valid_simple s
  | YieldTo x req => is_name x && is_name req
  | ReturnExpr e => valid_expr e
  | ReturnTuple es => forallb valid_expr es
  | ReturnNew cls kwargs =>
      is_name cls && forallb (fun ke => is_name (fst ke) && valid_expr (snd ke)) kwargs
  end.

Definition hidden (names : list string) (x : string) : bool :=
  existsb (String.eqb x) names.

Fixpoint no_duplicates (names : list string) : bool :=
  match names with
  | [] => true
  | x :: rest => negb (hidden rest x) && no_duplicates rest
  end.

(** The text of a function, its parameter list and its body, is
    Python: the parameters are names, no two of them the same, and the
    statements are well formed.  (The parameters with a default stand
    last, by [sort_by_optional].) *)
Definition valid_function (signature : list (string * bool)) (body : list stmt) : bool :=
  forallb (fun par => is_name (fst par)) signature
  && no_duplicates (map fst signature)
  && forallb valid_stmt body.

(** The first component of a dotted name, the one that is looked up as
    a name. *)
Definition head (cls : string) : string :=
  match split_dot cls with
  | h :: _ => h
  | [] => cls
  end.

(** None of [names], the local names, is the name of a class, module
    or constructor that the expression calls.  The variable [i] of a
    comprehension is local to its body. *)
Fixpoint unshadowed (names : list string) (e : expr) : bool :=
  match e with
  | Name _ | Attr _ _ | Subscript _ _ => true
  | ToJson e => unshadowed names e
  | FromJson cls e => negb (hidden names (head cls)) && unshadowed names e
  | Call ctor e => negb (hidden names ctor) && unshadowed names e
  | ListComp body iter => unshadowed ("i" :: names) body && unshadowed names iter
  | IfKeyNotNone e _ _ => unshadowed names e
  end.

Fixpoint unshadowed_simple (names : list string) (s : simple) : bool :=
  match s with
  | NewDict _ => negb (hidden names "dict")
  | SetItem _ _ e => unshadowed names e
  | IfNotNone x body => unshadowed names x && unshadowed_simple names body
  | CmdDict _ _ _ => true
  end.

Definition unshadowed_stmt (names : list string) (s : stmt) : bool :=
  match s with
  | Do s => unshadowed_simple names s
  | YieldTo _ _ => true
  | ReturnExpr e => unshadowed names e
  | ReturnTuple es => forallb (unshadowed names) es
  | ReturnNew cls kwargs =>
      negb (hidden names cls) && forallb (fun ke => unshadowed names (snd ke)) kwargs
  end.

(** [names] are all the local names of the function with this body. *)
Definition well_scoped (names : list string) (body : list stmt) : bool :=
  forallb (unshadowed_stmt names) body.

(** The local names of the function emitted for a command: its
    parameters and the names its body assigns. *)
Definition command_locals (c : CdpCommand.t) : list string :=
  map fst (command_signature c) ++ ["params"; "cmd_dict"; "json"].

Section Semantics.

(** The methods of the other emitted classes and the builtin
    constructors are those of the running program:
    [v.to_json()], [cls.from_json(v)] and [ctor(v)] for [ctor] one of
    [bool], [int], [float], [dict], [str]. *)
Variable method_to_json : value -> result value.
Variable class_from_json : string -> value -> result value.
Variable builtin_call : string -> value -> result value.

Definition name_lookup (x : string) (locals : list (string * value)) : result value :=
  match lookup x locals with
  | Some v => Ok v
  | None => Raise (NameError x)
  end.

Fixpoint eval (e : expr) (locals : list (string * value)) : result value :=
  match e with
  | Name x => name_lookup x locals
  | Attr obj x =>
      o <- name_lookup obj locals ;;
      match o with
      | VObject _ fields =>
          match lookup x fields with
          | Some v => Ok v
          | None => Raise (AttributeError x)
          end
      | _ => Raise (AttributeError x)
      end
  | Subscript d key =>
      dv <- name_lookup d locals ;;
      match dv with
      | VDict items =>
          match lookup key items with
          | Some v => Ok v
          | None => Raise (KeyError key)
          end
      | _ => Raise (TypeError "object is not subscriptable")
      end
  | ToJson e => v <- eval e locals ;; method_to_json v
  | FromJson cls e => v <- eval e locals ;; class_from_json cls v
  | Call ctor e => v <- eval e locals ;; builtin_call ctor v
  | ListComp body iter =>
      it <- eval iter locals ;;
      l <- iterate it ;;
      vs <- mapM (fun v => eval body (("i", v) :: locals)) l ;;
      Ok (VList vs)
  | IfKeyNotNone e d key =>
      dv <- name_lookup d locals ;;
      match dv with
      | VDict items =>
          match lookup key items with
          | None | Some VNone => Ok VNone
          | Some _ => eval e locals
          end
      | _ => Raise (AttributeError "get")
      end
  end.

Fixpoint exec_simple (s : simple) (locals : list (string * value))
  : result (list (string * value)) :=
  match s with
  | NewDict x => Ok (update x (VDict []) locals)
  | SetItem d key e =>
      v <- eval e locals ;;
      dv <- name_lookup d locals ;;
      match dv with
      | VDict items => Ok (update d (VDict (update key v items)) locals)
      | _ => Raise (TypeError "object does not support item assignment")
      end
  | IfNotNone x body =>
      v <- eval x locals ;;
      if is_none v then Ok locals else exec_simple body locals
  | CmdDict x method params =>
      match params with
      | Some p =>
          pv <- name_lookup p locals ;;
          Ok (update x (VDict [("method", VStr method); ("params", pv)]) locals)
      | None => Ok (update x (VDict [("method", VStr method)]) locals)
      end
  end.

(** A run of statements without control transfer. *)
Fixpoint exec_simples (ss : list simple) (locals : list (string * value))
  : result (list (string * value)) :=
  match ss with
  | [] => Ok locals
  | s :: rest => locals' <- exec_simple s locals ;; exec_simples rest locals'
  end.

(** The body of a function.  Falling off the end returns [None]. *)
Fixpoint exec (body : list stmt) (locals : list (string * value)) : gen :=
  match body with
  | [] => Done (Ok VNone)
  | s :: rest =>
      match s with
      | Do s =>
          match exec_simple s locals with
          | Ok locals' => exec rest locals'
          | Raise e => Done (Raise e)
          end
      | YieldTo x req =>
          match name_lookup req locals with
          | Ok request => Yielded request (fun sent => exec rest (update x sent locals))
          | Raise e => Done (Raise e)
          end
      | ReturnExpr e => Done (eval e locals)
      | ReturnTuple es =>
          Done (vs <- mapM (fun e => eval e locals) es ;; Ok (VTuple vs))
      | ReturnNew cls kwargs =>
          Done (fields <- mapM (fun ke => v <- eval (snd ke) locals ;; Ok (fst ke, v))
                               kwargs ;;
                Ok (VObject cls fields))
      end
  end.

(** A call by keyword arguments of a function with the given parameter list:
    a parameter without a default must be given, a name that is not a
    parameter is refused. *)
Definition bind_arguments (signature : list (string * bool))
           (kwargs : list (string * value)) : result (list (string * value)) :=
  if existsb (fun kv => negb (existsb (String.eqb (fst kv)) (map fst signature))) kwargs
  then Raise (TypeError "got an unexpected keyword argument")
  else
    mapM (fun par =>
            match lookup (fst par) kwargs with
            | Some v => Ok (fst par, v)
            | None =>
                if snd par : bool then Ok (fst par, VNone)
                else Raise (TypeError "missing a required argument")
            end)
         signature.

(** Calling the emitted command function.  A text that is not Python
    defines no function: the module that holds it cannot be imported,
    which is kept here as the call ending with [SyntaxError]. *)
Definition call_command (c : CdpCommand.t) (body : list stmt)
           (kwargs : list (string * value)) : gen :=
  if valid_function (command_signature c) body
  then
    match bind_arguments (command_signature c) kwargs with
    | Ok locals => exec body locals
    | Raise e => Done (Raise e)
    end
  else Done (Raise SyntaxError).

(** Calling the emitted [to_json] on an instance. *)
Definition call_to_json (ty : CdpType.t) (self : value) : gen :=
  exec (class_to_json_body ty) [("self", self)].

(** Calling the emitted [from_json] on a wire value. *)
Definition call_from_json (body : list stmt) (json : value) : gen :=
  exec body [("json", json)].

(** ** The wire encoding, in the words of the specification

    The [to_wire] of one argument: a list-valued property is encoded
    item by item, a reference by the [to_json] of its value, anything
    else stands for itself. *)
Definition to_wire (p : CdpProperty.t) (v : value) : result value :=
  match CdpProperty.items p with
  | Some items =>
      l <- iterate v ;;
      if str_truthy (CdpItems.ref items)
      then vs <- mapM method_to_json l ;; Ok (VList vs)
      else Ok (VList l)
  | None =>
      if opt_truthy (CdpProperty.ref p) then method_to_json v else Ok v
  end.

(** The [to_wire] of the given values restricted to the values that
    are not absent, keyed by the CDP names.  [read] gives the value of
    a property from its Python name. *)
Fixpoint wire_items (ps : list CdpProperty.t) (read : string -> option value)
  : result (list (string * value)) :=
  match ps with
  | [] => Ok []
  | p :: rest =>
      match read (CdpProperty.py_name p) with
      | None => Raise (NameError (CdpProperty.py_name p))
      | Some VNone => wire_items rest read
      | Some v =>
          j <- to_wire p v ;;
          r <- wire_items rest read ;;
          Ok ((CdpProperty.name p, j) :: r)
      end
  end.

(** The value a call by keyword arguments gives to the parameter [x]:
    the argument, or the default [None]. *)
Definition provided (kwargs : list (string * value)) (x : string) : option value :=
  match lookup x kwargs with
  | Some v => Some v
  | None => Some VNone
  end.

(** The values are of the declared types as far as absence goes: only
    an optional property is [None]. *)
Definition present_if_required (ps : list CdpProperty.t)
           (read : string -> option value) : Prop :=
  forall p, In p ps -> read (CdpProperty.py_name p) = Some VNone ->
            CdpProperty.optional p = true.

(** The [from_wire] of one wire value, the counterpart of [to_wire]: a
    list-valued property is decoded item by item; a reference is decoded
    by the [from_json] of its class, a primitive type by its
    constructor, and a value of any type stands for itself. *)
Definition from_wire_one (ty : option string) (j : value) : result value :=
  match ty with
  | None => Ok j
  | Some ty =>
      if negb (str_truthy ty) || String.eqb ty "any" then Ok j
      else ctor <- CdpPrimitiveType ty ;; builtin_call ctor j
  end.

Definition from_wire (p : CdpProperty.t) (j : value) : result value :=
  match CdpProperty.items p with
  | Some items =>
      if str_truthy (CdpItems.ref items)
      then
        py_ref <- ref_to_python_domain (CdpItems.ref items) (CdpProperty.domain p) ;;
        l <- iterate j ;;
        vs <- mapM (class_from_json py_ref) l ;;
        Ok (VList vs)
      else
        l <- iterate j ;;
        vs <- mapM (from_wire_one (Some (CdpItems.type items))) l ;;
        Ok (VList vs)
  | None =>
      if opt_truthy (CdpProperty.ref p)
      then
        py_ref <- ref_to_python_domain
                    (match CdpProperty.ref p with Some r => r | None => "" end)
                    (CdpProperty.domain p) ;;
        class_from_json py_ref j
      else from_wire_one (CdpProperty.type p) j
  end.

End Semantics.

End Generated.

(* ===================================================================== *)
(** * The DOM as the facade sees it *)
(* ===================================================================== *)

Module Dom.
Import Py.

(** Modelled from the spec: [cdp.dom.Node], the class that the generator
    emits for the CDP type [DOM.Node]; the emitted package is not among
    the sources.  The fields are those the facade reads, under the names
    the name mapping gives them.  A missing [children] list is the empty
    list. *)
Inductive Node : Type := mkNode {
  node_id : Z;
  parent_id : option Z;
  backend_node_id : Z;
  node_type : Z;
  node_name : string;
  node_value : string;
  children : list Node;
  attributes : option (list string);
  content_document : option Node
}.

(** Modelled from the spec: [cdp.runtime.RemoteObject], emitted for the
    CDP type [Runtime.RemoteObject], with its [object_id], the "remote
    object id" of the specification. *)
Record RemoteObject : Type := mkRemoteObject { object_id : option string }.

(** Modelled from the spec: the commands of the emitted [cdp.dom] module
    that the facade sends, and what the session gives back for one: the
    decoded return value of the command, or [Error] for a response that
    carries an error, "a protocol error carrying code, message, data". *)
Inductive request : Type :=
| GetDocument (depth : Z) (pierce : bool)
| QuerySelector (node_id : Z) (selector : string)
| QuerySelectorAll (node_id : Z) (selector : string)
| PerformSearch (query : string) (include_user_agent_shadow_dom : bool)
| GetSearchResults (search_id : string) (from_index to_index : Z)
| DiscardSearchResults (search_id : string)
| ResolveNodeById (node_id : Z)
| ResolveNodeByBackendId (backend_node_id : Z)
| Disable.

(** The decoded answers: of [get_document], [query_selector],
    [query_selector_all] and [get_search_results], [perform_search],
    [resolve_node], of a command without return value, and the error. *)
Inductive reply : Type :=
| Document (root : Node)
| NodeIdReply (node_id : Z)
| NodeIds (node_ids : list Z)
| SearchReply (search_id : string) (result_count : Z)
| Resolved (object : RemoteObject)
| Empty
| Error (message : option string).

(** A computation of the facade: it reads and extends the list of the
    requests sent so far, and returns or raises. *)
Definition M (A : Type) : Type := list request -> result A * list request.

Definition ret {A} (a : A) : M A := fun log => (Ok a, log).

Definition raise {A} (e : exn) : M A := fun log => (Raise e, log).

Definition bindM {A B} (m : M A) (k : A -> M B) : M B :=
  fun log =>
    match m log with
    | (Ok a, log') => k a log'
    | (Raise e, log') => (Raise e, log')
    end.

(** [try: m except ProtocolException as e: handler(e.message)] *)
Definition except_protocol {A} (m : M A) (handler : option string -> M A) : M A :=
  fun log =>
    match m log with
    | (Raise (ProtocolException message), log') => handler message log'
    | r => r
    end.

(** Modelled from the spec: [ContraDict] ([zendriver/core/_contradict.py]
    is not among the sources), the "ordered map" into which the facade
    unflattens the attributes array, read by [getattr(attrs, name, None)]
    and written by [attrs[name] = value]. *)
Definition attrs_map : Type := list (string * string).

Fixpoint attrs_get (k : string) (m : attrs_map) : option string :=
  match m with
  | [] => None
  | (k', v) :: rest => if String.eqb k k' then Some v else attrs_get k rest
  end.

(** [attrs[k] = v] *)
Fixpoint attrs_set (k v : string) (m : attrs_map) : attrs_map :=
  match m with
  | [] => [(k, v)]
  | (k', v') :: rest =>
      if String.eqb k k' then (k, v) :: rest else (k', v') :: attrs_set k v rest
  end.

(** Modelled from the spec: the map is a [dict] ([element.py] calls its
    [get], [clear] and [items]), so besides its keys the object has the
    attributes of every [dict]: the methods, bound to the map, and the
    special attributes below, all of them true values.  Other names that
    begin with two underscores ([__doc__], [__module__], [__dict__], ...)
    have the values that the class definition gives them; they are read
    here as names the map does not have, and no statement about [get]
    covers them. *)
Definition dict_methods : list string :=
  ["clear"; "copy"; "fromkeys"; "get"; "items"; "keys"; "pop"; "popitem";
   "setdefault"; "update"; "values"].

Definition dict_special_attributes : list string :=
  ["__class__"; "__contains__"; "__delattr__"; "__delitem__"; "__dir__"; "__eq__";
   "__format__"; "__ge__"; "__getattribute__"; "__getitem__"; "__gt__"; "__init__";
   "__init_subclass__"; "__iter__"; "__le__"; "__len__"; "__lt__"; "__ne__";
   "__new__"; "__reduce__"; "__reduce_ex__"; "__repr__"; "__reversed__";
   "__setattr__"; "__setitem__"; "__sizeof__"; "__str__"; "__subclasshook__"].

Definition is_dict_attribute (name : string) : bool :=
  existsb (String.eqb name) (dict_methods ++ dict_special_attributes).

(** What an attribute of the map is: the value stored under a key, or
    an attribute of the map object itself, such as the bound method
    [items]. *)
Inductive attribute : Type :=
| Value (v : string)
| OfTheMap (name : string).

(** [getattr(attrs, name, None)]: the value under the key [name], as
    [element.href] is [element.attrs["href"]]; for a name that is no key,
    the attribute of that name of the map object, if it has one. *)
Definition attrs_getattr (name : string) (m : attrs_map) : option attribute :=
  match attrs_get name m with
  | Some v => Some (Value v)
  | None => if is_dict_attribute name then Some (OfTheMap name) else None
  end.

End Dom.

Notation "x <~ m ;; k" := (Dom.bindM m (fun x => k))
  (at level 61, m at next level, right associativity).

(* ===================================================================== *)
(** * zendriver/core/util.py *)
(* ===================================================================== *)

Module Util.
Import Dom.

(** Modelled from the spec: [util.filter_recurse], which is not among the
    sources.  The specification has the facade locate a node "in the
    already-fetched subtree" by a "depth-first traversal"; the nodes
    below [doc] are visited in that order and the first that satisfies
    the predicate is returned. *)
Fixpoint filter_recurse (doc : Node) (predicate : Node -> bool) : option Node :=
  match doc with
  | mkNode _ _ _ _ _ _ children _ _ =>
      (fix search (l : list Node) : option Node :=
         match l with
         | [] => None
         | child :: rest =>
             if predicate child then Some child
             else match filter_recurse child predicate with
                  | Some found => Some found
                  | None => search rest
                  end
         end) children
  end.

(** Modelled from the spec: [util.filter_recurse_all], which is not among
    the sources: all the nodes below [doc] that satisfy the predicate, in
    the order of a depth-first traversal. *)
Fixpoint filter_recurse_all (doc : Node) (predicate : Node -> bool) : list Node :=
  match doc with
  | mkNode _ _ _ _ _ _ children _ _ =>
      (fix search (l : list Node) : list Node :=
         match l with
         | [] => []
         | child :: rest =>
             (if predicate child then [child] else [])
               ++ filter_recurse_all child predicate ++ search rest
         end) children
  end.

End Util.

(* ===================================================================== *)
(** * zendriver/core/element.py *)
(* ===================================================================== *)

Module ElementPy.
Import Py Dom.

(** An [Element]: the tab it belongs to, the node, the tree the node was
    found in, the resolved remote object and the attribute map.  The
    annotations of [__init__] are followed: [_node] and [_tree] are
    nodes. *)
Record Element : Type := mkElement {
  _tab : Z;
  _node : Node;
  _tree : option Node;
  _remote_object : option RemoteObject;
  _attrs : attrs_map
}.

(** The loop of [_make_attrs] from index [i] on, [sav] being the last
    attribute name seen. *)
Fixpoint make_attrs_loop (i : nat) (sav : option string) (l : list string)
         (attrs : attrs_map) : attrs_map :=
  match l with
  | [] => attrs
  | a :: rest =>
      if (i =? 0)%nat || (i mod 2 =? 0)%nat
      then
        let a := if String.eqb a "class" then "class_" else a in
        make_attrs_loop (S i) (Some a) rest attrs
      else
        make_attrs_loop (S i) sav rest
          (match sav with
           | Some k => if str_truthy k then attrs_set k a attrs else attrs
           | None => attrs
           end)
  end.

(** [Element._make_attrs], on the attribute map [attrs] of the element. *)
Definition _make_attrs (node : Node) (attrs : attrs_map) : attrs_map :=
  match attributes node with
  | Some (a :: l) => make_attrs_loop 0 None (a :: l) attrs
  | _ => attrs
  end.

(** [create], that is [Element(node, tab, tree)]. *)
Definition create (node : Node) (tab : Z) (tree : option Node) : Element :=
  mkElement tab node tree None (_make_attrs node []).

Definition backend_node_id (e : Element) : Z := Dom.backend_node_id (_node e).
Definition node_type (e : Element) : Z := Dom.node_type (_node e).
Definition node_name (e : Element) : string := Dom.node_name (_node e).
Definition parent_id (e : Element) : option Z := Dom.parent_id (_node e).
Definition content_document (e : Element) : option Node := Dom.content_document (_node e).
Definition attrs (e : Element) : attrs_map := _attrs e.

(** [Element.get]: [x = getattr(self.attrs, name, None)], returned when
    it is true.  A bound method and a class are true. *)
Definition get (e : Element) (name : string) : option attribute :=
  match attrs_getattr name (attrs e) with
  | Some (Value x) => if str_truthy x then Some (Value x) else None
  | Some (OfTheMap a) => Some (OfTheMap a)
  | None => None
  end.

(** The right operand of [==]. *)
Inductive object : Type :=
| AnElement (e : Element)
| Other.

(** [Element.__eq__] *)
Definition __eq__ (self : Element) (other : object) : bool :=
  match other with
  | Other => false
  | AnElement other =>
      if negb (Z.eqb (backend_node_id other) 0) && negb (Z.eqb (backend_node_id self) 0)
      then Z.eqb (backend_node_id other) (backend_node_id self)
      else false
  end.

Section Util.

(** [util.filter_recurse] and [util.filter_recurse_all] search the
    tree below a node for the first node, or all the nodes, that
    satisfy a predicate.  The facade is modelled over any such pair of
    functions; [Util] has the pair used in the examples. *)
Variable filter_recurse : Node -> (Node -> bool) -> option Node.
Variable filter_recurse_all : Node -> (Node -> bool) -> list Node.

(** What the browser answers to the last request of a list of
    requests. *)
Variable browser : list request -> reply.

(** Modelled from the spec: [await tab.send(command)], that is
    [Connection.send] ([zendriver/core/connection.py] is not among the
    sources).  The request is written, and the matching response
    completes the call with the decoded value, or "with a protocol error
    rather than a value": a [ProtocolException] with the message of the
    error. *)
Definition send (r : request) : M reply :=
  fun log =>
    let log' := log ++ [r] in
    match browser log' with
    | Error message => (Raise (ProtocolException message), log')
    | answer => (Ok answer, log')
    end.

(** [await tab.send(cdp.dom.get_document(-1, True))] *)
Definition get_document : M Node :=
  answer <~ send (GetDocument (-1) true) ;;
  match answer with
  | Document root => ret root
  | _ => raise (KeyError "root")
  end.

(** [await tab.send(cdp.dom.resolve_node(backend_node_id=b))] *)
Definition resolve_node (b : Z) : M RemoteObject :=
  answer <~ send (ResolveNodeByBackendId b) ;;
  match answer with
  | Resolved object => ret object
  | _ => raise (KeyError "object")
  end.

(** [Element.update] without the [_node] argument.  The element is
    changed in place; the changed element is returned.  When a request
    raises, the exception is the outcome and the state in which the
    element is left is not kept. *)
Definition update (self : Element) : M Element :=
  doc <~ get_document ;;
  let updated_node :=
    filter_recurse doc
      (fun n => Z.eqb (Dom.backend_node_id n) (Dom.backend_node_id (_node self))) in
  let node := match updated_node with Some n => n | None => _node self end in
  object <~ resolve_node (Dom.backend_node_id node) ;;
  ret (mkElement (_tab self) node (Some doc) (Some object) (_make_attrs node [])).

(** [Element.parent] *)
Definition parent (self : Element) : result (option Element) :=
  match _tree self with
  | None => Raise (RuntimeError "could not get parent since the element has no tree set")
  | Some tree =>
      let parent_node :=
        filter_recurse tree
          (fun n => match parent_id self with
                    | Some pid => Z.eqb (Dom.node_id n) pid
                    | None => false
                    end) in
      match parent_node with
      | None => Ok None
      | Some parent_node => Ok (Some (create parent_node (_tab self) (Some tree)))
      end
  end.

(** [Element.text_all] *)
Definition text_all (self : Element) : string :=
  let text_nodes := filter_recurse_all (_node self) (fun n => Z.eqb (Dom.node_type n) 3) in
  join " " (map Dom.node_value text_nodes).

End Util.

End ElementPy.

(* ===================================================================== *)
(** * zendriver/core/tab.py *)
(* ===================================================================== *)

Module TabPy.
Import Py Dom ElementPy.

(** The [_node] argument of the selector queries: a [cdp.dom.Node] or an
    [Element], together with the attribute ["__last"] that the queries
    set on the object ([dyn_last] tells whether it is set).  An element
    given as root is searched through its node. *)
Inductive target : Type :=
| ANode (n : Node)
| AHandle (e : Element).

Record handle : Type := mkHandle { obj : target; dyn_last : bool }.

Definition handle_node (h : handle) : Node :=
  match obj h with
  | ANode n => n
  | AHandle e => _node e
  end.

(** [getattr(_node, "__last", None)], as a truth value.  When the
    attribute is not set on an element, [Element.__getattr__] answers
    with the HTML attribute of that name, if it has a value. *)
Definition getattr_last (h : handle) : bool :=
  if dyn_last h then true
  else match obj h with
       | AHandle e => match get e "__last" with Some _ => true | None => false end
       | ANode _ => false
       end.

(** [delattr(_node, "__last")] *)
Definition delattr_last (h : handle) : result handle :=
  if dyn_last h then Ok (mkHandle (obj h) false)
  else Raise (AttributeError "__last").

(** [setattr(_node, "__last", True)] *)
Definition setattr_last (h : handle) : handle := mkHandle (obj h) true.

(** [e.message is not None and "could not find node" in e.message.lower()] *)
Definition could_not_find_node (message : option string) : bool :=
  match message with
  | Some m => contains "could not find node" (lower m)
  | None => false
  end.

(** Leaving a [try] block: go on after it, or return from the function. *)
Inductive flow (A R : Type) : Type :=
| Continue (a : A)
| Return (r : R).
Arguments Continue {A R} a.
Arguments Return {A R} r.

Section Tab.

Variable filter_recurse : Node -> (Node -> bool) -> option Node.
Variable filter_recurse_all : Node -> (Node -> bool) -> list Node.
Variable browser : list request -> reply.

(** The tab, [self]. *)
Variable self : Z.

Let send := ElementPy.send browser.
Let get_document := ElementPy.get_document browser.
Let update := ElementPy.update filter_recurse browser.
Let parent := ElementPy.parent filter_recurse.
Let text_all := ElementPy.text_all filter_recurse_all.

(** [Tab.disable_dom_agent] *)
Definition disable_dom_agent : M unit :=
  except_protocol (_ <~ send Disable ;; ret tt) (fun _ => ret tt).

(** The root of the search: the fetched document, the given object, or
    the content document of a given IFRAME. *)
Definition search_root (_node : option handle) : M (option Node) :=
  match _node with
  | None => doc <~ get_document ;; ret (Some doc)
  | Some h =>
      if String.eqb (Dom.node_name (handle_node h)) "IFRAME"
      then ret (Dom.content_document (handle_node h))
      else ret (Some (handle_node h))
  end.

(** [doc.node_id] *)
Definition doc_node_id (doc : option Node) : M Z :=
  match doc with
  | Some d => ret (Dom.node_id d)
  | None => raise (AttributeError "node_id")
  end.

(** [isinstance(_node, Element)].  [tab.py] imports the name [Element]
    under [if TYPE_CHECKING:] only, and binds it nowhere else, so when
    the test is evaluated the name has no value: it raises [NameError],
    whatever [_node] is. *)
Definition isinstance_Element (h : handle) : M bool := raise (NameError "Element").

(** [if isinstance(_node, Element): await _node.update()] *)
Definition update_handle (h : handle) : M handle :=
  is_element <~ isinstance_Element h ;;
  if is_element : bool
  then
    match obj h with
    | AHandle e => e' <~ update e ;; ret (mkHandle (AHandle e') (dyn_last h))
    | ANode _ => ret h
    end
  else ret h.

(** The [for nid in node_ids] loop of [query_selector_all]. *)
Definition locate_all (doc : Node) (node_ids : list Z) : list Element :=
  flat_map (fun nid =>
              match filter_recurse doc (fun n => Z.eqb (Dom.node_id n) nid) with
              | None => []
              | Some node => [create node self (Some doc)]
              end)
           node_ids.

(** [Tab.query_selector_all].  [fuel] bounds the depth of the
    recursion, as Python's recursion limit does.  The result comes
    with the [_node] object as the call leaves it. *)
Fixpoint query_selector_all (fuel : nat) (selector : string) (_node : option handle)
  : M (list Element * option handle) :=
  match fuel with
  | O => raise RecursionError
  | S fuel =>
      doc <~ search_root _node ;;
      tried <~
        except_protocol
          (nid <~ doc_node_id doc ;;
           answer <~ send (QuerySelectorAll nid selector) ;;
           match answer with
           | NodeIds node_ids => ret (Continue node_ids)
           | _ => raise (KeyError "nodeIds")
           end)
          (fun message =>
             match _node with
             | Some h =>
                 if could_not_find_node message
                 then
                   if getattr_last h
                   then
                     match delattr_last h with
                     | Ok h' => ret (Return ([], Some h'))
                     | Raise e => raise e
                     end
                   else
                     h <~ update_handle h ;;
                     r <~ query_selector_all fuel selector (Some (setattr_last h)) ;;
                     ret (Return r)
                 else ret (Continue [])
             | None =>
                 _ <~ disable_dom_agent ;;
                 raise (ProtocolException message)
             end) ;;
      match tried with
      | Return r => ret r
      | Continue node_ids =>
          match node_ids, doc with
          | [], _ | _, None => ret ([], _node)
          | _, Some doc => ret (locate_all doc node_ids, _node)
          end
      end
  end.

(** [Tab.query_selector] *)
Fixpoint query_selector (fuel : nat) (selector : string) (_node : option handle)
  : M (option Element * option handle) :=
  match fuel with
  | O => raise RecursionError
  | S fuel =>
      let selector := strip selector in
      doc <~ search_root _node ;;
      tried <~
        except_protocol
          (nid <~ doc_node_id doc ;;
           answer <~ send (QuerySelector nid selector) ;;
           match answer with
           | NodeIdReply node_id => ret (Continue node_id)
           | _ => raise (KeyError "nodeId")
           end)
          (fun message =>
             match _node with
             | Some h =>
                 if could_not_find_node message
                 then
                   if getattr_last h
                   then
                     match delattr_last h with
                     | Ok h' => ret (Return (None, Some h'))
                     | Raise e => raise e
                     end
                   else
                     h <~ update_handle h ;;
                     r <~ query_selector fuel selector (Some (setattr_last h)) ;;
                     ret (Return r)
                 else ret (Continue 0%Z)
             | None =>
                 if could_not_find_node message
                 then ret (Return (None, None))
                 else
                   _ <~ disable_dom_agent ;;
                   raise (ProtocolException message)
             end) ;;
      match tried with
      | Return r => ret r
      | Continue node_id =>
          if Z.eqb node_id 0 then ret (None, _node)
          else
            match doc with
            | None => ret (None, _node)
            | Some doc =>
                match filter_recurse doc (fun n => Z.eqb (Dom.node_id n) node_id) with
                | None => ret (None, _node)
                | Some node => ret (Some (create node self (Some doc)), _node)
                end
            end
      end
  end.

(** The [for nid in node_ids] loop of [find_elements_by_text].  A node
    that is not in the fetched document is resolved to a remote
    object, from which no element can be made ([_make_attrs] fails on
    it), so the result is skipped whether or not the resolution
    succeeds. *)
Fixpoint text_results (doc : Node) (node_ids : list Z) : M (list Element) :=
  match node_ids with
  | [] => ret []
  | nid :: rest =>
      match filter_recurse doc (fun n => Z.eqb (Dom.node_id n) nid) with
      | None =>
          _ <~ except_protocol
                 (answer <~ send (ResolveNodeById nid) ;;
                  match answer with
                  | Resolved _ => ret tt
                  | _ => raise (KeyError "object")
                  end)
                 (fun _ => ret tt) ;;
          text_results doc rest
      | Some node =>
          let elem := create node self (Some doc) in
          if Z.eqb (node_type elem) 3
          then
            p <~ (fun log => (parent elem, log)) ;;
            elem <~ match p with
                    | None => update elem
                    | Some _ => ret elem
                    end ;;
            p <~ (fun log => (parent elem, log)) ;;
            items <~ text_results doc rest ;;
            ret (match p with Some p => p | None => elem end :: items)
          else
            items <~ text_results doc rest ;;
            ret (elem :: items)
      end
  end.

(** The text nodes of the frames: for every IFRAME of the document
    with a content document, the parents of the text nodes below it
    whose value contains the text, whatever the case of the letters. *)
Definition iframe_results (doc : Node) (text : string) : result (list Element) :=
  let iframes := filter_recurse_all doc (fun node => String.eqb (Dom.node_name node) "IFRAME") in
  r <- mapM (fun iframe =>
               let iframe_elem := create iframe self (Dom.content_document iframe) in
               match content_document iframe_elem with
               | None => Ok []
               | Some frame =>
                   let iframe_text_nodes :=
                     filter_recurse_all frame
                       (fun node => Z.eqb (Dom.node_type node) 3
                                    && contains (lower text) (lower (Dom.node_value node))) in
                   let iframe_text_elems :=
                     map (fun text_node => create text_node self (_tree iframe_elem))
                         iframe_text_nodes in
                   ps <- mapM parent iframe_text_elems ;;
                   Ok (flat_map (fun p => match p with Some p => [p] | None => [] end) ps)
               end)
            iframes ;;
  Ok (concat r).

(** [Tab.find_elements_by_text] *)
Definition find_elements_by_text (text : string) : M (list Element) :=
  let text := strip text in
  doc <~ get_document ;;
  answer <~ send (PerformSearch text true) ;;
  match answer with
  | SearchReply search_id nresult =>
      node_ids <~
        (if negb (Z.eqb nresult 0)
         then
           answer <~ send (GetSearchResults search_id 0 nresult) ;;
           match answer with
           | NodeIds node_ids => ret node_ids
           | _ => raise (KeyError "nodeIds")
           end
         else ret []) ;;
      _ <~ send (DiscardSearchResults search_id) ;;
      items <~ text_results doc node_ids ;;
      frames <~ (fun log => (iframe_results doc text, log)) ;;
      _ <~ disable_dom_agent ;;
      ret (items ++ frames)
  | _ => raise (KeyError "searchId")
  end.

(** [min(items, key=key)] on a list with first item [x]: the first of
    the items with the least key. *)
Fixpoint min_by {A} (key : A -> nat) (x : A) (l : list A) : A :=
  match l with
  | [] => x
  | y :: l' => if (key y <? key x)%nat then min_by key y l' else min_by key x l'
  end.

(** The key of the best match:
    [abs(len(text) - len(el.text_all))], on lengths in code points. *)
Definition length_distance (text : string) (el : Element) : nat :=
  abs_diff (len text) (len (text_all el)).

(** [Tab.find_element_by_text] *)
Definition find_element_by_text (text : string) (best_match : bool)
           (return_enclosing_element : bool) : M (option Element) :=
  items <~ find_elements_by_text text ;;
  match items with
  | [] => ret None
  | first :: others =>
      if best_match
      then
        let closest_by_length := min_by (length_distance text) first others in
        ret (Some closest_by_length)
      else ret (Some first)
  end.

End Tab.

End TabPy.

(* ===================================================================== *)
(** * zendriver/core/tab.py: evaluation, storage and window state *)
(* ===================================================================== *)

(** A session over any set of commands: the requests sent so far are
    kept, and the browser answers the last of them. *)
Module Session.
Import Py.

Section Session.

Variables request reply : Type.

Definition M (A : Type) : Type := list request -> result A * list request.

Definition ret {A} (a : A) : M A := fun log => (Ok a, log).

Definition raise {A} (e : exn) : M A := fun log => (Raise e, log).

Definition bindM {A B} (m : M A) (k : A -> M B) : M B :=
  fun log =>
    match m log with
    | (Ok a, log') => k a log'
    | (Raise e, log') => (Raise e, log')
    end.

(** [error_of] tells the answers that carry an error, with its
    message. *)
Variable error_of : reply -> option (option string).
Variable browser : list request -> reply.

(** Modelled from the spec: [await self.send(command)], as
    [ElementPy.send]. *)
Definition send (r : request) : M reply :=
  fun log =>
    let log' := log ++ [r] in
    match error_of (browser log') with
    | Some message => (Raise (ProtocolException message), log')
    | None => (Ok (browser log'), log')
    end.

End Session.

End Session.

Notation "x <~~ m ;; k" := (Session.bindM m (fun x => k))
  (at level 61, m at next level, right associativity).

(** [Tab.evaluate] and [Tab.set_user_agent] *)
Module TabRuntime.
Import Py Session.

(** Modelled from the spec: [cdp.runtime.RemoteObject] with its [value],
    a decoded JSON value ([None] is [Json.Null]), and
    [cdp.runtime.ExceptionDetails]; the emitted package is not among the
    sources. *)
Record RemoteObject : Type := mkRemoteObject { value : Json.t }.

Record ExceptionDetails : Type := mkExceptionDetails { text : string }.

(** What [evaluate] returns: the value, or the pair
    [(remote_object, errors)]. *)
Inductive evaluated : Type :=
| Value (v : Json.t)
| Pair (remote_object : RemoteObject) (errors : option ExceptionDetails).

(** Truthiness of what [evaluate] returns: a tuple of two items is
    true. *)
Definition truthy (r : evaluated) : bool :=
  match r with
  | Value v => Json.truthy v
  | Pair _ _ => true
  end.

(** Modelled from the spec: the commands [cdp.runtime.evaluate] (with
    [user_gesture] and [allow_unsafe_eval_blocked_by_csp] set) and
    [cdp.network.set_user_agent_override], and their decoded answers. *)
Inductive request : Type :=
| Evaluate (expression : string) (await_promise return_by_value : bool)
| SetUserAgentOverride (user_agent : evaluated) (accept_language platform : option string).

Inductive reply : Type :=
| Evaluated (remote_object : RemoteObject) (errors : option ExceptionDetails)
| Empty
| Error (message : option string).

Definition error_of (r : reply) : option (option string) :=
  match r with
  | Error message => Some message
  | _ => None
  end.

Section Tab.

Variable browser : list request -> reply.

(** Modelled from the spec: the message of [ProtocolException(errors)];
    the class is defined in [zendriver/core/connection.py], which is
    not among the sources. *)
Variable message_of : ExceptionDetails -> option string.

#[local] Abbreviation M := (Session.M request).
#[local] Abbreviation send := (Session.send error_of browser).

(** [Tab.evaluate].  The remote object is an instance of an emitted
    class, which is true. *)
Definition evaluate (expression : string) (await_promise return_by_value : bool)
  : M evaluated :=
  answer <~~ send (Evaluate expression await_promise return_by_value) ;;
  match answer with
  | Evaluated remote_object errors =>
      match errors with
      | Some details => raise (ProtocolException (message_of details))
      | None =>
          if return_by_value && Json.truthy (value remote_object)
          then ret (Value (value remote_object))
          else ret (Pair remote_object errors)
      end
  | _ => raise (TypeError "cannot unpack")
  end.

(** [Tab.set_user_agent] *)
Definition set_user_agent (user_agent accept_language platform : option string)
  : M unit :=
  user_agent <~~
    (if match user_agent with Some s => str_truthy s | None => false end
     then ret (Value (Json.Str (match user_agent with Some s => s | None => "" end)))
     else
       user_agent <~~ evaluate "navigator.userAgent" false true ;;
       if negb (truthy user_agent)
       then raise (ValueError "Could not read existing user agent from navigator object")
       else ret user_agent) ;;
  _ <~~ send (SetUserAgentOverride user_agent accept_language platform) ;;
  ret tt.

End Tab.

End TabRuntime.

(** [Tab.get_local_storage] and [Tab.set_local_storage]: the security
    origin *)
Module TabStorage.
Import Py.

(** [s.split("/", n)]: at most [n] splits, from the left. *)
Fixpoint split_max (n : nat) (s : string) : list string :=
  match s with
  | EmptyString => [EmptyString]
  | String c s' =>
      match n with
      | O => [s]
      | S n' =>
          if Ascii.eqb c "/" then EmptyString :: split_max n' s'
          else match split_max n s' with
               | [] => [String c EmptyString]
               | w :: ws => String c w :: ws
               end
      end
  end.

(** [l[:-1]] *)
Definition but_last {A} (l : list A) : list A := removelast l.

(** [origin = "/".join(self.url.split("/", 3)[:-1] if self.url else [])],
    for the value [url] of [self.url]. *)
Definition origin (url : option string) : string :=
  join "/" (match url with
            | Some u => if str_truthy u then but_last (split_max 3 u) else []
            | None => []
            end).

End TabStorage.

(** [Tab.set_window_state] and the methods that call it *)
Module TabWindow.
Import Py Session.

(** Modelled from the spec: [cdp.browser.WindowState] and
    [cdp.browser.Bounds], emitted for the CDP types of these names, and
    the commands [get_window_for_target] and [set_window_bounds] with
    their decoded answers; the emitted package is not among the
    sources. *)
Inductive WindowState : Type := NORMAL | MINIMIZED | MAXIMIZED | FULLSCREEN.

Record Bounds : Type := mkBounds {
  left : option Z;
  top : option Z;
  width : option Z;
  height : option Z;
  window_state : option WindowState
}.

Inductive request : Type :=
| GetWindowForTarget (target_id : Z)
| SetWindowBounds (window_id : Z) (bounds : Bounds).

Inductive reply : Type :=
| Window (window_id : Z) (bounds : Bounds)
| Empty
| Error (message : option string).

Definition error_of (r : reply) : option (option string) :=
  match r with
  | Error message => Some message
  | _ => None
  end.

(** [x in s] for a character [x]. *)
Fixpoint char_in (x : ascii) (s : string) : bool :=
  match s with
  | EmptyString => false
  | String c s' => Ascii.eqb x c || char_in x s'
  end.

(** [all(x in state_name for x in state)] *)
Fixpoint all_in (state state_name : string) : bool :=
  match state with
  | EmptyString => true
  | String x state' => char_in x state_name && all_in state' state_name
  end.

Definition available_states : list string :=
  ["minimized"; "maximized"; "fullscreen"; "normal"].

(** The [for state_name in available_states] loop with its [break] and
    its [else]. *)
Definition find_state_name (state : string) : result string :=
  match find (all_in (lower state)) available_states with
  | Some state_name => Ok state_name
  | None => Raise (NameError state)
  end.

(** [getattr(cdp.browser.WindowState, state_name.upper(),
    cdp.browser.WindowState.NORMAL)]: the members of the emitted
    enumeration are named by the upper-cased values. *)
Definition window_state_of (state_name : string) : WindowState :=
  if String.eqb state_name "minimized" then MINIMIZED
  else if String.eqb state_name "maximized" then MAXIMIZED
  else if String.eqb state_name "fullscreen" then FULLSCREEN
  else NORMAL.

Definition is_normal (s : WindowState) : bool :=
  match s with NORMAL => true | _ => false end.

Section Tab.

Variable browser : list request -> reply.

(** The tab, [self], by its target id. *)
Variable self : Z.

#[local] Abbreviation M := (Session.M request).
#[local] Abbreviation send := (Session.send error_of browser).

(** [Tab.get_window] *)
Definition get_window : M (Z * Bounds) :=
  answer <~~ send (GetWindowForTarget self) ;;
  match answer with
  | Window window_id bounds => ret (window_id, bounds)
  | _ => raise (TypeError "cannot unpack")
  end.

(** [Tab.set_window_state].  [fuel] bounds the depth of the recursion. *)
Fixpoint set_window_state (fuel : nat) (left top width height : Z) (state : string)
  : M unit :=
  match fuel with
  | O => raise RecursionError
  | S fuel =>
      w <~~ get_window ;;
      let window_id := fst w in
      match find_state_name state with
      | Raise e => raise e
      | Ok state_name =>
          let window_state := window_state_of state_name in
          bounds <~~
            (if is_normal window_state
             then ret (mkBounds (Some left) (Some top) (Some width) (Some height)
                                (Some window_state))
             else
               _ <~~ set_window_state fuel 0 0 1280 720 "normal" ;;
               ret (mkBounds None None None None (Some window_state))) ;;
          _ <~~ send (SetWindowBounds window_id bounds) ;;
          ret tt
      end
  end.

(** [Tab.maximize], [Tab.minimize], [Tab.fullscreen], [Tab.medimize] and
    [Tab.set_window_size] *)
Definition maximize (fuel : nat) : M unit := set_window_state fuel 0 0 1280 720 "maximize".
Definition minimize (fuel : nat) : M unit := set_window_state fuel 0 0 1280 720 "minimize".
Definition fullscreen (fuel : nat) : M unit := set_window_state fuel 0 0 1280 720 "fullscreen".
Definition medimize (fuel : nat) : M unit := set_window_state fuel 0 0 1280 720 "normal".
Definition set_window_size (fuel : nat) (left top width height : Z) : M unit :=
  set_window_state fuel left top width height "normal".

End Tab.

End TabWindow.


(* ===================================================================== *)
(** * Sample inputs *)
(* ===================================================================== *)

Module Samples.
Import Py.

(** ** Schema documents *)

(** A domain with one type, one command and one event. *)
Definition network_domain_json : Json.t :=
  Json.Obj
    [("domain", Json.Str "Network");
     ("types",
       Json.Arr
         [Json.Obj
            [("id", Json.Str "Cookie");
             ("type", Json.Str "object");
             ("properties",
               Json.Arr
                 [Json.Obj [("name", Json.Str "name"); ("type", Json.Str "string")];
                  Json.Obj [("name", Json.Str "expires"); ("type", Json.Str "number")];
                  Json.Obj [("name", Json.Str "sameSite");
                            ("$ref", Json.Str "CookieSameSite");
                            ("optional", Json.Bool true)]])]]);
     ("commands",
       Json.Arr
         [Json.Obj
            [("name", Json.Str "deleteCookies");
             ("parameters",
               Json.Arr
                 [Json.Obj [("name", Json.Str "name"); ("type", Json.Str "string")];
                  Json.Obj [("name", Json.Str "url"); ("type", Json.Str "string");
                            ("optional", Json.Bool true)]])]]);
     ("events", Json.Arr [])].

Definition schema_with_version (major minor : Json.t) : Json.t :=
  Json.Obj
    [("version", Json.Obj [("major", major); ("minor", minor)]);
     ("domains", Json.Arr [network_domain_json])].

(** Version 1.3, as the protocol files have it. *)
Definition schema_1_3 : Json.t := schema_with_version (Json.Str "1") (Json.Str "3").

(** Version 1.2. *)
Definition schema_1_2 : Json.t := schema_with_version (Json.Str "1") (Json.Str "2").

(** ** Parsed domains that the patches apply to *)

Definition property (name : string) (type ref : option string) (optional : bool)
           (domain : string) : GenerateCdp.CdpProperty.t :=
  GenerateCdp.CdpProperty.mk name None type ref [] None optional false false domain.

Definition cookie_type : GenerateCdp.CdpType.t :=
  GenerateCdp.CdpType.mk "Cookie" None "object" None []
    [property "name" (Some "string") None false "Network";
     property "expires" (Some "number") None false "Network";
     property "sameSite" None (Some "CookieSameSite") true "Network"].

Definition network_domain : GenerateCdp.CdpDomain.t :=
  GenerateCdp.CdpDomain.mk "Network" None false [] [cookie_type] [] [].

Definition resolve_node_command : GenerateCdp.CdpCommand.t :=
  GenerateCdp.CdpCommand.mk "resolveNode" None false false
    [property "nodeId" None (Some "NodeId") true "DOM";
     property "backendNodeId" None (Some "DOM.BackendNodeId") true "DOM";
     property "objectGroup" (Some "string") None true "DOM"]
    [property "object" None (Some "Runtime.RemoteObject") false "DOM"]
    "DOM".

Definition dom_domain : GenerateCdp.CdpDomain.t :=
  GenerateCdp.CdpDomain.mk "DOM" None false [] [] [resolve_node_command] [].

Definition page_domain : GenerateCdp.CdpDomain.t :=
  GenerateCdp.CdpDomain.mk "Page" None false [] [] []
    [GenerateCdp.CdpEvent.mk "screencastVisibilityChanged"
       (Some "Fired when the page with currently enabled screencast was shown or hidden `.")
       false true [] "Page"].

Definition parsed_domains : list GenerateCdp.CdpDomain.t :=
  [dom_domain; network_domain; page_domain].

(** ** A running program for the emitted code

    Objects whose [to_json] gives the [dict] of their fields and whose
    [from_json] takes it back, and the builtin constructors on values
    that are of their type already. *)

Definition sample_to_json (v : Generated.value) : result Generated.value :=
  match v with
  | Generated.VObject _ fields => Ok (Generated.VDict fields)
  | _ => Raise (AttributeError "to_json")
  end.

Definition sample_from_json (cls : string) (v : Generated.value) : result Generated.value :=
  match v with
  | Generated.VDict items => Ok (Generated.VObject cls items)
  | _ => Raise (TypeError "string indices must be integers")
  end.

Definition sample_builtin (ctor : string) (v : Generated.value) : result Generated.value :=
  match v with
  | Generated.VStr _ => if String.eqb ctor "str" then Ok v else Raise (TypeError ctor)
  | Generated.VInt _ =>
      if String.eqb ctor "int" || String.eqb ctor "float" then Ok v
      else Raise (TypeError ctor)
  | Generated.VBool _ => if String.eqb ctor "bool" then Ok v else Raise (TypeError ctor)
  | Generated.VDict _ => if String.eqb ctor "dict" then Ok v else Raise (TypeError ctor)
  | _ => Raise (TypeError ctor)
  end.

(** [Network.Cookie] after the patch: [expires] is optional. *)
Definition patched_cookie_type : GenerateCdp.CdpType.t :=
  GenerateCdp.CdpType.mk "Cookie" None "object" None []
    [property "name" (Some "string") None false "Network";
     property "expires" (Some "number") None true "Network"].

(** [DOM.querySelector(nodeId, selector)]. *)
Definition query_selector_command : GenerateCdp.CdpCommand.t :=
  GenerateCdp.CdpCommand.mk "querySelector" None false false
    [property "nodeId" None (Some "NodeId") false "DOM";
     property "selector" (Some "string") None false "DOM"]
    [property "nodeId" None (Some "NodeId") false "DOM"]
    "DOM".

(** [Page.reload(ignoreCache, scriptToEvaluateOnLoad)], both optional. *)
Definition reload_command : GenerateCdp.CdpCommand.t :=
  GenerateCdp.CdpCommand.mk "reload" None false false
    [property "ignoreCache" (Some "boolean") None true "Page";
     property "scriptToEvaluateOnLoad" (Some "string") None true "Page"]
    []
    "Page".

(** A command with a parameter called [class]. *)
Definition add_class_command : GenerateCdp.CdpCommand.t :=
  GenerateCdp.CdpCommand.mk "addClass" None false false
    [property "class" (Some "string") None false "DOM"]
    []
    "DOM".

(** A property called [type] and one called [class]. *)
Definition type_property : GenerateCdp.CdpProperty.t :=
  property "type" (Some "string") None false "Runtime".

Definition class_property : GenerateCdp.CdpProperty.t :=
  property "class" (Some "string") None false "Runtime".

(** ** A page and a browser

    The document
    [<p>a</p><p>abc</p>], with node ids 1 to 5 and backend node ids 101
    to 105. *)

Definition text_a : Dom.Node :=
  Dom.mkNode 3 (Some 2%Z) 103 3 "#text" "a" [] None None.

Definition p_a : Dom.Node :=
  Dom.mkNode 2 (Some 1%Z) 102 1 "P" "" [text_a] (Some []) None.

Definition text_abc : Dom.Node :=
  Dom.mkNode 5 (Some 4%Z) 105 3 "#text" "abc" [] None None.

Definition p_abc : Dom.Node :=
  Dom.mkNode 4 (Some 1%Z) 104 1 "P" "" [text_abc] (Some []) None.

Definition page : Dom.Node :=
  Dom.mkNode 1 None 101 9 "#document" "" [p_a; p_abc] None None.

(** A browser that shows [page] and finds both text nodes for every
    search. *)
Definition search_browser (log : list Dom.request) : Dom.reply :=
  match last log Dom.Disable with
  | Dom.GetDocument _ _ => Dom.Document page
  | Dom.PerformSearch _ _ => Dom.SearchReply "1" 2
  | Dom.GetSearchResults _ _ _ => Dom.NodeIds [3%Z; 5%Z]
  | Dom.ResolveNodeById _ | Dom.ResolveNodeByBackendId _ =>
      Dom.Resolved (Dom.mkRemoteObject (Some "obj"))
  | _ => Dom.Empty
  end.

(** The elements for the two paragraphs, as the text search makes them. *)
Definition elem_p_a : ElementPy.Element := ElementPy.create p_a 1 (Some page).
Definition elem_p_abc : ElementPy.Element := ElementPy.create p_abc 1 (Some page).

(** ** A page that is rebuilt between two queries

    The element [<div>] with backend node id 202 has node id 2 in the
    first snapshot and node id 12, with a [<span>] below it, in the
    second. *)

Definition div_before : Dom.Node :=
  Dom.mkNode 2 (Some 1%Z) 202 1 "DIV" "" [] (Some []) None.

Definition page_before : Dom.Node :=
  Dom.mkNode 1 None 201 9 "#document" "" [div_before] None None.

Definition span_after : Dom.Node :=
  Dom.mkNode 13 (Some 12%Z) 213 1 "SPAN" "" [] (Some []) None.

Definition div_after : Dom.Node :=
  Dom.mkNode 12 (Some 11%Z) 202 1 "DIV" "" [span_after] (Some []) None.

Definition page_after : Dom.Node :=
  Dom.mkNode 11 None 211 9 "#document" "" [div_after] None None.

(** The handle the user holds, made while [page_before] was current. *)
Definition div_handle : TabPy.handle :=
  TabPy.mkHandle (TabPy.AHandle (ElementPy.create div_before 1 (Some page_before))) false.

Definition stale : Dom.reply := Dom.Error (Some "Could not find node with given id").

(** What the browser answers to the n-th request.  The node id of the
    handle is stale at first; when the document is fetched again and the
    node resolved, a fourth request, a query on the fresh node id 12,
    finds the span.  Every other query is stale. *)
Definition rebuilding_browser (log : list Dom.request) : Dom.reply :=
  match last log Dom.Disable with
  | Dom.GetDocument _ _ => Dom.Document page_after
  | Dom.ResolveNodeById _ | Dom.ResolveNodeByBackendId _ =>
      Dom.Resolved (Dom.mkRemoteObject (Some "obj"))
  | Dom.QuerySelectorAll _ _ =>
      if (length log =? 4)%nat then Dom.NodeIds [13%Z] else stale
  | Dom.QuerySelector _ _ =>
      if (length log =? 4)%nat then Dom.NodeIdReply 13 else stale
  | _ => Dom.Empty
  end.

(** The element of the handle once it is revalidated. *)
Definition div_handle_after : ElementPy.Element :=
  ElementPy.mkElement 1 div_after (Some page_after)
    (Some (Dom.mkRemoteObject (Some "obj"))) [].

(** A browser that shows [page] and answers every [querySelectorAll]
    with the node ids 2, 9 and 4, of which 9 is not in the page. *)
Definition selecting_browser (log : list Dom.request) : Dom.reply :=
  match last log Dom.Disable with
  | Dom.GetDocument _ _ => Dom.Document page
  | Dom.QuerySelectorAll _ _ => Dom.NodeIds [2%Z; 9%Z; 4%Z]
  | _ => Dom.Empty
  end.

(** The document [<p>ab</p><p>eee</p><p>abcd</p>], the three letters of the
    second paragraph with an acute accent: two bytes each. *)
Definition e_acute : string :=
  String (ascii_of_nat 195) (String (ascii_of_nat 169) EmptyString).

Definition text_ab : Dom.Node :=
  Dom.mkNode 3 (Some 2%Z) 303 3 "#text" "ab" [] None None.

Definition p_ab : Dom.Node :=
  Dom.mkNode 2 (Some 1%Z) 302 1 "P" "" [text_ab] (Some []) None.

Definition text_eee : Dom.Node :=
  Dom.mkNode 5 (Some 4%Z) 305 3 "#text" (e_acute ++ e_acute ++ e_acute) [] None None.

Definition p_eee : Dom.Node :=
  Dom.mkNode 4 (Some 1%Z) 304 1 "P" "" [text_eee] (Some []) None.

Definition text_abcd : Dom.Node :=
  Dom.mkNode 7 (Some 6%Z) 307 3 "#text" "abcd" [] None None.

Definition p_abcd : Dom.Node :=
  Dom.mkNode 6 (Some 1%Z) 306 1 "P" "" [text_abcd] (Some []) None.

Definition accent_page : Dom.Node :=
  Dom.mkNode 1 None 301 9 "#document" "" [p_ab; p_eee; p_abcd] None None.

(** A browser that shows [accent_page] and finds its three text nodes
    for every search. *)
Definition accent_browser (log : list Dom.request) : Dom.reply :=
  match last log Dom.Disable with
  | Dom.GetDocument _ _ => Dom.Document accent_page
  | Dom.PerformSearch _ _ => Dom.SearchReply "1" 3
  | Dom.GetSearchResults _ _ _ => Dom.NodeIds [3%Z; 5%Z; 7%Z]
  | Dom.ResolveNodeById _ | Dom.ResolveNodeByBackendId _ =>
      Dom.Resolved (Dom.mkRemoteObject (Some "obj"))
  | _ => Dom.Empty
  end.


(** A browser in whose page every expression evaluates to the empty
    string. *)
Definition blank_browser (log : list TabRuntime.request) : TabRuntime.reply :=
  match last log (TabRuntime.Evaluate "" false false) with
  | TabRuntime.Evaluate _ _ _ =>
      TabRuntime.Evaluated (TabRuntime.mkRemoteObject (Json.Str "")) None
  | _ => TabRuntime.Empty
  end.

(** A browser with one window, number 7, at (10, 20) and of size
    800 x 600. *)
Definition window_browser (log : list TabWindow.request) : TabWindow.reply :=
  match last log (TabWindow.GetWindowForTarget 0) with
  | TabWindow.GetWindowForTarget _ =>
      TabWindow.Window 7 (TabWindow.mkBounds (Some 10%Z) (Some 20%Z) (Some 800%Z)
                                             (Some 600%Z) (Some TabWindow.NORMAL))
  | _ => TabWindow.Empty
  end.

(** ** Notions used in the statements *)

(** Two types with the same id and the same properties up to the
    [optional] flags. *)
Definition same_type_up_to_optional (ty ty' : GenerateCdp.CdpType.t) : Prop :=
  GenerateCdp.CdpType.id ty = GenerateCdp.CdpType.id ty'
  /\ map (GenerateCdp.CdpProperty.set_optional false) (GenerateCdp.CdpType.properties ty)
     = map (GenerateCdp.CdpProperty.set_optional false) (GenerateCdp.CdpType.properties ty').

(** A command and what the first patch makes of it: the command itself,
    or, for a command called [resolveNode], the command with its second
    parameter referring to [BackendNodeId]. *)
Definition same_command_or_patched (c c' : GenerateCdp.CdpCommand.t) : Prop :=
  c' = c
  \/ (GenerateCdp.CdpCommand.name c = "resolveNode"
      /\ exists p0 p1 ps,
          GenerateCdp.CdpCommand.parameters c = p0 :: p1 :: ps
          /\ c' = GenerateCdp.CdpCommand.set_parameters
                    (p0 :: GenerateCdp.CdpProperty.set_ref "BackendNodeId" p1 :: ps) c).

(** A computation of the facade that does not run out of recursion
    depth, whatever has been sent before. *)
Definition within_recursion_limit {A} (m : Dom.M A) : Prop :=
  forall log, fst (m log) <> Raise RecursionError.

(** A string without the character [c]. *)
Definition free_of (c : ascii) (s : string) : Prop :=
  ~ In c (list_ascii_of_string s).

(** A string without capital letters. *)
Definition no_capitals (s : string) : Prop :=
  forall c, In c (list_ascii_of_string s) -> Py.is_upper c = false.

(** The classes whose [from_json] an expression calls. *)
Fixpoint classes_of (e : GenerateCdp.expr) : list string :=
  match e with
  | GenerateCdp.Name _ | GenerateCdp.Attr _ _ | GenerateCdp.Subscript _ _ => []
  | GenerateCdp.ToJson e | GenerateCdp.Call _ e | GenerateCdp.IfKeyNotNone e _ _ =>
      classes_of e
  | GenerateCdp.FromJson cls e => cls :: classes_of e
  | GenerateCdp.ListComp body iter => classes_of body ++ classes_of iter
  end.

(** A property for which the module of a domain holds a decoder: a
    return value of one of its commands, a parameter of one of its
    events, or a property of one of its class types. *)
Definition decoded_in (p : GenerateCdp.CdpProperty.t) (d : GenerateCdp.CdpDomain.t) : Prop :=
  (exists c, In c (GenerateCdp.CdpDomain.commands d)
             /\ In p (GenerateCdp.CdpCommand.returns c))
  \/ (exists ev, In ev (GenerateCdp.CdpDomain.events d)
                 /\ In p (GenerateCdp.CdpEvent.parameters ev))
  \/ (exists ty, In ty (GenerateCdp.CdpDomain.types d)
                 /\ GenerateCdp.CdpType.enum ty = []
                 /\ In p (GenerateCdp.CdpType.properties ty)).

(** The attributes array of a node: names and values in turn. *)
Definition flat_pairs (pairs : list (string * string)) : list string :=
  flat_map (fun kv => [fst kv; snd kv]) pairs.

(** The key under which the attribute map holds an attribute. *)
Definition attr_key (name : string) : string :=
  if String.eqb name "class" then "class_" else name.

(** One name and its value put into an attribute map: the value is stored
    under the key of the name, but for the empty name. *)
Definition store (m : Dom.attrs_map) (kv : string * string) : Dom.attrs_map :=
  if str_truthy (attr_key (fst kv))
  then Dom.attrs_set (attr_key (fst kv)) (snd kv) m
  else m.

(** Induction on a node tree: a property that holds for a node when it
    holds for its children holds for every node. *)
Fixpoint node_children_ind (P : Dom.Node -> Prop)
         (step : forall nid pid bid ty name val children attrs cd,
             Forall P children -> P (Dom.mkNode nid pid bid ty name val children attrs cd))
         (n : Dom.Node) : P n :=
  match n with
  | Dom.mkNode nid pid bid ty name val children attrs cd =>
      step nid pid bid ty name val children attrs cd
           ((fix all (l : list Dom.Node) : Forall P l :=
               match l with
               | [] => Forall_nil P
               | child :: rest =>
                   Forall_cons child (node_children_ind step child) (all rest)
               end) children)
  end.

(** A tree search that returns nothing but nodes that satisfy the
    predicate. *)
Definition sound_search (filter_recurse : Dom.Node -> (Dom.Node -> bool) -> option Dom.Node)
  : Prop :=
  forall doc predicate n, filter_recurse doc predicate = Some n -> predicate n = true.


(** A computation of the facade that sends nothing but requests of one
    kind, and keeps what was sent before. *)
Definition sends_only {A} (allowed : Dom.request -> Prop) (m : Dom.M A) : Prop :=
  forall log, exists extra, snd (m log) = log ++ extra /\ Forall allowed extra.

End Samples.
(* ===================================================================== *)
(** * Properties *)
(* ===================================================================== *)

Unset Implicit Arguments.

(** ** Name mapping *)

Example snake_case_samples :
  map GenerateCdp.snake_case
      ["nodeId"; "backendNodeId"; "DOM"; "DOMDebugger"; "type"; "class";
       "objectId"; "IO"; "getHTMLDocument"; "x-y"]
  = ["node_id"; "backend_node_id"; "dom"; "dom_debugger"; "type_"; "class";
     "object_id"; "io"; "get_html_document"; "x_y"].
Proof. reflexivity. Qed.

Example strip_samples :
  map Py.strip ["  ab  "; "ab"; " a b "; "   "; ""] = ["ab"; "ab"; "a b"; ""; ""].
Proof. reflexivity. Qed.

(** ** Element attributes and equality *)

Section ElementFacts.
Import Py Dom ElementPy.

(** A sample node: [<input hidden="" class="big" id="q">]. *)
Definition input_node : Node :=
  mkNode 12 (Some 11%Z) 40 1 "INPUT" "" [] (Some ["hidden"; ""; "class"; "big"; "id"; "q"]) None.


Example make_attrs_sample :
  attrs (create input_node 1 None) = [("hidden", ""); ("class_", "big"); ("id", "q")].
Proof. reflexivity. Qed.

Example get_samples :
  map (get (create input_node 1 None)) ["hidden"; "id"; "class_"; "class"; "href"; "items"]
  = [None; Some (Value "q"); Some (Value "big"); None; None; Some (OfTheMap "items")].
Proof. reflexivity. Qed.





(** Two handles on backend node 40, one in tab 1 and one in tab 2. *)
Definition handle_in_tab_1 : Element := create input_node 1 None.
Definition handle_in_tab_2 : Element := create input_node 2 None.

(** C6, as the code has it.  Two element handles are equal exactly when
    both backend node ids are defined, which the code tests by their
    truth value (an id other than 0), and the ids are equal.  The tab is
    not compared: handles with the same backend node id are equal
    whatever their sessions. *)
Theorem C6_eq_iff_same_backend_node_id (a b : Element) :
  __eq__ a (AnElement b) = true
  <-> (backend_node_id a <> 0%Z /\ backend_node_id b <> 0%Z
       /\ backend_node_id a = backend_node_id b).
Proof.
  unfold __eq__.
  destruct (Z.eqb_spec (backend_node_id b) 0) as [Hb|Hb];
    destruct (Z.eqb_spec (backend_node_id a) 0) as [Ha|Ha]; simpl.
  - split; [discriminate | intros (H & _); contradiction].
  - split; [discriminate | intros (_ & H & _); contradiction].
  - split; [discriminate | intros (H & _); contradiction].
  - rewrite Z.eqb_eq. split.
    + intros H. repeat split; auto.
    + intros (_ & _ & H). auto.
Qed.

(** C6 on two handles of backend node 40 in the tabs 1 and 2. *)
Lemma C6_eq_witness :
  __eq__ handle_in_tab_1 (AnElement handle_in_tab_2) = true.
Proof.
  apply (proj2 (C6_eq_iff_same_backend_node_id handle_in_tab_1 handle_in_tab_2)).
  repeat split; discriminate.
Defined.

(** C6 as stated fails: equality does not require the same session.  The
    handles [handle_in_tab_1] and [handle_in_tab_2] have the same backend
    node id, belong to different tabs, and are equal. *)
Lemma C6_counterexample_sessions_not_compared :
  ~ (forall a b : Element,
        __eq__ a (AnElement b) = true
        <-> (backend_node_id a <> 0%Z /\ backend_node_id b <> 0%Z
             /\ backend_node_id a = backend_node_id b
             /\ _tab a = _tab b)).
Proof.
  intros H.
  assert (E : __eq__ handle_in_tab_1 (AnElement handle_in_tab_2) = true) by reflexivity.
  apply H in E. destruct E as (_ & _ & _ & E). discriminate E.
Qed.

End ElementFacts.

(** ** The version gate of [parse] *)

Section VersionGate.
Import Py GenerateCdp.

(** The loader of the domains raises many things, never an
    [AssertionError]. *)
Lemma bind_never_asserts {A B} (m : result A) (k : A -> result B) :
  m <> Raise AssertionError ->
  (forall a, k a <> Raise AssertionError) ->
  bind m k <> Raise AssertionError.
Proof.
  intros Hm Hk. destruct m; simpl; [apply Hk|].
  intros H. apply Hm. injection H as ->. reflexivity.
Qed.

Lemma mapM_never_asserts {A B} (f : A -> result B) (l : list A) :
  (forall a, f a <> Raise AssertionError) ->
  mapM f l <> Raise AssertionError.
Proof.
  intros Hf. induction l as [|x l IH]; simpl.
  - discriminate.
  - apply bind_never_asserts; [apply Hf|]. intros y.
    apply bind_never_asserts; [apply IH|]. discriminate.
Qed.

Lemma get_never_asserts d k : Json.get d k <> Raise AssertionError.
Proof. destruct d; discriminate. Qed.

Lemma item_never_asserts d k : Json.item d k <> Raise AssertionError.
Proof.
  destruct d; try discriminate. simpl.
  destruct (Json.lookup k fields); discriminate.
Qed.

Lemma has_never_asserts d k : Json.has d k <> Raise AssertionError.
Proof. destruct d; discriminate. Qed.

Lemma as_str_never_asserts f v : Json.as_str f v <> Raise AssertionError.
Proof. destruct v; discriminate. Qed.

Lemma item_str_never_asserts d k : Json.item_str d k <> Raise AssertionError.
Proof.
  apply bind_never_asserts; [apply item_never_asserts|].
  intros; apply as_str_never_asserts.
Qed.

Lemma get_opt_str_never_asserts d k : Json.get_opt_str d k <> Raise AssertionError.
Proof.
  apply bind_never_asserts; [apply get_never_asserts|].
  intros [[]|]; discriminate.
Qed.

Lemma get_bool_never_asserts d k : Json.get_bool d k <> Raise AssertionError.
Proof.
  apply bind_never_asserts; [apply get_never_asserts|].
  intros [[]|]; discriminate.
Qed.

Lemma get_str_list_never_asserts d k : Json.get_str_list d k <> Raise AssertionError.
Proof.
  apply bind_never_asserts; [apply get_never_asserts|].
  intros [[]|]; try discriminate.
  apply mapM_never_asserts. intros; apply as_str_never_asserts.
Qed.

Lemma get_list_never_asserts d k : Json.get_list d k <> Raise AssertionError.
Proof.
  apply bind_never_asserts; [apply get_never_asserts|].
  intros [[]|]; discriminate.
Qed.

Create HintDb never_asserts.
#[local] Hint Resolve get_never_asserts item_never_asserts has_never_asserts
  as_str_never_asserts item_str_never_asserts get_opt_str_never_asserts
  get_bool_never_asserts get_str_list_never_asserts get_list_never_asserts
  : never_asserts.

Ltac never_asserts :=
  repeat match goal with
    | |- bind _ _ <> _ => apply bind_never_asserts; [ | intros ]
    | |- mapM _ _ <> _ => apply mapM_never_asserts; intros
    | |- (if ?c then _ else _) <> _ => destruct c
    | |- _ => solve [ auto with never_asserts | discriminate ]
    end.

Lemma items_never_asserts v : CdpItems.from_json v <> Raise AssertionError.
Proof. unfold CdpItems.from_json. never_asserts. Qed.

Lemma items_from_json_never_asserts d : items_from_json d <> Raise AssertionError.
Proof.
  pose proof items_never_asserts.
  unfold items_from_json. never_asserts.
Qed.

Lemma property_never_asserts p domain :
  CdpProperty.from_json p domain <> Raise AssertionError.
Proof.
  pose proof items_from_json_never_asserts.
  unfold CdpProperty.from_json. never_asserts.
Qed.

Lemma type_never_asserts ty domain :
  CdpType.from_json ty domain <> Raise AssertionError.
Proof.
  pose proof items_from_json_never_asserts. pose proof property_never_asserts.
  unfold CdpType.from_json. never_asserts.
Qed.

Lemma command_never_asserts c domain :
  CdpCommand.from_json c domain <> Raise AssertionError.
Proof.
  pose proof property_never_asserts.
  unfold CdpCommand.from_json. never_asserts.
Qed.

Lemma event_never_asserts e domain :
  CdpEvent.from_json e domain <> Raise AssertionError.
Proof.
  pose proof property_never_asserts.
  unfold CdpEvent.from_json. never_asserts.
Qed.

Lemma domain_never_asserts d : CdpDomain.from_json d <> Raise AssertionError.
Proof.
  pose proof type_never_asserts. pose proof command_never_asserts.
  pose proof event_never_asserts.
  unfold CdpDomain.from_json. never_asserts.
Qed.

Lemma eq_str_true v s : Json.eq_str v s = true <-> v = Json.Str s.
Proof.
  destruct v; simpl; split; try discriminate.
  - intros H. apply String.eqb_eq in H. now subst.
  - intros H. injection H as ->. apply String.eqb_refl.
Qed.

(** A schema that [parse] refuses stops [main] before anything is
    written. *)
Lemma main_writes_nothing_when_parse_raises generate_code format before schema after e :
  parse schema = Raise e ->
  exists e', main generate_code format (before ++ schema :: after) = ([], Raise e').
Proof.
  intros Hp. unfold main.
  assert (H : exists e', parse_all (before ++ schema :: after) = Raise e').
  { induction before as [|s before IH]; simpl.
    - rewrite Hp. simpl. eauto.
    - destruct (parse s) as [r|e0]; simpl; [|eauto].
      destruct IH as [e' ->]. simpl. eauto. }
  destruct H as [e' ->]. eauto.
Qed.

(** C3. For a schema document with a version, [parse] gets past its
    assertion exactly when the version is major ["1"], minor ["3"], and
    then goes on to build the domain objects; for any other version it
    raises the assertion error instead of returning domain objects, and
    [main] ends with no file written. *)
Theorem C3_version_gate (schema version major minor : Json.t) :
  Json.item schema "version" = Ok version ->
  Json.item version "major" = Ok major ->
  Json.item version "minor" = Ok minor ->
  (parse schema <> Raise AssertionError
   <-> (major = Json.Str "1" /\ minor = Json.Str "3"))
  /\ (major = Json.Str "1" /\ minor = Json.Str "3" ->
      forall l, Json.item schema "domains" = Ok (Json.Arr l) ->
                parse schema
                = (domains <- mapM CdpDomain.from_json l ;; Ok ("1.3", domains)))
  /\ (~ (major = Json.Str "1" /\ minor = Json.Str "3") ->
      parse schema = Raise AssertionError
      /\ forall generate_code format before after,
          exists e, main generate_code format (before ++ schema :: after) = ([], Raise e)).
Proof.
  intros Hv Hmaj Hmin.
  assert (Hgate : Json.eq_str major "1" && Json.eq_str minor "3" = true
                  <-> (major = Json.Str "1" /\ minor = Json.Str "3")).
  { rewrite andb_true_iff, !eq_str_true. tauto. }
  assert (Hbad : ~ (major = Json.Str "1" /\ minor = Json.Str "3") ->
                 parse schema = Raise AssertionError).
  { intros Hn. unfold parse. rewrite Hv. simpl. rewrite Hmaj. simpl. rewrite Hmin. simpl.
    destruct (Json.eq_str major "1" && Json.eq_str minor "3") eqn:E; [|reflexivity].
    exfalso. apply Hn, Hgate. reflexivity. }
  assert (Hgood : major = Json.Str "1" /\ minor = Json.Str "3" ->
                  parse schema
                  = (ds <- Json.item schema "domains" ;;
                     match ds with
                     | Json.Arr l =>
                         domains <- mapM CdpDomain.from_json l ;; Ok ("1.3", domains)
                     | _ => Raise (SchemaTypeError "domains")
                     end)).
  { intros Hy. unfold parse. rewrite Hv. simpl. rewrite Hmaj. simpl. rewrite Hmin. simpl.
    apply Hgate in Hy. rewrite Hy. reflexivity. }
  split; [split|split].
  - intros Hna.
    destruct (Json.eq_str major "1" && Json.eq_str minor "3") eqn:E.
    + apply Hgate. reflexivity.
    + exfalso. apply Hna, Hbad. intros Hy. apply Hgate in Hy. congruence.
  - intros Hy. rewrite (Hgood Hy).
    apply bind_never_asserts; [apply item_never_asserts|].
    intros [| | | |l|]; try discriminate.
    apply bind_never_asserts; [|discriminate].
    apply mapM_never_asserts. apply domain_never_asserts.
  - intros Hy l Hl. rewrite (Hgood Hy), Hl. reflexivity.
  - intros Hn. split; [apply Hbad, Hn|].
    intros. eapply main_writes_nothing_when_parse_raises. apply Hbad, Hn.
Qed.

(** C3 on a schema of version 1.3 and on one of version 1.2. *)
Lemma C3_version_gate_witness :
  parse Samples.schema_1_3 <> Raise AssertionError
  /\ parse Samples.schema_1_2 = Raise AssertionError.
Proof.
  split.
  - apply (proj2 (proj1 (C3_version_gate Samples.schema_1_3
                           (Json.Obj [("major", Json.Str "1"); ("minor", Json.Str "3")])
                           (Json.Str "1") (Json.Str "3")
                           eq_refl eq_refl eq_refl))).
    split; reflexivity.
  - refine (proj1 (proj2 (proj2 (C3_version_gate Samples.schema_1_2
                                   (Json.Obj [("major", Json.Str "1"); ("minor", Json.Str "2")])
                                   (Json.Str "1") (Json.Str "2")
                                   eq_refl eq_refl eq_refl)) _)).
    intros [_ H]. discriminate H.
Defined.

Example parse_schema_1_3 :
  exists domains, parse Samples.schema_1_3 = Ok ("1.3", domains) /\ length domains = 1%nat.
Proof. eexists. split; reflexivity. Qed.

End VersionGate.

(** ** The patches of [fix_protocol_spec] *)

Section Patches.
Import Py GenerateCdp.

Lemma mapM_Forall2 {A B} (f : A -> result B) (l : list A) (l' : list B) :
  mapM f l = Ok l' -> Forall2 (fun a b => f a = Ok b) l l'.
Proof.
  revert l'. induction l as [|x l IH]; simpl; intros l' H.
  - injection H as <-. constructor.
  - destruct (f x) as [y|] eqn:Hx; simpl in H; [|discriminate].
    destruct (mapM f l) as [ys|] eqn:Hl; simpl in H; [|discriminate].
    injection H as <-. constructor; auto.
Qed.

Lemma mapM_fixed {A} (f : A -> result A) (l : list A) :
  Forall (fun a => f a = Ok a) l -> mapM f l = Ok l.
Proof.
  induction 1 as [|x l Hx _ IH]; simpl; [reflexivity|].
  rewrite Hx. simpl. rewrite IH. reflexivity.
Qed.

Lemma remove_char_idempotent c s : remove_char c (remove_char c s) = remove_char c s.
Proof.
  induction s as [|d s IH]; simpl; [reflexivity|].
  destruct (Ascii.eqb c d) eqn:E; [exact IH|].
  simpl. rewrite E, IH. reflexivity.
Qed.

Lemma patch_resolve_node_idempotent cmds cmds' :
  patch_resolve_node cmds = Ok cmds' -> patch_resolve_node cmds' = Ok cmds'.
Proof.
  revert cmds'. induction cmds as [|cmd rest IH]; simpl; intros cmds' H.
  - injection H as <-. reflexivity.
  - destruct (String.eqb (CdpCommand.name cmd) "resolveNode") eqn:E.
    + destruct (CdpCommand.parameters cmd) as [|p0 [|p1 ps]]; try discriminate.
      injection H as <-. simpl. rewrite E. reflexivity.
    + destruct (patch_resolve_node rest) as [rest'|]; simpl in H; [|discriminate].
      injection H as <-. simpl. rewrite E, (IH rest' eq_refl). reflexivity.
Qed.

Lemma or_empty s : (if str_truthy s then s else "") = s.
Proof. destruct s; reflexivity. Qed.

Lemma patch_screencast_idempotent events :
  patch_screencast (patch_screencast events) = patch_screencast events.
Proof.
  induction events as [|event rest IH]; simpl; [reflexivity|].
  destruct (String.eqb (CdpEvent.name event) "screencastVisibilityChanged") eqn:E;
    simpl; rewrite E.
  - unfold CdpEvent.set_description. simpl.
    rewrite or_empty, remove_char_idempotent. reflexivity.
  - rewrite IH. reflexivity.
Qed.

Lemma patch_expires_idempotent props :
  patch_expires (patch_expires props) = patch_expires props.
Proof.
  induction props as [|prop rest IH]; simpl; [reflexivity|].
  destruct (String.eqb (CdpProperty.name prop) "expires") eqn:E; simpl; rewrite E.
  - reflexivity.
  - rewrite IH. reflexivity.
Qed.

Lemma patch_cookie_idempotent types : patch_cookie (patch_cookie types) = patch_cookie types.
Proof.
  unfold patch_cookie. rewrite map_map. apply map_ext. intros ty.
  destruct (String.eqb (CdpType.id ty) "Cookie") eqn:E; simpl; rewrite E; [|reflexivity].
  unfold CdpType.set_properties. simpl. rewrite patch_expires_idempotent. reflexivity.
Qed.

Lemma fix_domain_idempotent d d' : fix_domain d = Ok d' -> fix_domain d' = Ok d'.
Proof.
  unfold fix_domain. intros H.
  destruct (String.eqb (CdpDomain.domain d) "DOM") eqn:E1.
  - destruct (patch_resolve_node (CdpDomain.commands d)) as [cmds|] eqn:Hc;
      simpl in H; [|discriminate].
    injection H as <-. simpl. rewrite E1.
    rewrite (patch_resolve_node_idempotent _ _ Hc). reflexivity.
  - destruct (String.eqb (CdpDomain.domain d) "Page") eqn:E2.
    + injection H as <-. simpl. rewrite E1, E2.
      rewrite patch_screencast_idempotent. reflexivity.
    + destruct (String.eqb (CdpDomain.domain d) "Network") eqn:E3.
      * injection H as <-. simpl. rewrite E1, E2, E3.
        rewrite patch_cookie_idempotent. reflexivity.
      * injection H as <-. rewrite E1, E2, E3. reflexivity.
Qed.

Lemma fix_protocol_spec_fixed domains patched :
  fix_protocol_spec domains = Ok patched -> fix_protocol_spec patched = Ok patched.
Proof.
  unfold fix_protocol_spec. intros H. apply mapM_Forall2 in H.
  apply mapM_fixed. induction H; constructor; auto.
  eapply fix_domain_idempotent; eauto.
Qed.

(** [expires] is optional after the patch, and nothing else about the
    properties has changed. *)
Lemma patch_expires_optional props p :
  find (fun q => String.eqb (CdpProperty.name q) "expires") (patch_expires props) = Some p ->
  CdpProperty.optional p = true.
Proof.
  induction props as [|prop rest IH]; simpl; [discriminate|].
  destruct (String.eqb (CdpProperty.name prop) "expires") eqn:E; simpl; rewrite E.
  - intros H. injection H as <-. reflexivity.
  - exact IH.
Qed.

Lemma patch_expires_same_properties props :
  map (CdpProperty.set_optional false) (patch_expires props)
  = map (CdpProperty.set_optional false) props.
Proof.
  induction props as [|prop rest IH]; simpl; [reflexivity|].
  destruct (String.eqb (CdpProperty.name prop) "expires"); simpl.
  - reflexivity.
  - rewrite IH. reflexivity.
Qed.

Lemma patch_resolve_node_ref cmds cmds' cmd :
  patch_resolve_node cmds = Ok cmds' ->
  find (fun c => String.eqb (CdpCommand.name c) "resolveNode") cmds' = Some cmd ->
  exists p0 p1 ps,
    CdpCommand.parameters cmd = p0 :: p1 :: ps
    /\ CdpProperty.ref p1 = Some "BackendNodeId".
Proof.
  revert cmds'. induction cmds as [|c rest IH]; simpl; intros cmds' H Hf.
  - injection H as <-. discriminate.
  - destruct (String.eqb (CdpCommand.name c) "resolveNode") eqn:E.
    + destruct (CdpCommand.parameters c) as [|p0 [|p1 ps]] eqn:Hp; try discriminate.
      injection H as <-. simpl in Hf. rewrite E in Hf. injection Hf as <-.
      simpl. eauto.
    + destruct (patch_resolve_node rest) as [rest'|]; simpl in H; [|discriminate].
      injection H as <-. simpl in Hf. rewrite E in Hf. eapply IH; eauto.
Qed.

(** The first patch changes the first command called [resolveNode] and
    nothing else. *)
Lemma patch_resolve_node_spec cmds cmds' :
  patch_resolve_node cmds = Ok cmds' ->
  Forall2 Samples.same_command_or_patched cmds cmds'
  /\ forall cmd,
      find (fun c => String.eqb (CdpCommand.name c) "resolveNode") cmds = Some cmd ->
      exists p0 p1 ps,
        CdpCommand.parameters cmd = p0 :: p1 :: ps
        /\ find (fun c => String.eqb (CdpCommand.name c) "resolveNode") cmds'
           = Some (CdpCommand.set_parameters
                     (p0 :: CdpProperty.set_ref "BackendNodeId" p1 :: ps) cmd).
Proof.
  assert (Hsame : forall l, Forall2 Samples.same_command_or_patched l l).
  { induction l; constructor; auto. now left. }
  revert cmds'. induction cmds as [|c rest IH]; cbn [patch_resolve_node find]; intros cmds' H.
  - injection H as <-. split; [constructor | discriminate].
  - destruct (String.eqb (CdpCommand.name c) "resolveNode") eqn:E.
    + destruct (CdpCommand.parameters c) as [|p0 [|p1 ps]] eqn:Hp; try discriminate.
      injection H as <-. split.
      * constructor; [|apply Hsame]. right. split; [now apply String.eqb_eq|].
        exists p0, p1, ps. split; [exact Hp | reflexivity].
      * intros cmd Hc. injection Hc as <-. exists p0, p1, ps. split; [exact Hp|].
        cbn [find CdpCommand.set_parameters CdpCommand.name]. rewrite E. reflexivity.
    + destruct (patch_resolve_node rest) as [rest'|]; cbn [bind] in H; [|discriminate].
      injection H as <-. destruct (IH rest' eq_refl) as [IH1 IH2]. split.
      * constructor; [now left | exact IH1].
      * intros cmd Hc. cbn [find]. rewrite E. apply IH2. exact Hc.
Qed.

(** C7. Applying the patches twice gives what applying them once gives
    (when the first application raises, the second is not reached).
    After an application that returns, every [expires] property of a
    [Network] type [Cookie] is optional, and every type has the
    properties it had, in the same order and up to the [optional] flags
    only.  The domains are those given, each with the commands it had
    but for a command [resolveNode] with its second parameter changed;
    and where a domain [DOM] had a first command [resolveNode], the
    patched domain has it with the parameters it had, the second one
    referring to [BackendNodeId]. *)
Theorem C7_fix_protocol_spec_idempotent (domains : list CdpDomain.t) :
  (patched <- fix_protocol_spec domains ;; fix_protocol_spec patched)
  = fix_protocol_spec domains
  /\ forall patched,
      fix_protocol_spec domains = Ok patched ->
      fix_protocol_spec patched = Ok patched
      /\ (forall d ty p,
             In d patched -> CdpDomain.domain d = "Network" ->
             In ty (CdpDomain.types d) -> CdpType.id ty = "Cookie" ->
             find (fun q => String.eqb (CdpProperty.name q) "expires")
                  (CdpType.properties ty) = Some p ->
             CdpProperty.optional p = true)
      /\ Forall2 (fun d d' => Forall2 Samples.same_type_up_to_optional
                                      (CdpDomain.types d) (CdpDomain.types d'))
                 domains patched
      /\ (forall d cmd,
             In d patched -> CdpDomain.domain d = "DOM" ->
             find (fun c => String.eqb (CdpCommand.name c) "resolveNode")
                  (CdpDomain.commands d) = Some cmd ->
             exists p0 p1 ps,
               CdpCommand.parameters cmd = p0 :: p1 :: ps
               /\ CdpProperty.ref p1 = Some "BackendNodeId")
      /\ Forall2
           (fun d d' =>
              CdpDomain.domain d' = CdpDomain.domain d
              /\ Forall2 Samples.same_command_or_patched
                         (CdpDomain.commands d) (CdpDomain.commands d')
              /\ (CdpDomain.domain d = "DOM" ->
                  forall cmd,
                    find (fun c => String.eqb (CdpCommand.name c) "resolveNode")
                         (CdpDomain.commands d) = Some cmd ->
                    exists p0 p1 ps,
                      CdpCommand.parameters cmd = p0 :: p1 :: ps
                      /\ find (fun c => String.eqb (CdpCommand.name c) "resolveNode")
                               (CdpDomain.commands d')
                         = Some (CdpCommand.set_parameters
                                   (p0 :: CdpProperty.set_ref "BackendNodeId" p1 :: ps)
                                   cmd)))
           domains patched.
Proof.
  split.
  - destruct (fix_protocol_spec domains) as [patched|e] eqn:H; simpl; [|reflexivity].
    apply fix_protocol_spec_fixed in H. exact H.
  - intros patched H. split; [eapply fix_protocol_spec_fixed; eauto|].
    unfold fix_protocol_spec in H. apply mapM_Forall2 in H.
    split; [|split; [|split]].
    + intros d ty p Hd Hn Hty Hid Hfind.
      assert (Hex : exists d0, fix_domain d0 = Ok d).
      { clear - H Hd. induction H as [|d0 d1 l l' Hf _ IH]; [contradiction|].
        destruct Hd as [->|Hd]; eauto. }
      destruct Hex as [d0 Hd0]. unfold fix_domain in Hd0.
      destruct (String.eqb (CdpDomain.domain d0) "DOM") eqn:E1.
      { destruct (patch_resolve_node (CdpDomain.commands d0)); simpl in Hd0; [|discriminate].
        injection Hd0 as <-. simpl in Hn. rewrite Hn in E1. discriminate. }
      destruct (String.eqb (CdpDomain.domain d0) "Page") eqn:E2.
      { injection Hd0 as <-. simpl in Hn. rewrite Hn in E2. discriminate. }
      destruct (String.eqb (CdpDomain.domain d0) "Network") eqn:E3.
      * injection Hd0 as <-. simpl in Hty. unfold patch_cookie in Hty.
        apply in_map_iff in Hty. destruct Hty as [ty0 [Hty0 _]].
        destruct (String.eqb (CdpType.id ty0) "Cookie") eqn:E.
        -- subst ty. simpl in Hfind. eapply patch_expires_optional; eauto.
        -- subst ty. rewrite Hid in E. discriminate.
      * injection Hd0 as <-. rewrite Hn in E3. discriminate.
    + clear - H. induction H as [|d0 d l l' Hf _ IH]; constructor; auto.
      assert (Hsame : forall tys, Forall2 Samples.same_type_up_to_optional tys tys).
      { induction tys; constructor; auto. split; reflexivity. }
      unfold fix_domain in Hf.
      destruct (String.eqb (CdpDomain.domain d0) "DOM").
      { destruct (patch_resolve_node (CdpDomain.commands d0)); simpl in Hf; [|discriminate].
        injection Hf as <-. apply Hsame. }
      destruct (String.eqb (CdpDomain.domain d0) "Page").
      { injection Hf as <-. apply Hsame. }
      destruct (String.eqb (CdpDomain.domain d0) "Network"); injection Hf as <-;
        [|apply Hsame].
      simpl. unfold patch_cookie.
      induction (CdpDomain.types d0) as [|ty tys IHt]; simpl; constructor; auto.
      destruct (String.eqb (CdpType.id ty) "Cookie"); split; simpl; auto.
      symmetry. apply patch_expires_same_properties.
    + intros d cmd Hd Hn Hfind.
      assert (Hex : exists d0, fix_domain d0 = Ok d).
      { clear - H Hd. induction H as [|d0 d1 l l' Hf _ IH]; [contradiction|].
        destruct Hd as [->|Hd]; eauto. }
      destruct Hex as [d0 Hd0]. unfold fix_domain in Hd0.
      destruct (String.eqb (CdpDomain.domain d0) "DOM") eqn:E1.
      * destruct (patch_resolve_node (CdpDomain.commands d0)) as [cmds|] eqn:Hc;
          simpl in Hd0; [|discriminate].
        injection Hd0 as <-. simpl in Hfind. eapply patch_resolve_node_ref; eauto.
      * assert (Hdom : CdpDomain.domain d = CdpDomain.domain d0).
        { destruct (String.eqb (CdpDomain.domain d0) "Page");
            [|destruct (String.eqb (CdpDomain.domain d0) "Network")];
            injection Hd0 as <-; reflexivity. }
        rewrite Hn in Hdom. rewrite <- Hdom in E1. discriminate.
    + clear - H. induction H as [|d0 d l l' Hf _ IH]; constructor; auto.
      assert (Hsame : forall cmds, Forall2 Samples.same_command_or_patched cmds cmds).
      { induction cmds; constructor; auto. now left. }
      unfold fix_domain in Hf.
      destruct (String.eqb_spec (CdpDomain.domain d0) "DOM") as [E1|E1].
      { destruct (patch_resolve_node (CdpDomain.commands d0)) as [cmds|] eqn:Hc;
          cbn [bind] in Hf; [|discriminate].
        injection Hf as <-. destruct (patch_resolve_node_spec _ _ Hc) as [S1 S2].
        split; [reflexivity|]. split; [exact S1|]. intros _. exact S2. }
      assert (Hd : CdpDomain.domain d = CdpDomain.domain d0
                   /\ CdpDomain.commands d = CdpDomain.commands d0).
      { destruct (String.eqb (CdpDomain.domain d0) "Page");
          [|destruct (String.eqb (CdpDomain.domain d0) "Network")];
          injection Hf as <-; split; reflexivity. }
      destruct Hd as [Hd1 Hd2]. split; [exact Hd1|]. rewrite Hd2.
      split; [apply Hsame|]. intros Hdom. contradiction.
Qed.

(** C7 on the domains [DOM], [Network] and [Page]: the patched list is
    a fixed point, the second parameter of [DOM.resolveNode] refers to
    [BackendNodeId], the other parameters and the commands are kept, and
    [expires] of [Network.Cookie] is optional. *)
Lemma C7_fix_protocol_spec_witness :
  exists patched,
    fix_protocol_spec Samples.parsed_domains = Ok patched
    /\ fix_protocol_spec patched = Ok patched
    /\ map (fun d =>
              map (fun c => (CdpCommand.name c,
                             map (fun p => (CdpProperty.name p, CdpProperty.ref p))
                                 (CdpCommand.parameters c)))
                  (CdpDomain.commands d))
           patched
       = [[("resolveNode",
            [("nodeId", Some "NodeId"); ("backendNodeId", Some "BackendNodeId");
             ("objectGroup", None)])];
          []; []]
    /\ map (fun d =>
              map (fun ty => map (fun p => (CdpProperty.name p, CdpProperty.optional p))
                                 (CdpType.properties ty))
                  (CdpDomain.types d))
           patched
       = [[]; [[("name", false); ("expires", true); ("sameSite", true)]]; []].
Proof.
  eexists. split; [reflexivity|]. split.
  - apply (proj2 (C7_fix_protocol_spec_idempotent Samples.parsed_domains) _ eq_refl).
  - split; reflexivity.
Defined.

Example fix_protocol_spec_sample :
  match fix_protocol_spec Samples.parsed_domains with
  | Ok [dom; network; page] =>
      map (fun c => map CdpProperty.ref (CdpCommand.parameters c)) (CdpDomain.commands dom)
      = [[Some "NodeId"; Some "BackendNodeId"; None]]
      /\ map (fun ty => map (fun p => (CdpProperty.name p, CdpProperty.optional p))
                            (CdpType.properties ty))
             (CdpDomain.types network)
         = [[("name", false); ("expires", true); ("sameSite", true)]]
      /\ map CdpEvent.description (CdpDomain.events page)
         = [Some "Fired when the page with currently enabled screencast was shown or hidden ."]
  | _ => False
  end.
Proof. repeat split. Qed.

End Patches.

(** ** The code emitted for properties *)

Section EmittedCode.
Import Py GenerateCdp Generated.

Variable method_to_json : value -> result value.
Variable class_from_json : string -> value -> result value.
Variable builtin_call : string -> value -> result value.

#[local] Abbreviation eval := (Generated.eval method_to_json class_from_json builtin_call).
#[local] Abbreviation exec_simple := (Generated.exec_simple method_to_json class_from_json builtin_call).
#[local] Abbreviation exec_simples := (Generated.exec_simples method_to_json class_from_json builtin_call).
#[local] Abbreviation exec := (Generated.exec method_to_json class_from_json builtin_call).
#[local] Abbreviation to_wire := (Generated.to_wire method_to_json).
#[local] Abbreviation wire_items := (Generated.wire_items method_to_json).

(** *** Dictionaries and local names *)

Lemma lookup_update_eq k v l : lookup k (update k v l) = Some v.
Proof.
  induction l as [|[k' v'] l IH]; simpl.
  - rewrite String.eqb_refl. reflexivity.
  - destruct (String.eqb k k') eqn:E; simpl.
    + rewrite String.eqb_refl. reflexivity.
    + rewrite E. exact IH.
Qed.

Lemma lookup_update_ne k k' v l : k <> k' -> lookup k' (update k v l) = lookup k' l.
Proof.
  intros Hne. induction l as [|[k0 v0] l IH]; simpl.
  - destruct (String.eqb_spec k' k); [congruence | reflexivity].
  - destruct (String.eqb_spec k k0) as [->|Hk]; simpl.
    + destruct (String.eqb_spec k' k0); [congruence | reflexivity].
    + destruct (String.eqb k' k0); [reflexivity | exact IH].
Qed.

Lemma update_update k v v' l : update k v (update k v' l) = update k v l.
Proof.
  induction l as [|[k0 v0] l IH]; simpl.
  - rewrite String.eqb_refl. reflexivity.
  - destruct (String.eqb k k0) eqn:E; simpl.
    + rewrite String.eqb_refl. reflexivity.
    + rewrite E, IH. reflexivity.
Qed.

Lemma update_absent k v l : lookup k l = None -> update k v l = l ++ [(k, v)].
Proof.
  induction l as [|[k0 v0] l IH]; simpl; [reflexivity|].
  destruct (String.eqb k k0); [discriminate|].
  intros H. rewrite (IH H). reflexivity.
Qed.

Lemma lookup_app k l l' :
  lookup k (l ++ l') = match lookup k l with Some v => Some v | None => lookup k l' end.
Proof.
  induction l as [|[k0 v0] l IH]; simpl; [reflexivity|].
  destruct (String.eqb k k0); [reflexivity | exact IH].
Qed.

Lemma name_lookup_update_eq k v l : name_lookup k (update k v l) = Ok v.
Proof. unfold name_lookup. rewrite lookup_update_eq. reflexivity. Qed.

Lemma name_lookup_update_ne k k' v l :
  k <> k' -> name_lookup k' (update k v l) = name_lookup k' l.
Proof. intros H. unfold name_lookup. rewrite lookup_update_ne by exact H. reflexivity. Qed.

Lemma mapM_ext {A B} (f g : A -> result B) (l : list A) :
  (forall a, f a = g a) -> mapM f l = mapM g l.
Proof.
  intros H. induction l as [|x l IH]; simpl; [reflexivity|].
  rewrite H, IH. reflexivity.
Qed.

Lemma mapM_Ok {A} (l : list A) : mapM (fun a => Ok a) l = Ok l.
Proof.
  induction l as [|x l IH]; simpl; [reflexivity|]. rewrite IH. reflexivity.
Qed.

(** *** One property *)

(** The right-hand side that [generate_to_json] emits computes the wire
    encoding of the value of the property. *)
Lemma exec_set_item p dict_ use_self locals v d :
  eval (target p use_self) locals = Ok v ->
  name_lookup dict_ locals = Ok (VDict d) ->
  exec_simple
    match generate_to_json p dict_ use_self with
    | IfNotNone _ assign => assign
    | assign => assign
    end locals
  = (j <- to_wire p v ;;
     Ok (update dict_ (VDict (update (CdpProperty.name p) j d)) locals)).
Proof.
  intros Hv Hd. unfold generate_to_json, Generated.to_wire.
  destruct (CdpProperty.optional p);
    (destruct (CdpProperty.items p) as [items|];
     [ destruct (str_truthy (CdpItems.ref items))
     | destruct (opt_truthy (CdpProperty.ref p)) ]);
    cbn [Generated.exec_simple Generated.eval]; rewrite Hv; cbn [bind];
    try (destruct (iterate v) as [l|e]; cbn [bind]; [|reflexivity]);
    try (rewrite (mapM_ext _ method_to_json l) by (intros; reflexivity));
    try (rewrite (mapM_ext _ (fun a => Ok a) l) by (intros; reflexivity);
         rewrite mapM_Ok);
    try (destruct (mapM method_to_json l); cbn [bind]; [|reflexivity]);
    try (destruct (method_to_json v); cbn [bind]; [|reflexivity]);
    rewrite Hd; reflexivity.
Qed.

(** What the statement emitted for one property does: nothing for an
    absent value, else it stores the wire encoding under the CDP name. *)
Lemma exec_generate_to_json p dict_ use_self locals v d :
  eval (target p use_self) locals = Ok v ->
  name_lookup dict_ locals = Ok (VDict d) ->
  (v = VNone -> CdpProperty.optional p = true) ->
  exec_simple (generate_to_json p dict_ use_self) locals
  = if is_none v then Ok locals
    else (j <- to_wire p v ;;
          Ok (update dict_ (VDict (update (CdpProperty.name p) j d)) locals)).
Proof.
  intros Hv Hd Hopt.
  pose proof (exec_set_item p dict_ use_self locals v d Hv Hd) as Hset.
  unfold generate_to_json in *.
  destruct (CdpProperty.optional p) eqn:Eo.
  - cbn [Generated.exec_simple]. rewrite Hv. cbn [bind].
    destruct (is_none v); [reflexivity | exact Hset].
  - destruct v; try exact Hset. specialize (Hopt eq_refl). discriminate.
Qed.

(** *** A run of properties *)

Lemma wire_items_cons p rest read :
  wire_items (p :: rest) read
  = match read (CdpProperty.py_name p) with
    | None => Raise (NameError (CdpProperty.py_name p))
    | Some v =>
        if is_none v then wire_items rest read
        else (j <- to_wire p v ;;
              r <- wire_items rest read ;;
              Ok ((CdpProperty.name p, j) :: r))
    end.
Proof. simpl. destruct (read (CdpProperty.py_name p)) as [[]|]; reflexivity. Qed.

(** The statements emitted for a list of properties with distinct CDP
    names add to the dict, in order, the wire encoding of every value that
    is not absent. *)
Lemma exec_assigns dict_ use_self read locals0 ps :
  forall d items,
    (forall p d' v, In p ps -> read (CdpProperty.py_name p) = Some v ->
                    eval (target p use_self) (update dict_ (VDict d') locals0) = Ok v) ->
    present_if_required ps read ->
    NoDup (map CdpProperty.name ps) ->
    (forall p, In p ps -> lookup (CdpProperty.name p) d = None) ->
    wire_items ps read = Ok items ->
    exec_simples (map (fun p => generate_to_json p dict_ use_self) ps)
                 (update dict_ (VDict d) locals0)
    = Ok (update dict_ (VDict (d ++ items)) locals0).
Proof.
  induction ps as [|p rest IH]; intros d items Hread Hreq Hnd Hfresh Hw.
  - simpl in *. injection Hw as <-. rewrite app_nil_r. reflexivity.
  - rewrite wire_items_cons in Hw.
    destruct (read (CdpProperty.py_name p)) as [v|] eqn:Hr; [|discriminate].
    assert (Hnd' : NoDup (map CdpProperty.name rest)) by (inversion Hnd; assumption).
    assert (Hp : ~ In (CdpProperty.name p) (map CdpProperty.name rest))
      by (inversion Hnd; assumption).
    cbn [map Generated.exec_simples].
    rewrite (exec_generate_to_json p dict_ use_self _ v d).
    + destruct (is_none v) eqn:En; cbn [bind].
      * apply IH; auto.
        -- intros q d' w Hq. apply Hread. now right.
        -- intros q Hq. apply Hreq. now right.
        -- intros q Hq. apply Hfresh. now right.
      * destruct (to_wire p v) as [j|] eqn:Hj; cbn [bind] in *; [|discriminate].
        destruct (wire_items rest read) as [r|] eqn:Hrest; cbn [bind] in Hw; [|discriminate].
        injection Hw as <-.
        rewrite update_update.
        rewrite (update_absent (CdpProperty.name p) j d) by (apply Hfresh; now left).
        rewrite (IH (d ++ [(CdpProperty.name p, j)]) r); auto.
        -- rewrite <- app_assoc. reflexivity.
        -- intros q d' w Hq. apply Hread. now right.
        -- intros q Hq. apply Hreq. now right.
        -- intros q Hq. rewrite lookup_app, (Hfresh q (or_intror Hq)). simpl.
           destruct (String.eqb_spec (CdpProperty.name q) (CdpProperty.name p)) as [E|E];
             [|reflexivity].
           exfalso. apply Hp. rewrite <- E. apply in_map. exact Hq.
    + apply Hread; [now left | exact Hr].
    + apply name_lookup_update_eq.
    + intros ->. apply Hreq; [now left | exact Hr].
Qed.

(** A key is absent from the wire items when the value of its property
    is absent. *)
Lemma wire_items_absent read ps :
  forall items p,
    wire_items ps read = Ok items ->
    NoDup (map CdpProperty.name ps) ->
    In p ps ->
    read (CdpProperty.py_name p) = Some VNone ->
    lookup (CdpProperty.name p) items = None.
Proof.
  assert (Hkeys : forall ps items k,
             wire_items ps read = Ok items ->
             ~ In k (map CdpProperty.name ps) -> lookup k items = None).
  { induction ps0 as [|q rest IH]; intros items k Hw Hk.
    - simpl in Hw. injection Hw as <-. reflexivity.
    - rewrite wire_items_cons in Hw.
      destruct (read (CdpProperty.py_name q)) as [v|]; [|discriminate].
      assert (Hk' : ~ In k (map CdpProperty.name rest)) by (intros H; apply Hk; now right).
      destruct (is_none v); [eapply IH; eauto|].
      destruct (to_wire q v) as [j|]; cbn [bind] in Hw; [|discriminate].
      destruct (wire_items rest read) as [r|] eqn:Hrest; cbn [bind] in Hw; [|discriminate].
      injection Hw as <-. simpl.
      destruct (String.eqb_spec k (CdpProperty.name q)) as [E|E].
      + exfalso. apply Hk. left. now symmetry.
      + eapply IH; eauto. }
  induction ps as [|q rest IH]; intros items p Hw Hnd Hin Hnone; [contradiction|].
  rewrite wire_items_cons in Hw.
  assert (Hnd' : NoDup (map CdpProperty.name rest)) by (inversion Hnd; assumption).
  assert (Hq : ~ In (CdpProperty.name q) (map CdpProperty.name rest))
    by (inversion Hnd; assumption).
  destruct Hin as [->|Hin].
  - rewrite Hnone in Hw. simpl in Hw. eapply Hkeys; eauto.
  - destruct (read (CdpProperty.py_name q)) as [v|]; [|discriminate].
    destruct (is_none v); [eapply IH; eauto|].
    destruct (to_wire q v) as [j|]; cbn [bind] in Hw; [|discriminate].
    destruct (wire_items rest read) as [r|] eqn:Hrest; cbn [bind] in Hw; [|discriminate].
    injection Hw as <-. simpl.
    destruct (String.eqb_spec (CdpProperty.name p) (CdpProperty.name q)) as [E|E].
    + exfalso. apply Hq. rewrite <- E. apply in_map. exact Hin.
    + eapply IH; eauto.
Qed.

(** C5, as the code has it.  The field name of a property or parameter
    is the lower-snake form of its CDP name, with an underscore appended
    when that form is the name of a Python builtin, an attribute of the
    [builtins] module; so [type] gives the field [type_].  The
    statement emitted by [generate_to_json] is an assignment to the key
    of the CDP name, under a test of the field when the property is
    optional.  When that statement is Python, which it is not when the
    field name is a keyword such as [class], it reads the field of that
    Python name and stores the wire encoding of its value under the CDP
    name. *)
Theorem C5_field_name_and_wire_name (p : CdpProperty.t) :
  CdpProperty.py_name p
  = (if Builtins.has_attr (Inflection.underscore (CdpProperty.name p))
     then Inflection.underscore (CdpProperty.name p) ++ "_"
     else Inflection.underscore (CdpProperty.name p))%string
  /\ CdpProperty.py_name Samples.type_property = "type_"
  /\ (exists value,
         generate_to_json p "json" true
         = (if CdpProperty.optional p
            then IfNotNone (Attr "self" (CdpProperty.py_name p))
                           (SetItem "json" (CdpProperty.name p) value)
            else SetItem "json" (CdpProperty.name p) value))
  /\ (valid_simple (generate_to_json p "json" true) = true ->
      forall cls fields rest d v j,
         lookup (CdpProperty.py_name p) fields = Some v ->
         v <> VNone ->
         to_wire p v = Ok j ->
         exec_simple (generate_to_json p "json" true)
                     (("self", VObject cls fields) :: ("json", VDict d) :: rest)
         = Ok (("self", VObject cls fields)
                 :: ("json", VDict (update (CdpProperty.name p) j d)) :: rest)).
Proof.
  split; [reflexivity|]. split; [reflexivity|]. split.
  { unfold generate_to_json. eexists. reflexivity. }
  intros _ cls fields rest d v j Hf Hv Hj.
  rewrite (exec_generate_to_json p "json" true _ v d).
  - destruct v; try (exfalso; apply Hv; reflexivity); cbn [is_none]; rewrite Hj; reflexivity.
  - cbn. rewrite Hf. reflexivity.
  - reflexivity.
  - intros ->. exfalso. apply Hv. reflexivity.
Qed.

(** *** Commands *)

Lemma exec_do_prefix ss rest locals :
  exec (map Do ss ++ rest) locals
  = match exec_simples ss locals with
    | Ok locals' => exec rest locals'
    | Raise e => Done (Raise e)
    end.
Proof.
  revert locals. induction ss as [|s ss IH]; intros locals; [reflexivity|].
  cbn [map app Generated.exec Generated.exec_simples].
  destruct (exec_simple s locals) as [locals'|e]; cbn [bind]; [apply IH | reflexivity].
Qed.

Lemma sort_by_optional_In p ps : In p (sort_by_optional ps) <-> In p ps.
Proof.
  unfold sort_by_optional. rewrite in_app_iff, !filter_In.
  destruct (CdpProperty.optional p); simpl; intuition discriminate.
Qed.

(** The local names of a call: every parameter has the value the caller
    provided for it. *)
Lemma bind_arguments_lookup signature kwargs locals x :
  bind_arguments signature kwargs = Ok locals ->
  In x (map fst signature) ->
  lookup x locals = provided kwargs x.
Proof.
  unfold bind_arguments.
  destruct (existsb _ kwargs); [discriminate|].
  revert locals. induction signature as [|[y has_default] signature IH];
    intros locals Hb Hin; [contradiction|].
  cbn [mapM fst snd] in Hb.
  destruct (mapM _ signature) as [ls|] eqn:Hl.
  - assert (Hy : exists w, locals = (y, w) :: ls /\ provided kwargs y = Some w).
    { unfold provided. destruct (lookup y kwargs) as [w|]; cbn [bind] in Hb.
      - injection Hb as <-. eauto.
      - destruct has_default; cbn [bind] in Hb; [|discriminate].
        injection Hb as <-. eauto. }
    destruct Hy as (w & -> & Hw). simpl.
    destruct (String.eqb_spec x y) as [->|Hne]; [now symmetry|].
    apply (IH ls eq_refl). destruct Hin as [E|Hin]; [simpl in E; congruence | exact Hin].
  - destruct (lookup y kwargs); cbn [bind] in Hb; [discriminate|].
    destruct has_default; cbn [bind] in Hb; discriminate.
Qed.

(** The tail of the emitted body, after the [yield], finishes the
    generator. *)
Lemma command_returns_finish (c : CdpCommand.t) ret :
  match CdpCommand.returns c with
  | [] => Ok []
  | [r] => (ret <- generate_return r "json" ;; Ok [ReturnExpr ret])
  | rs => (es <- mapM (fun r => generate_return r "json") rs ;; Ok [ReturnTuple es])
  end = Ok ret ->
  forall locals, exists r, exec ret locals = Done r.
Proof.
  intros H locals.
  destruct (CdpCommand.returns c) as [|r0 [|r1 rs]].
  - injection H as <-. simpl. eauto.
  - destruct (generate_return r0 "json"); cbn [bind] in H; [|discriminate].
    injection H as <-. simpl. eauto.
  - destruct (mapM _ (r0 :: r1 :: rs)); cbn [bind] in H; [|discriminate].
    injection H as <-. simpl. eauto.
Qed.

(** C1, as the code has it.  Calling the function emitted for a command
    yields one request and then, whatever it is resumed with, finishes.
    The request has the method [Domain.name]; it has [params] exactly
    when the command has parameters, and [params] then holds the wire
    encodings of the arguments that are not [None], under their CDP
    names.  This holds under conditions on the command and on the call.
    The text emitted for the command is Python: the parameter names are
    names, not keywords, and they are distinct and none of them is
    [params], the local name of the dict.  The call gives every required
    parameter a value other than [None] (a required parameter given
    [None] is sent, under its key), and the arguments have wire
    encodings.  No parameter hides the [dict] that the body calls, since
    [snake_case] gives no name of a builtin. *)
Theorem C1_command_yields_one_request
    (c : CdpCommand.t) (body : list stmt) (kwargs locals items : list (string * value)) :
  command_body c = Ok body ->
  valid_function (command_signature c) body = true ->
  NoDup (map CdpProperty.py_name (CdpCommand.parameters c)) ->
  ~ In "params" (map CdpProperty.py_name (CdpCommand.parameters c)) ->
  bind_arguments (command_signature c) kwargs = Ok locals ->
  present_if_required (CdpCommand.parameters c) (provided kwargs) ->
  wire_items (CdpCommand.parameters c) (provided kwargs) = Ok items ->
  exists resume,
    Generated.call_command method_to_json class_from_json builtin_call c body kwargs
    = Yielded
        (VDict (("method", VStr (CdpCommand.domain c ++ "." ++ CdpCommand.name c))
                  :: (if nonempty (CdpCommand.parameters c)
                      then [("params", VDict items)] else [])))
        resume
    /\ forall sent, exists r, resume sent = Done r.
Proof.
  intros Hbody Hvalid Hnd Hparams Hbind Hreq Hw.
  unfold Generated.call_command. rewrite Hvalid, Hbind.
  unfold command_body in Hbody.
  destruct (match CdpCommand.returns c with
            | [] => Ok []
            | [r] => (ret <- generate_return r "json" ;; Ok [ReturnExpr ret])
            | rs => (es <- mapM (fun r => generate_return r "json") rs ;; Ok [ReturnTuple es])
            end) as [ret|] eqn:Hret; cbn [bind] in Hbody; [|discriminate].
  injection Hbody as <-.
  pose proof (command_returns_finish c ret Hret) as Hfin.
  destruct (CdpCommand.parameters c) as [|p0 ps] eqn:Hps.
  - cbn in Hw. injection Hw as <-.
    cbn [nonempty map app Generated.exec Generated.exec_simple].
    rewrite name_lookup_update_eq.
    eexists. split; [reflexivity|]. intros sent. apply Hfin.
  - rewrite <- Hps in *.
    assert (Hne : nonempty (CdpCommand.parameters c) = true) by (rewrite Hps; reflexivity).
    rewrite Hne. cbn [app Generated.exec Generated.exec_simple].
    rewrite <- (map_map (fun p => generate_to_json p "params" false) Do).
    rewrite exec_do_prefix.
    rewrite (exec_assigns "params" false (provided kwargs) locals
               (CdpCommand.parameters c) [] items).
    + cbn [app Generated.exec Generated.exec_simple].
      rewrite name_lookup_update_eq. cbn [bind]. rewrite name_lookup_update_eq.
      eexists. split; [reflexivity|]. intros sent. apply Hfin.
    + intros p d' v Hp Hv. cbn [target Generated.eval].
      rewrite name_lookup_update_ne.
      * unfold name_lookup.
        rewrite (bind_arguments_lookup _ _ _ _ Hbind), Hv; [reflexivity|].
        unfold command_signature. rewrite map_map. cbn [fst].
        apply in_map. apply sort_by_optional_In. exact Hp.
      * intros E. apply Hparams. rewrite E. apply in_map. exact Hp.
    + exact Hreq.
    + unfold CdpProperty.py_name in Hnd. rewrite <- map_map in Hnd.
      eapply NoDup_map_inv. exact Hnd.
    + reflexivity.
    + exact Hw.
Qed.

(** *** Classes *)

Lemma sort_by_optional_NoDup {B} (f : CdpProperty.t -> B) ps :
  NoDup (map f ps) -> NoDup (map f (sort_by_optional ps)).
Proof.
  intros H. eapply Permutation.Permutation_NoDup; [|exact H].
  apply Permutation.Permutation_map.
  unfold sort_by_optional. clear H.
  induction ps as [|p ps IH]; simpl; [constructor|].
  destruct (CdpProperty.optional p); simpl.
  - apply Permutation.Permutation_cons_app. exact IH.
  - constructor. exact IH.
Qed.

Lemma present_if_required_sorted ps read :
  present_if_required ps read -> present_if_required (sort_by_optional ps) read.
Proof. intros H p Hp. apply H. apply sort_by_optional_In. exact Hp. Qed.

(** The emitted [to_json] returns the wire items of the fields. *)
Lemma call_to_json_wire_items (ty : CdpType.t) cls fields items :
  NoDup (map CdpProperty.name (CdpType.properties ty)) ->
  present_if_required (CdpType.properties ty) (fun x => lookup x fields) ->
  wire_items (sort_by_optional (CdpType.properties ty)) (fun x => lookup x fields) = Ok items ->
  Generated.call_to_json method_to_json class_from_json builtin_call ty (VObject cls fields)
  = Done (Ok (VDict items)).
Proof.
  intros Hnd Hreq Hw. unfold Generated.call_to_json, class_to_json_body.
  cbn [Generated.exec Generated.exec_simple].
  rewrite <- (map_map (fun p => generate_to_json p "json" true) Do).
  rewrite exec_do_prefix.
  rewrite (exec_assigns "json" true (fun x => lookup x fields) [("self", VObject cls fields)]
             (sort_by_optional (CdpType.properties ty)) [] items).
  - reflexivity.
  - intros p d' v _ Hv. cbn. rewrite Hv. reflexivity.
  - apply present_if_required_sorted. exact Hreq.
  - apply sort_by_optional_NoDup. exact Hnd.
  - reflexivity.
  - exact Hw.
Qed.

(** The expression emitted for a property reads the wire dict at the CDP
    name of the property only. *)
Lemma from_json_reads_its_key q e d d' :
  generate_from_json q "json" = Ok e ->
  lookup (CdpProperty.name q) d = lookup (CdpProperty.name q) d' ->
  eval e [("json", VDict d)] = eval e [("json", VDict d')].
Proof.
  intros H Hl. unfold generate_from_json in H.
  match type of H with
  | bind ?m _ = _ => destruct m as [base|] eqn:Hb; cbn [bind] in H; [|discriminate]
  end.
  injection H as <-.
  assert (Hbase : eval base [("json", VDict d)] = eval base [("json", VDict d')]).
  { unfold get_constructor, bind in Hb.
    repeat match type of Hb with
           | context [match ?x with _ => _ end] =>
               lazymatch x with
               | context [match _ with _ => _ end] => fail
               | _ => destruct x eqn:?; try discriminate
               end
           end;
      injection Hb as <-; simpl; rewrite Hl; reflexivity. }
  destruct (CdpProperty.optional q); [|exact Hbase].
  simpl. rewrite Hl, Hbase. reflexivity.
Qed.

(** For an optional property, a key that is present with [null] is read
    like a missing key: as [None]. *)
Lemma from_json_null_is_absent p e d :
  generate_from_json p "json" = Ok e ->
  CdpProperty.optional p = true ->
  lookup (CdpProperty.name p) d = Some VNone \/ lookup (CdpProperty.name p) d = None ->
  eval e [("json", VDict d)] = Ok VNone.
Proof.
  intros H Ho Hl. unfold generate_from_json in H. rewrite Ho in H.
  match type of H with
  | bind ?m _ = _ => destruct m as [base|]; cbn [bind] in H; [|discriminate]
  end.
  injection H as <-. cbn. destruct Hl as [-> | ->]; reflexivity.
Qed.

Lemma lookup_remove_key_ne k k' d : k <> k' -> lookup k' (remove_key k d) = lookup k' d.
Proof.
  intros Hne. induction d as [|[k0 v0] d IH]; simpl; [reflexivity|].
  destruct (String.eqb_spec k k0) as [->|Hk]; simpl.
  - destruct (String.eqb_spec k' k0); [congruence | exact IH].
  - destruct (String.eqb k' k0); [reflexivity | exact IH].
Qed.

Lemma lookup_remove_key_eq k d : lookup k (remove_key k d) = None.
Proof.
  induction d as [|[k0 v0] d IH]; simpl; [reflexivity|].
  destruct (String.eqb k k0) eqn:E; simpl; [exact IH|]. rewrite E. exact IH.
Qed.

Lemma NoDup_map_injective_on {A B} (f : A -> B) (l : list A) (a b : A) :
  NoDup (map f l) -> In a l -> In b l -> f a = f b -> a = b.
Proof.
  induction l as [|x l IH]; simpl; intros Hnd Ha Hb E; [contradiction|].
  inversion Hnd as [|? ? Hx Hnd']; subst.
  destruct Ha as [->|Ha], Hb as [->|Hb]; auto.
  - exfalso. apply Hx. rewrite E. apply in_map. exact Hb.
  - exfalso. apply Hx. rewrite <- E. apply in_map. exact Ha.
Qed.

(** The emitted [from_json] treats a wire dict in which the key of an
    optional property is present with [null] like the dict without the
    key. *)
Lemma call_from_json_null_is_absent (ty : CdpType.t) (p : CdpProperty.t) body d :
  In p (CdpType.properties ty) ->
  CdpProperty.optional p = true ->
  NoDup (map CdpProperty.name (CdpType.properties ty)) ->
  class_from_json_body ty = Ok body ->
  lookup (CdpProperty.name p) d = Some VNone ->
  Generated.call_from_json method_to_json class_from_json builtin_call body (VDict d)
  = Generated.call_from_json method_to_json class_from_json builtin_call body
      (VDict (remove_key (CdpProperty.name p) d)).
Proof.
  intros Hin Ho Hnd Hbody Hnull. unfold class_from_json_body in Hbody.
  destruct (mapM _ (sort_by_optional (CdpType.properties ty))) as [kwargs|] eqn:Hk;
    cbn [bind] in Hbody; [|discriminate].
  injection Hbody as <-. unfold Generated.call_from_json.
  cbn [Generated.exec]. f_equal. f_equal.
  apply mapM_Forall2 in Hk.
  assert (Hall : forall q, In q (sort_by_optional (CdpType.properties ty)) ->
                           In q (CdpType.properties ty))
    by (intros q; apply sort_by_optional_In).
  induction Hk as [|q ke qs kes Hq _ IH]; [reflexivity|].
  cbn [mapM].
  rewrite IH by (intros q' Hq'; apply Hall; now right).
  f_equal.
  destruct (generate_from_json q "json") as [e|] eqn:He; cbn [bind] in Hq; [|discriminate].
  injection Hq as <-. cbn [fst snd].
  destruct (String.eqb_spec (CdpProperty.name p) (CdpProperty.name q)) as [E|E].
  - assert (q = p).
    { eapply NoDup_map_injective_on; eauto. apply Hall. now left. }
    subst q.
    rewrite (from_json_null_is_absent p e d He Ho (or_introl Hnull)).
    rewrite (from_json_null_is_absent p e _ He Ho (or_intror (lookup_remove_key_eq _ d))).
    reflexivity.
  - rewrite (from_json_reads_its_key q e d (remove_key (CdpProperty.name p) d) He);
      [reflexivity|].
    symmetry. apply lookup_remove_key_ne. exact E.
Qed.

(** C4, as the code has it.  For an optional property of an emitted
    class: an instance whose field is [None] gives a [to_json] dict
    without the key of the property; and a wire dict in which the key is
    present with [null] is not refused by [from_json], it is decoded as a
    dict without the key is, the field being [None]. *)
Theorem C4_optional_absent_on_wire_null_read_as_absent
    (ty : CdpType.t) (p : CdpProperty.t) :
  In p (CdpType.properties ty) ->
  CdpProperty.optional p = true ->
  NoDup (map CdpProperty.name (CdpType.properties ty)) ->
  (forall cls fields items,
      lookup (CdpProperty.py_name p) fields = Some VNone ->
      present_if_required (CdpType.properties ty) (fun x => lookup x fields) ->
      wire_items (sort_by_optional (CdpType.properties ty)) (fun x => lookup x fields)
      = Ok items ->
      Generated.call_to_json method_to_json class_from_json builtin_call ty (VObject cls fields)
      = Done (Ok (VDict items))
      /\ lookup (CdpProperty.name p) items = None)
  /\ (forall body d,
         class_from_json_body ty = Ok body ->
         lookup (CdpProperty.name p) d = Some VNone ->
         Generated.call_from_json method_to_json class_from_json builtin_call body (VDict d)
         = Generated.call_from_json method_to_json class_from_json builtin_call body
             (VDict (remove_key (CdpProperty.name p) d)))
  /\ (forall e d,
         generate_from_json p "json" = Ok e ->
         lookup (CdpProperty.name p) d = Some VNone \/ lookup (CdpProperty.name p) d = None ->
         eval e [("json", VDict d)] = Ok VNone).
Proof.
  intros Hin Ho Hnd. split; [|split].
  - intros cls fields items Hnone Hreq Hw. split.
    + apply call_to_json_wire_items; assumption.
    + eapply wire_items_absent; eauto.
      * apply sort_by_optional_NoDup. exact Hnd.
      * apply sort_by_optional_In. exact Hin.
  - intros body d Hbody Hnull. eapply call_from_json_null_is_absent; eauto.
  - intros e d He Hl. eapply from_json_null_is_absent; eauto.
Qed.

End EmittedCode.

(** C5 as stated fails at [class], a keyword that is not an attribute of
    [builtins]: the field of a property called [class] is [class], not
    [class_]. *)
Lemma C5_counterexample_class_is_no_builtin :
  GenerateCdp.CdpProperty.py_name Samples.class_property = "class"
  /\ GenerateCdp.CdpProperty.py_name Samples.class_property <> "class_".
Proof. split; [reflexivity | discriminate]. Qed.

(** ** The emitted code on the sample program *)

Section EmittedCodeSamples.
Import Py GenerateCdp Generated.

(** C5 on a property called [type]. *)
Lemma C5_field_name_witness :
  Generated.exec_simple Samples.sample_to_json Samples.sample_from_json Samples.sample_builtin
    (generate_to_json Samples.type_property "json" true)
    [("self", VObject "RemoteObject" [("type_", VStr "object")]); ("json", VDict [])]
  = Ok [("self", VObject "RemoteObject" [("type_", VStr "object")]);
        ("json", VDict [("type", VStr "object")])].
Proof.
  refine (proj2 (proj2 (proj2
            (C5_field_name_and_wire_name Samples.sample_to_json Samples.sample_from_json
               Samples.sample_builtin Samples.type_property)))
            eq_refl
            "RemoteObject" [("type_", VStr "object")] [] [] (VStr "object") (VStr "object")
            eq_refl _ eq_refl).
  discriminate.
Defined.

Example generate_to_json_text :
  map (fun p => render_simple (generate_to_json p "json" true))
      [Samples.property "nodeId" None (Some "NodeId") false "DOM";
       Samples.property "type" (Some "string") None false "Runtime";
       Samples.property "objectGroup" (Some "string") None true "DOM";
       CdpProperty.mk "nodes" None (Some "array") None []
         (Some (CdpItems.mk "any" "Node")) false false false "DOM"]
  = ["json['nodeId'] = self.node_id.to_json()";
     "json['type'] = self.type_";
     "if self.object_group is not None:" ++ newline
       ++ "    json['objectGroup'] = self.object_group";
     "json['nodes'] = [i.to_json() for i in self.nodes]"]%string.
Proof. reflexivity. Qed.

Example generate_from_json_text :
  map (fun p => match generate_from_json p "json" with
                | Ok e => render_expr e
                | Raise _ => ""
                end)
      [Samples.property "object" None (Some "Runtime.RemoteObject") false "DOM";
       Samples.property "backendNodeId" None (Some "DOM.BackendNodeId") true "DOM";
       Samples.property "expires" (Some "number") None true "Network";
       Samples.property "value" (Some "any") None false "Runtime";
       CdpProperty.mk "nodes" None (Some "array") None []
         (Some (CdpItems.mk "any" "Node")) false false false "DOM"]
  = ["runtime.RemoteObject.from_json(json['object'])";
     "BackendNodeId.from_json(json['backendNodeId']) if json.get('backendNodeId', None) is not None else None";
     "float(json['expires']) if json.get('expires', None) is not None else None";
     "json['value']";
     "[Node.from_json(i) for i in json['nodes']]"].
Proof. reflexivity. Qed.

Example items_need_a_ref :
  CdpItems.from_json (Json.Obj [("$ref", Json.Str "Node")]) = Ok (CdpItems.mk "any" "Node")
  /\ CdpItems.from_json (Json.Obj [("type", Json.Str "string")])
     = Raise (ValueError "CdpItems must have a 'type' and '$ref' field").
Proof. split; reflexivity. Qed.

Example command_body_text :
  match command_body Samples.reload_command with
  | Ok body => map render_stmt body
  | Raise _ => []
  end
  = ["params: T_JSON_DICT = dict()";
     "if ignore_cache is not None:" ++ newline ++ "    params['ignoreCache'] = ignore_cache";
     "if script_to_evaluate_on_load is not None:" ++ newline
       ++ "    params['scriptToEvaluateOnLoad'] = script_to_evaluate_on_load";
     "cmd_dict: T_JSON_DICT = {'method': 'Page.reload', 'params': params,}";
     "json = yield cmd_dict"]%string.
Proof. reflexivity. Qed.

Example class_code_text :
  map render_stmt (class_to_json_body Samples.patched_cookie_type)
  = ["json: T_JSON_DICT = dict()";
     "json['name'] = self.name";
     "if self.expires is not None:" ++ newline ++ "    json['expires'] = self.expires";
     "return json"]%string
  /\ match class_from_json_body Samples.patched_cookie_type with
     | Ok body => map render_stmt body
     | Raise _ => []
     end
     = ["return Cookie(name=str(json['name']), expires=float(json['expires']) if json.get('expires', None) is not None else None)"].
Proof. split; reflexivity. Qed.

(** C1 on [DOM.querySelector] called with a node id and a selector. *)
Lemma C1_command_witness :
  exists body resume,
    command_body Samples.query_selector_command = Ok body
    /\ Generated.call_command Samples.sample_to_json Samples.sample_from_json
         Samples.sample_builtin Samples.query_selector_command body
         [("node_id", VObject "NodeId" [("value", VInt 5)]); ("selector", VStr "a")]
       = Yielded
           (VDict [("method", VStr "DOM.querySelector");
                   ("params", VDict [("nodeId", VDict [("value", VInt 5)]);
                                     ("selector", VStr "a")])])
           resume
    /\ forall sent, exists r, resume sent = Done r.
Proof.
  destruct (C1_command_yields_one_request
              Samples.sample_to_json Samples.sample_from_json Samples.sample_builtin
              Samples.query_selector_command
              [Do (NewDict "params");
               Do (SetItem "params" "nodeId" (ToJson (Name "node_id")));
               Do (SetItem "params" "selector" (Name "selector"));
               Do (CmdDict "cmd_dict" "DOM.querySelector" (Some "params"));
               YieldTo "json" "cmd_dict";
               ReturnExpr (FromJson "NodeId" (Subscript "json" "nodeId"))]
              [("node_id", VObject "NodeId" [("value", VInt 5)]); ("selector", VStr "a")]
              [("node_id", VObject "NodeId" [("value", VInt 5)]); ("selector", VStr "a")]
              [("nodeId", VDict [("value", VInt 5)]); ("selector", VStr "a")])
    as [resume [Hcall Hdone]].
  - reflexivity.
  - reflexivity.
  - repeat constructor; simpl; intuition discriminate.
  - simpl. intuition discriminate.
  - reflexivity.
  - intros p [<-|[<-|[]]]; discriminate.
  - reflexivity.
  - eexists. exists resume. split; [reflexivity|]. split; [exact Hcall | exact Hdone].
Defined.

(** A parameter called [class] keeps its name, a keyword: the text
    emitted for the command is not Python, and there is no function to
    call. *)
Example keyword_parameter_is_a_syntax_error :
  match command_body Samples.add_class_command with
  | Ok body =>
      command_signature Samples.add_class_command = [("class", false)]
      /\ map render_stmt body
         = ["params: T_JSON_DICT = dict()";
            "params['class'] = class";
            "cmd_dict: T_JSON_DICT = {'method': 'DOM.addClass', 'params': params,}";
            "json = yield cmd_dict"]
      /\ Generated.call_command Samples.sample_to_json Samples.sample_from_json
           Samples.sample_builtin Samples.add_class_command body [("class", VStr "big")]
         = Done (Raise SyntaxError)
  | Raise _ => False
  end.
Proof. split; [reflexivity|]. split; reflexivity. Qed.

(** C1 as stated fails for a required parameter that is given [None]:
    the function emitted for [DOM.querySelector], called with
    [selector=None], sends [params] with the key [selector] and the
    value [None], where the wire encodings of the arguments that are not
    [None] are those of [nodeId] alone. *)
Lemma C1_counterexample_required_none_is_sent :
  exists body resume,
    command_body Samples.query_selector_command = Ok body
    /\ valid_function (command_signature Samples.query_selector_command) body = true
    /\ Generated.call_command Samples.sample_to_json Samples.sample_from_json
         Samples.sample_builtin Samples.query_selector_command body
         [("node_id", VObject "NodeId" [("value", VInt 5)]); ("selector", VNone)]
       = Yielded
           (VDict [("method", VStr "DOM.querySelector");
                   ("params", VDict [("nodeId", VDict [("value", VInt 5)]);
                                     ("selector", VNone)])])
           resume
    /\ Generated.wire_items Samples.sample_to_json
         (CdpCommand.parameters Samples.query_selector_command)
         (provided [("node_id", VObject "NodeId" [("value", VInt 5)]); ("selector", VNone)])
       = Ok [("nodeId", VDict [("value", VInt 5)])].
Proof.
  eexists. eexists. split; [reflexivity|]. split; [reflexivity|].
  split; reflexivity.
Qed.

(** C4 on [Network.Cookie] with its optional [expires]. *)
Lemma C4_optional_witness :
  (Generated.call_to_json Samples.sample_to_json Samples.sample_from_json Samples.sample_builtin
     Samples.patched_cookie_type
     (VObject "Cookie" [("name", VStr "sid"); ("expires", VNone)])
   = Done (Ok (VDict [("name", VStr "sid")]))
   /\ lookup "expires" [("name", VStr "sid")] = None)
  /\ Generated.call_from_json Samples.sample_to_json Samples.sample_from_json
       Samples.sample_builtin
       [ReturnNew "Cookie"
          [("name", Call "str" (Subscript "json" "name"));
           ("expires", IfKeyNotNone (Call "float" (Subscript "json" "expires")) "json" "expires")]]
       (VDict [("name", VStr "sid"); ("expires", VNone)])
     = Generated.call_from_json Samples.sample_to_json Samples.sample_from_json
         Samples.sample_builtin
         [ReturnNew "Cookie"
            [("name", Call "str" (Subscript "json" "name"));
             ("expires", IfKeyNotNone (Call "float" (Subscript "json" "expires")) "json" "expires")]]
         (VDict [("name", VStr "sid")])
  /\ Generated.eval Samples.sample_to_json Samples.sample_from_json Samples.sample_builtin
       (IfKeyNotNone (Call "float" (Subscript "json" "expires")) "json" "expires")
       [("json", VDict [("name", VStr "sid"); ("expires", VNone)])]
     = Ok VNone.
Proof.
  assert (Hin : In (Samples.property "expires" (Some "number") None true "Network")
                   (CdpType.properties Samples.patched_cookie_type))
    by (simpl; right; left; reflexivity).
  assert (Hnd : NoDup (map CdpProperty.name (CdpType.properties Samples.patched_cookie_type)))
    by (repeat constructor; simpl; intuition discriminate).
  destruct (C4_optional_absent_on_wire_null_read_as_absent
              Samples.sample_to_json Samples.sample_from_json Samples.sample_builtin
              Samples.patched_cookie_type
              (Samples.property "expires" (Some "number") None true "Network")
              Hin eq_refl Hnd) as (HA & HB & HC).
  split; [|split].
  - apply (HA "Cookie" [("name", VStr "sid"); ("expires", VNone)] [("name", VStr "sid")]
              eq_refl).
    + intros p [<-|[<-|[]]]; intros H; [discriminate H | reflexivity].
    + reflexivity.
  - apply (HB _ [("name", VStr "sid"); ("expires", VNone)] eq_refl eq_refl).
  - apply (HC _ [("name", VStr "sid"); ("expires", VNone)] eq_refl). left. reflexivity.
Defined.

(** C4 as stated fails in its second half: [from_json] of the emitted
    class [Cookie] takes the wire dict
    [{"name": "sid", "expires": null}] and returns an instance whose
    [expires] is [None]. *)
Lemma C4_counterexample_null_is_decoded :
  match class_from_json_body Samples.patched_cookie_type with
  | Ok body =>
      Generated.call_from_json Samples.sample_to_json Samples.sample_from_json
        Samples.sample_builtin body
        (VDict [("name", VStr "sid"); ("expires", VNone)])
      = Done (Ok (VObject "Cookie" [("name", VStr "sid"); ("expires", VNone)]))
  | Raise _ => False
  end.
Proof. reflexivity. Qed.

End EmittedCodeSamples.

(** ** The text search and its best match *)

Section TextSearch.
Import Py Dom ElementPy TabPy.

Variable filter_recurse : Node -> (Node -> bool) -> option Node.
Variable filter_recurse_all : Node -> (Node -> bool) -> list Node.
Variable browser : list request -> reply.
Variable self : Z.

(** [min] returns the first of the items with the least key. *)
Lemma min_by_first_minimum {A} (key : A -> nat) (l : list A) :
  forall x,
  exists before after,
    x :: l = before ++ min_by key x l :: after
    /\ (forall y, In y before -> key (min_by key x l) < key y)
    /\ (forall y, In y after -> key (min_by key x l) <= key y).
Proof.
  induction l as [|y l IH]; intros x.
  - exists [], []. simpl. split; [reflexivity|]. split; intros ? [].
  - simpl. destruct (Nat.ltb_spec (key y) (key x)) as [Hlt|Hge].
    + destruct (IH y) as (before & after & Heq & Hb & Ha).
      exists (x :: before), after. rewrite Heq.
      split; [reflexivity|]. split; [|exact Ha].
      intros z [<-|Hz]; [|auto].
      assert (Hy : In y (before ++ min_by key y l :: after))
        by (rewrite <- Heq; now left).
      apply in_app_or in Hy. destruct Hy as [Hy|[Hy|Hy]].
      * specialize (Hb _ Hy). lia.
      * rewrite Hy. exact Hlt.
      * specialize (Ha _ Hy). lia.
    + destruct (IH x) as (before & after & Heq & Hb & Ha).
      destruct before as [|b before].
      * injection Heq as Hx Hl.
        exists [], (y :: after). rewrite <- Hx, Hl.
        split; [reflexivity|]. split.
        -- intros ? [].
        -- intros z [<-|Hz]; [exact Hge|]. rewrite Hx. apply Ha. exact Hz.
      * injection Heq as <- Hl.
        exists (x :: y :: before), after.
        split; [simpl; do 2 f_equal; exact Hl|]. split; [|exact Ha].
        intros z [<-|[<-|Hz]].
        -- apply Hb. now left.
        -- assert (key (min_by key x l) < key x) by (apply Hb; now left). lia.
        -- apply Hb. now right.
Qed.

(** C8, as the code has it.  When the text search gives a list of
    candidates that is not empty, [find_element_by_text] with
    [best_match] returns the candidate whose [text_all] has the length
    closest to the length of the text as it was passed, which is not
    stripped for this comparison; of several candidates at the least
    distance it returns the earliest in the order of the search.
    Lengths are those of [len], in code points. *)
Theorem C8_best_match_is_first_closest
    (text : string) (return_enclosing_element : bool)
    (log log' : list request) (items : list Element) :
  find_elements_by_text filter_recurse filter_recurse_all browser self text log
  = (Ok items, log') ->
  items <> [] ->
  exists el before after,
    find_element_by_text filter_recurse filter_recurse_all browser self
      text true return_enclosing_element log
    = (Ok (Some el), log')
    /\ items = before ++ el :: after
    /\ (forall y, In y before ->
          abs_diff (len text) (len (text_all filter_recurse_all el))
          < abs_diff (len text) (len (text_all filter_recurse_all y)))
    /\ (forall y, In y after ->
          abs_diff (len text) (len (text_all filter_recurse_all el))
          <= abs_diff (len text) (len (text_all filter_recurse_all y))).
Proof.
  intros Hfind Hne.
  destruct items as [|first others]; [contradiction|].
  destruct (min_by_first_minimum (length_distance filter_recurse_all text) others first)
    as (before & after & Heq & Hb & Ha).
  exists (min_by (length_distance filter_recurse_all text) first others), before, after.
  split; [|split; [exact Heq | split; [exact Hb | exact Ha]]].
  unfold find_element_by_text, bindM. rewrite Hfind. reflexivity.
Qed.

(** C9, the default: a search result that is a text node whose parent is
    found in the document is replaced by the parent. *)
Lemma text_results_parent_of_text_node (doc node : Node) (nid : Z) (rest : list Z)
      (p : Element) (log : list request) :
  filter_recurse doc (fun n => Z.eqb (Dom.node_id n) nid) = Some node ->
  Dom.node_type node = 3%Z ->
  parent filter_recurse (create node self (Some doc)) = Ok (Some p) ->
  text_results filter_recurse browser self doc (nid :: rest) log
  = (items <~ text_results filter_recurse browser self doc rest ;; ret (p :: items)) log.
Proof.
  intros Hfound Htype Hparent. cbn [text_results]. rewrite Hfound.
  unfold node_type. cbn [_node create]. rewrite Htype. cbn [Z.eqb Pos.eqb].
  unfold bindM at 1. rewrite Hparent.
  unfold bindM at 1. unfold ret at 1.
  unfold bindM at 1. rewrite Hparent. reflexivity.
Qed.

(** C9, the orphan: when no parent is found, the element is updated, and
    when it still has none the text node itself is the result. *)
Lemma text_results_text_node_without_parent (doc node : Node) (nid : Z) (rest : list Z)
      (elem' : Element) (log log' : list request) :
  filter_recurse doc (fun n => Z.eqb (Dom.node_id n) nid) = Some node ->
  Dom.node_type node = 3%Z ->
  parent filter_recurse (create node self (Some doc)) = Ok None ->
  update filter_recurse browser (create node self (Some doc)) log = (Ok elem', log') ->
  parent filter_recurse elem' = Ok None ->
  text_results filter_recurse browser self doc (nid :: rest) log
  = (items <~ text_results filter_recurse browser self doc rest ;; ret (elem' :: items)) log'.
Proof.
  intros Hfound Htype Hparent Hupdate Hparent'. cbn [text_results]. rewrite Hfound.
  unfold node_type. cbn [_node create]. rewrite Htype. cbn [Z.eqb Pos.eqb].
  unfold bindM at 1. rewrite Hparent.
  unfold bindM at 1. rewrite Hupdate.
  unfold bindM at 1. rewrite Hparent'. reflexivity.
Qed.

(** C9, what the code does with the flag: [find_element_by_text] never
    looks at [return_enclosing_element]. *)
Lemma find_element_by_text_ignores_flag (text : string) (best_match flag : bool)
      (log : list request) :
  find_element_by_text filter_recurse filter_recurse_all browser self text best_match flag log
  = find_element_by_text filter_recurse filter_recurse_all browser self text best_match true log.
Proof. reflexivity. Qed.

End TextSearch.

Section TextSearchSamples.
Import Py Dom ElementPy TabPy.

(** C8 on the search for ["a"] in [<p>a</p><p>abc</p>]. *)
Lemma C8_best_match_witness :
  exists el before after,
    find_element_by_text Util.filter_recurse Util.filter_recurse_all Samples.search_browser 1
      "a" true true []
    = (Ok (Some el),
       [GetDocument (-1) true; PerformSearch "a" true; GetSearchResults "1" 0 2;
        DiscardSearchResults "1"; Disable])
    /\ [Samples.elem_p_a; Samples.elem_p_abc] = before ++ el :: after
    /\ (forall y, In y before ->
          abs_diff (len "a") (len (text_all Util.filter_recurse_all el))
          < abs_diff (len "a") (len (text_all Util.filter_recurse_all y)))
    /\ (forall y, In y after ->
          abs_diff (len "a") (len (text_all Util.filter_recurse_all el))
          <= abs_diff (len "a") (len (text_all Util.filter_recurse_all y))).
Proof.
  apply (C8_best_match_is_first_closest Util.filter_recurse Util.filter_recurse_all
           Samples.search_browser 1 "a" true []).
  - reflexivity.
  - discriminate.
Defined.

(** C8 as stated fails for a text with blanks around it.  For the text
    ["  a"] the candidates are the two paragraphs; the one returned is
    [<p>abc</p>], at distance 0 from the length 3 of the text as passed;
    [<p>a</p>] is closer to the length 1 of the stripped text. *)
Lemma C8_counterexample_text_not_stripped :
  find_elements_by_text Util.filter_recurse Util.filter_recurse_all Samples.search_browser 1
    "  a" []
  = (Ok [Samples.elem_p_a; Samples.elem_p_abc],
     [GetDocument (-1) true; PerformSearch "a" true; GetSearchResults "1" 0 2;
      DiscardSearchResults "1"; Disable])
  /\ find_element_by_text Util.filter_recurse Util.filter_recurse_all Samples.search_browser 1
       "  a" true true []
     = (Ok (Some Samples.elem_p_abc),
        [GetDocument (-1) true; PerformSearch "a" true; GetSearchResults "1" 0 2;
         DiscardSearchResults "1"; Disable])
  /\ abs_diff (len (strip "  a"))
              (len (text_all Util.filter_recurse_all Samples.elem_p_a))
     < abs_diff (len (strip "  a"))
                (len (text_all Util.filter_recurse_all Samples.elem_p_abc)).
Proof. split; [reflexivity|]. split; [reflexivity|]. vm_compute. lia. Qed.

(** The lengths compared are those of the texts, not of their
    encodings: for ["abc"] the paragraph of three accented letters, six
    bytes, is at distance 0 and is the one returned. *)
Example best_match_counts_code_points :
  find_element_by_text Util.filter_recurse Util.filter_recurse_all Samples.accent_browser 1
    "abc" true true []
  = (Ok (Some (create Samples.p_eee 1 (Some Samples.accent_page))),
     [GetDocument (-1) true; PerformSearch "abc" true; GetSearchResults "1" 0 3;
      DiscardSearchResults "1"; Disable])
  /\ len (text_all Util.filter_recurse_all (create Samples.p_eee 1 (Some Samples.accent_page)))
     = 3
  /\ String.length
       (text_all Util.filter_recurse_all (create Samples.p_eee 1 (Some Samples.accent_page)))
     = 6.
Proof. split; [reflexivity|]. split; reflexivity. Qed.

(** C9, the code at a call that opts out.  The search for ["a"] finds
    the text node 3, whose parent is the paragraph 2; with
    [return_enclosing_element] false the call still returns the
    paragraph, an element node, and not the text node. *)
Theorem C9_opt_out_still_returns_parent :
  find_element_by_text Util.filter_recurse Util.filter_recurse_all Samples.search_browser 1
    "a" false false []
  = (Ok (Some Samples.elem_p_a),
     [GetDocument (-1) true; PerformSearch "a" true; GetSearchResults "1" 0 2;
      DiscardSearchResults "1"; Disable])
  /\ Util.filter_recurse Samples.page (fun n => Z.eqb (Dom.node_id n) 3) = Some Samples.text_a
  /\ Dom.node_type Samples.text_a = 3%Z
  /\ node_type Samples.elem_p_a = 1%Z
  /\ Samples.elem_p_a <> create Samples.text_a 1 (Some Samples.page).
Proof.
  split; [reflexivity|]. split; [reflexivity|]. split; [reflexivity|].
  split; [reflexivity|]. discriminate.
Qed.

End TextSearchSamples.

(** ** The selector queries on a stale root *)

Section SelectorQueries.
Import Py Dom ElementPy TabPy.

Variable filter_recurse : Node -> (Node -> bool) -> option Node.
Variable browser : list request -> reply.
Variable self : Z.

Ltac run_query :=
  cbn [query_selector_all query_selector];
  repeat (progress unfold bindM, except_protocol, search_root, doc_node_id, update_handle,
            isinstance_Element, send, ret, raise, handle_node, getattr_last, delattr_last,
            setattr_last);
  cbn -[ElementPy.update].

(** The test [isinstance(_node, Element)] ends the handler: the root is
    not revalidated, whatever it is. *)
Lemma update_handle_raises (h : handle) (log : list request) :
  update_handle filter_recurse browser h log = (Raise (NameError "Element"), log).
Proof. reflexivity. Qed.

(** The root that is searched for a given [_node]. *)
Lemma search_root_of_handle (h : handle) (log : list request) :
  search_root browser (Some h) log
  = (Ok (if String.eqb (Dom.node_name (handle_node h)) "IFRAME"
         then Dom.content_document (handle_node h)
         else Some (handle_node h)),
     log).
Proof.
  unfold search_root. destruct (String.eqb (Dom.node_name (handle_node h)) "IFRAME");
    reflexivity.
Qed.

(** C2, as the code has it.  A selector query is rooted at an object on
    which the marker is not set.  When the browser answers the query
    with a "could not find node" error, the query raises [NameError]:
    the handler evaluates [isinstance(_node, Element)], and [tab.py] has
    no value for the name [Element].  Nothing is sent after the query
    that failed: the root is not revalidated and the query is not
    retried; no empty result is returned.  The same holds of
    [query_selector]. *)
Theorem C2_stale_root_raises_name_error
    (fuel : nat) (selector : string) (h : handle) (doc : Node) (log : list request) :
  getattr_last h = false ->
  (if String.eqb (Dom.node_name (handle_node h)) "IFRAME"
   then Dom.content_document (handle_node h)
   else Some (handle_node h)) = Some doc ->
  (forall message,
      browser (log ++ [QuerySelectorAll (Dom.node_id doc) selector]) = Error message ->
      could_not_find_node message = true ->
      query_selector_all filter_recurse browser self (S fuel) selector (Some h) log
      = (Raise (NameError "Element"),
         log ++ [QuerySelectorAll (Dom.node_id doc) selector]))
  /\ (forall message,
         browser (log ++ [QuerySelector (Dom.node_id doc) (strip selector)]) = Error message ->
         could_not_find_node message = true ->
         query_selector filter_recurse browser self (S fuel) selector (Some h) log
         = (Raise (NameError "Element"),
            log ++ [QuerySelector (Dom.node_id doc) (strip selector)])).
Proof.
  intros Hlast Hroot. split; intros message Hq Hc.
  - cbn [query_selector_all]. unfold bindM at 1. rewrite search_root_of_handle, Hroot.
    unfold bindM at 1. unfold except_protocol, bindM, doc_node_id, send, ret.
    rewrite Hq, Hc, Hlast. reflexivity.
  - cbn [query_selector]. unfold bindM at 1. rewrite search_root_of_handle, Hroot.
    unfold bindM at 1. unfold except_protocol, bindM, doc_node_id, send, ret.
    rewrite Hq, Hc, Hlast. reflexivity.
Qed.

(** Only a marker that something else has set on the root makes the
    queries return the empty result: the first "could not find node"
    then ends the query after that one request, and clears the marker. *)
Lemma query_selector_all_marker_skips_retry
      (fuel : nat) (selector : string) (e : Element) (log : list request)
      (message : option string) :
  String.eqb (Dom.node_name (_node e)) "IFRAME" = false ->
  browser (log ++ [QuerySelectorAll (Dom.node_id (_node e)) selector]) = Error message ->
  could_not_find_node message = true ->
  query_selector_all filter_recurse browser self (S fuel) selector
    (Some (mkHandle (AHandle e) true)) log
  = (Ok ([], Some (mkHandle (AHandle e) false)),
     log ++ [QuerySelectorAll (Dom.node_id (_node e)) selector]).
Proof.
  intros Hn Hq Hc. run_query. rewrite Hn. run_query. rewrite Hq, Hc. reflexivity.
Qed.

Lemma query_selector_marker_skips_retry
      (fuel : nat) (selector : string) (e : Element) (log : list request)
      (message : option string) :
  String.eqb (Dom.node_name (_node e)) "IFRAME" = false ->
  browser (log ++ [QuerySelector (Dom.node_id (_node e)) (strip selector)]) = Error message ->
  could_not_find_node message = true ->
  query_selector filter_recurse browser self (S fuel) selector
    (Some (mkHandle (AHandle e) true)) log
  = (Ok (None, Some (mkHandle (AHandle e) false)),
     log ++ [QuerySelector (Dom.node_id (_node e)) (strip selector)]).
Proof.
  intros Hn Hq Hc. run_query. rewrite Hn. run_query. rewrite Hq, Hc. reflexivity.
Qed.

(** *** The depth of the recursion

    The recursive call stands after the test that raises, so it is never
    reached: a depth of one is enough for every query, whatever the
    browser answers. *)

Lemma within_limit_ret {A} (a : A) : Samples.within_recursion_limit (ret a).
Proof. intros log. discriminate. Qed.

Lemma within_limit_raise {A} (e : exn) :
  e <> RecursionError -> Samples.within_recursion_limit (@raise A e).
Proof. intros He log H. apply He. simpl in H. congruence. Qed.

Lemma within_limit_bind {A B} (m : M A) (k : A -> M B) :
  Samples.within_recursion_limit m ->
  (forall a, Samples.within_recursion_limit (k a)) ->
  Samples.within_recursion_limit (bindM m k).
Proof.
  intros Hm Hk log. unfold bindM. specialize (Hm log).
  destruct (m log) as [[a|e] log']; [apply Hk|].
  simpl in *. congruence.
Qed.

Lemma within_limit_except {A} (m : M A) (handler : option string -> M A) :
  Samples.within_recursion_limit m ->
  (forall message, Samples.within_recursion_limit (handler message)) ->
  Samples.within_recursion_limit (except_protocol m handler).
Proof.
  intros Hm Hh log. unfold except_protocol. specialize (Hm log).
  destruct (m log) as [[a|e] log']; [exact Hm|].
  destruct e; try exact Hm. apply Hh.
Qed.

Lemma within_limit_send r : Samples.within_recursion_limit (send browser r).
Proof. intros log. unfold send. destruct (browser (log ++ [r])); discriminate. Qed.

Ltac within_limit :=
  repeat match goal with
    | |- Samples.within_recursion_limit (bindM _ _) => apply within_limit_bind; [ | intros ]
    | |- Samples.within_recursion_limit (except_protocol _ _) =>
        apply within_limit_except; [ | intros ]
    | |- Samples.within_recursion_limit (ret _) => apply within_limit_ret
    | |- Samples.within_recursion_limit (raise _) => apply within_limit_raise; discriminate
    | |- Samples.within_recursion_limit (send _ _) => apply within_limit_send
    | |- context [match ?x with _ => _ end] =>
        lazymatch x with
        | context [match _ with _ => _ end] => fail
        | _ => destruct x
        end
    end.

Lemma within_limit_search_root _node :
  Samples.within_recursion_limit (search_root browser _node).
Proof. unfold search_root, get_document. within_limit. Qed.

Lemma within_limit_disable :
  Samples.within_recursion_limit (disable_dom_agent browser).
Proof. unfold disable_dom_agent. within_limit. Qed.

(** The handler after the test that raises. *)
Lemma within_limit_after_update_handle {A} (h : handle) (k : handle -> M A) :
  Samples.within_recursion_limit (bindM (update_handle filter_recurse browser h) k).
Proof. intros log. unfold bindM. rewrite update_handle_raises. discriminate. Qed.

Lemma query_selector_all_within_limit fuel selector _node :
  Samples.within_recursion_limit
    (query_selector_all filter_recurse browser self (S fuel) selector _node).
Proof.
  cbn [query_selector_all].
  pose proof within_limit_search_root. pose proof within_limit_disable.
  apply within_limit_bind; [auto|]. intros doc.
  apply within_limit_bind.
  - apply within_limit_except.
    + unfold doc_node_id. within_limit.
    + intros message. destruct _node as [h|].
      * destruct (could_not_find_node message); [|within_limit].
        destruct (getattr_last h); [unfold delattr_last; within_limit|].
        apply within_limit_after_update_handle.
      * within_limit. auto.
  - intros tried. within_limit.
Qed.

Lemma query_selector_within_limit fuel selector _node :
  Samples.within_recursion_limit
    (query_selector filter_recurse browser self (S fuel) selector _node).
Proof.
  cbn [query_selector].
  pose proof within_limit_search_root. pose proof within_limit_disable.
  apply within_limit_bind; [auto|]. intros doc.
  apply within_limit_bind.
  - apply within_limit_except.
    + unfold doc_node_id. within_limit.
    + intros message. destruct _node as [h|].
      * destruct (could_not_find_node message); [|within_limit].
        destruct (getattr_last h); [unfold delattr_last; within_limit|].
        apply within_limit_after_update_handle.
      * within_limit. auto.
  - intros tried. within_limit.
Qed.

End SelectorQueries.

Section SelectorQuerySamples.
Import Py Dom ElementPy TabPy.

(** C2 on the handle of a [<div>] whose node id 2 the browser no longer
    knows: both queries end with [NameError] after their one request. *)
Lemma C2_stale_root_witness :
  query_selector_all Util.filter_recurse Samples.rebuilding_browser 1 2 "span"
    (Some Samples.div_handle) []
  = (Raise (NameError "Element"), [QuerySelectorAll 2 "span"])
  /\ query_selector Util.filter_recurse Samples.rebuilding_browser 1 2 "span"
       (Some Samples.div_handle) []
     = (Raise (NameError "Element"), [QuerySelector 2 "span"]).
Proof.
  destruct (C2_stale_root_raises_name_error Util.filter_recurse Samples.rebuilding_browser 1
              1 "span" Samples.div_handle Samples.div_before [] eq_refl eq_refl)
    as [Hall Hone].
  split; [exact (Hall _ eq_refl eq_refl) | exact (Hone _ eq_refl eq_refl)].
Defined.

(** A revalidation and a second query would find the [<span>] in this
    run: revalidating the handle gives the node id 12, and the browser
    answers a query on it. *)
Example revalidation_would_succeed :
  fst (ElementPy.update Util.filter_recurse Samples.rebuilding_browser
         (ElementPy.create Samples.div_before 1 (Some Samples.page_before))
         [QuerySelectorAll 2 "span"])
  = Ok Samples.div_handle_after
  /\ Samples.rebuilding_browser
       [QuerySelectorAll 2 "span"; GetDocument (-1) true; ResolveNodeByBackendId 202;
        QuerySelectorAll 12 "span"]
     = NodeIds [13%Z].
Proof. split; reflexivity. Qed.

End SelectorQuerySamples.

(* ===================================================================== *)
(** * Further properties of the generator *)
(* ===================================================================== *)

Section NameMapping.
Import Py GenerateCdp.

Lemma has_attr_In name : Builtins.has_attr name = true -> In name Builtins.names.
Proof.
  unfold Builtins.has_attr. rewrite existsb_exists.
  intros (x & Hx & E). apply String.eqb_eq in E. subst. exact Hx.
Qed.

(** No builtin name with an underscore appended is a builtin name. *)
Lemma builtin_with_underscore name :
  is_builtin name = true -> is_builtin (name ++ "_") = false.
Proof.
  intros H. apply has_attr_In in H.
  assert (Hall : forallb (fun n => negb (is_builtin (n ++ "_"))) Builtins.names = true)
    by (vm_compute; reflexivity).
  rewrite forallb_forall in Hall. specialize (Hall _ H).
  apply negb_true_iff in Hall. exact Hall.
Qed.

(** X1. The name that [snake_case] returns never shadows a builtin: where
    the snake-cased name is one, the appended underscore gives a name
    that is none. *)
Theorem X1_snake_case_never_shadows_a_builtin (name : string) :
  is_builtin (snake_case name) = false.
Proof.
  unfold snake_case.
  destruct (is_builtin (Inflection.underscore name)) eqn:E; [|exact E].
  apply builtin_with_underscore. exact E.
Qed.

(** *** [snake_case] on a name that is already in snake case *)

Lemma lower_char_not_upper c : is_upper (lower_char c) = false.
Proof. destruct c as [[] [] [] [] [] [] [] []]; reflexivity. Qed.

Lemma lower_char_fixed c : is_upper c = false -> lower_char c = c.
Proof. unfold lower_char. intros ->. reflexivity. Qed.

Lemma lower_char_hyphen c : lower_char c = "-"%char -> c = "-"%char.
Proof. destruct c as [[] [] [] [] [] [] [] []]; vm_compute; congruence. Qed.

Lemma lower_no_capitals s : Samples.no_capitals (lower s).
Proof.
  induction s as [|c s IH]; intros x; simpl; [intros []|].
  intros [<-|H]; [apply lower_char_not_upper | apply IH; exact H].
Qed.

Lemma lower_fixed s : Samples.no_capitals s -> lower s = s.
Proof.
  induction s as [|c s IH]; intros H; simpl; [reflexivity|].
  rewrite lower_char_fixed by (apply H; now left).
  rewrite IH; [reflexivity|]. intros x Hx. apply H. now right.
Qed.

Lemma replace_hyphen_free s : Samples.free_of "-" (replace_char "-" "_" s).
Proof.
  induction s as [|c s IH]; cbn [replace_char list_ascii_of_string In];
    intros H; [exact H|].
  destruct H as [H|H]; [|exact (IH H)].
  destruct (Ascii.eqb_spec "-" c) as [E|E]; [discriminate H | congruence].
Qed.

Lemma lower_hyphen_free s : Samples.free_of "-" s -> Samples.free_of "-" (lower s).
Proof.
  induction s as [|c s IH]; simpl; intros H Hin; [exact Hin|].
  destruct Hin as [E|Hin].
  - apply H. left. apply lower_char_hyphen. exact E.
  - apply IH; [|exact Hin]. intros H'. apply H. right. exact H'.
Qed.

Lemma replace_fixed s : Samples.free_of "-" s -> replace_char "-" "_" s = s.
Proof.
  induction s as [|c s IH]; intros H; cbn [replace_char]; [reflexivity|].
  destruct (Ascii.eqb_spec "-" c) as [E|E].
  - exfalso. apply H. left. symmetry. exact E.
  - rewrite IH; [reflexivity|]. intros H'. apply H. right. exact H'.
Qed.

Lemma no_capitals_tail c s : Samples.no_capitals (String c s) -> Samples.no_capitals s.
Proof. intros H x Hx. apply H. now right. Qed.

Lemma sub_acronym_fixed s : Samples.no_capitals s -> Inflection.sub_acronym s = s.
Proof.
  induction s as [|x t IH]; intros H; [reflexivity|].
  assert (Hx : is_upper x = false) by (apply H; now left).
  pose proof (IH (no_capitals_tail _ _ H)) as IHt.
  cbn [Inflection.sub_acronym]. rewrite Hx. cbn [andb].
  destruct t as [|y [|l u]]; rewrite IHt; reflexivity.
Qed.

Lemma sub_camel_fixed s : Samples.no_capitals s -> Inflection.sub_camel s = s.
Proof.
  induction s as [|x t IH]; intros H; [reflexivity|].
  pose proof (IH (no_capitals_tail _ _ H)) as IHt.
  cbn [Inflection.sub_camel]. destruct t as [|y u]; [reflexivity|].
  assert (Hy : is_upper y = false) by (apply H; right; now left).
  rewrite Hy, andb_false_r, IHt. reflexivity.
Qed.

Lemma underscore_fixed s :
  Samples.no_capitals s -> Samples.free_of "-" s -> Inflection.underscore s = s.
Proof.
  intros Hc Hh. unfold Inflection.underscore.
  rewrite sub_acronym_fixed, sub_camel_fixed, replace_fixed, lower_fixed; auto.
Qed.

Lemma no_capitals_app s t :
  Samples.no_capitals s -> Samples.no_capitals t -> Samples.no_capitals (s ++ t).
Proof.
  induction s as [|c s IH]; intros Hs Ht; [exact Ht|].
  intros x [<-|Hx].
  - apply Hs. now left.
  - apply (IH (no_capitals_tail _ _ Hs) Ht). exact Hx.
Qed.

Lemma free_of_app c s t :
  Samples.free_of c s -> Samples.free_of c t -> Samples.free_of c (s ++ t).
Proof.
  induction s as [|d s IH]; intros Hs Ht; [exact Ht|].
  intros [E|Hx].
  - apply Hs. now left.
  - apply IH; auto. intros H'. apply Hs. now right.
Qed.

Lemma snake_case_shape name :
  Samples.no_capitals (snake_case name) /\ Samples.free_of "-" (snake_case name).
Proof.
  assert (Hu : Samples.no_capitals (Inflection.underscore name))
    by apply lower_no_capitals.
  assert (Hh : Samples.free_of "-" (Inflection.underscore name))
    by (apply lower_hyphen_free, replace_hyphen_free).
  unfold snake_case. destruct (is_builtin (Inflection.underscore name)); [|now split].
  split.
  - apply no_capitals_app; [exact Hu|]. intros c [<-|[]]. reflexivity.
  - apply free_of_app; [exact Hh|]. intros [E|[]]. discriminate E.
Qed.

(** X2. [snake_case] is idempotent, and its result has no capital letter
    and no hyphen: a name that has been mapped is mapped to itself, also
    when an underscore was appended to it. *)
Theorem X2_snake_case_idempotent (name : string) :
  snake_case (snake_case name) = snake_case name
  /\ Samples.no_capitals (snake_case name)
  /\ Samples.free_of "-" (snake_case name).
Proof.
  destruct (snake_case_shape name) as [Hc Hh].
  split; [|split; assumption].
  unfold snake_case at 1. rewrite (underscore_fixed _ Hc Hh).
  assert (E : is_builtin (snake_case name) = false).
  { unfold snake_case.
    destruct (is_builtin (Inflection.underscore name)) eqn:E; [|exact E].
    apply builtin_with_underscore. exact E. }
  rewrite E. reflexivity.
Qed.

End NameMapping.

Section References.
Import Py GenerateCdp.

Lemma split_dot_nonempty s : split_dot s <> [].
Proof.
  destruct s as [|c s]; cbn [split_dot]; [discriminate|].
  destruct (Ascii.eqb c "."); [discriminate|].
  destruct (split_dot s); discriminate.
Qed.

Lemma free_of_tail c d s : Samples.free_of c (String d s) -> Samples.free_of c s.
Proof. intros H H'. apply H. now right. Qed.

Lemma free_of_head c d s : Samples.free_of c (String d s) -> Ascii.eqb d c = false.
Proof.
  intros H. destruct (Ascii.eqb_spec d c) as [E|E]; [|reflexivity].
  exfalso. apply H. left. exact E.
Qed.

(** A string without a dot is its only part. *)
Lemma split_dot_free s : Samples.free_of "." s -> split_dot s = [s].
Proof.
  induction s as [|c s IH]; intros H; cbn [split_dot]; [reflexivity|].
  rewrite (free_of_head _ _ _ H), (IH (free_of_tail _ _ _ H)). reflexivity.
Qed.

Lemma split_dot_app a b :
  Samples.free_of "." a -> split_dot (a ++ "." ++ b) = a :: split_dot b.
Proof.
  induction a as [|c a IH]; intros H.
  - reflexivity.
  - change ((String c a ++ "." ++ b)%string) with (String c (a ++ "." ++ b)).
    cbn [split_dot]. rewrite (free_of_head _ _ _ H), (IH (free_of_tail _ _ _ H)).
    reflexivity.
Qed.

(** The parts of a split have no dot. *)
Lemma split_dot_parts s : Forall (Samples.free_of ".") (split_dot s).
Proof.
  induction s as [|c s IH]; cbn [split_dot].
  - constructor; [intros []|constructor].
  - destruct (Ascii.eqb_spec c ".") as [E|E].
    + constructor; [intros []|exact IH].
    + destruct (split_dot s) as [|w ws]; [constructor; [|constructor]|].
      * intros [H|[]]. congruence.
      * inversion IH as [|? ? Hw Hws]. subst. constructor; [|exact Hws].
        intros [H|H]; [congruence | exact (Hw H)].
Qed.

(** A string is its parts joined by dots. *)
Lemma split_dot_join s : join "." (split_dot s) = s.
Proof.
  induction s as [|c s IH]; cbn [split_dot]; [reflexivity|].
  destruct (Ascii.eqb_spec c ".") as [E|E].
  - subst c. pose proof (split_dot_nonempty s) as Hne.
    destruct (split_dot s) as [|w ws] eqn:Hs; [contradiction|].
    cbn [join]. cbn [join] in IH. rewrite IH. reflexivity.
  - destruct (split_dot s) as [|w ws] eqn:Hs; [exfalso; eapply split_dot_nonempty; eauto|].
    destruct ws as [|w' ws]; cbn [join] in *; rewrite <- IH; reflexivity.
Qed.

Lemma prefix_app d s : prefix d (d ++ s) = true.
Proof.
  induction d as [|c d IH]; [destruct s; reflexivity|].
  cbn [append prefix]. destruct (ascii_dec c c); [exact IH | contradiction].
Qed.

Lemma drop_app d s : drop (String.length d) (d ++ s) = s.
Proof. induction d as [|c d IH]; [destruct s; reflexivity | exact IH]. Qed.

Lemma append_assoc (a b c : string) : ((a ++ b) ++ c = a ++ (b ++ c))%string.
Proof. induction a as [|x a IH]; [reflexivity|]. cbn [append]. rewrite IH. reflexivity. Qed.

(** A prefix that ends in a dot reaches to a dot of the string. *)
Lemma prefix_dot d s :
  prefix (d ++ ".") s = true -> exists rest, s = (d ++ "." ++ rest)%string.
Proof.
  revert s. induction d as [|c d IH]; intros s H.
  - destruct s as [|x s]; [discriminate|]. cbn [append prefix] in H.
    destruct (ascii_dec "." x) as [<-|]; [|discriminate]. exists s. reflexivity.
  - destruct s as [|x s]; [discriminate|]. cbn [append prefix] in H.
    destruct (ascii_dec c x) as [<-|]; [|discriminate].
    destruct (IH _ H) as [rest ->]. exists rest. reflexivity.
Qed.

Lemma prefix_dot_free d s : Samples.free_of "." s -> prefix (d ++ ".") s = false.
Proof.
  intros H. destruct (prefix (d ++ ".") s) eqn:E; [|reflexivity].
  destruct (prefix_dot _ _ E) as [rest ->]. exfalso. apply H.
  clear. induction d as [|c d IH]; [now left | now right].
Qed.

(** Two strings without dots that are followed by a dot in equal strings
    are equal. *)
Lemma dot_free_prefix_unique a b s t :
  Samples.free_of "." a -> Samples.free_of "." b ->
  (a ++ "." ++ s = b ++ "." ++ t)%string -> a = b.
Proof.
  revert b. induction a as [|c a IH]; intros b Ha Hb E.
  - destruct b as [|x b]; [reflexivity|]. injection E as E _.
    exfalso. apply Hb. left. symmetry. exact E.
  - destruct b as [|x b].
    + injection E as E _. exfalso. apply Ha. left. exact E.
    + injection E as <- E. f_equal.
      apply IH; [eapply free_of_tail; eauto | eapply free_of_tail; eauto | exact E].
Qed.

(** A ref into another domain does not start with the name of this
    domain and a dot. *)
Lemma prefix_other_domain domain other sub :
  Samples.free_of "." other -> Samples.free_of "." sub -> other <> domain ->
  prefix (domain ++ ".") (other ++ "." ++ sub) = false.
Proof.
  intros Ho Hs Hne.
  destruct (prefix (domain ++ ".") (other ++ "." ++ sub)) eqn:E; [|reflexivity].
  exfalso. destruct (prefix_dot _ _ E) as [rest Hrest].
  (* the first dot of the string ends [other]; [domain] has a dot only
     if it goes beyond it, and then [sub] has one *)
  assert (Hd : Samples.free_of "." domain \/ ~ Samples.free_of "." domain).
  { unfold Samples.free_of.
    destruct (in_dec ascii_dec "."%char (list_ascii_of_string domain)); tauto. }
  destruct Hd as [Hd|Hd].
  - apply Hne. eapply dot_free_prefix_unique; eauto.
  - apply Hd. clear Hd Hne E. revert other Ho Hrest.
    induction domain as [|c domain IH]; intros other Ho Hrest; [intros []|].
    destruct other as [|x other].
    + injection Hrest as <- Hrest. exfalso. apply Hs.
      rewrite Hrest. clear. induction domain as [|c d IH]; [now left | now right].
    + injection Hrest as <- Hrest. intros [H|H].
      * apply Ho. now left.
      * revert H. eapply IH; [eapply free_of_tail; eauto | exact Hrest].
Qed.

Lemma ref_to_python_free sub : Samples.free_of "." sub -> ref_to_python sub = Ok sub.
Proof. intros H. unfold ref_to_python. rewrite (split_dot_free _ H). reflexivity. Qed.

Lemma ref_to_python_dotted other sub :
  Samples.free_of "." other -> Samples.free_of "." sub ->
  ref_to_python (other ++ "." ++ sub) = Ok (snake_case other ++ "." ++ sub)%string.
Proof.
  intros Ho Hs. unfold ref_to_python.
  rewrite (split_dot_app _ _ Ho), (split_dot_free _ Hs). reflexivity.
Qed.

Lemma length_append_dot domain : String.length (domain ++ ".") = String.length domain + 1.
Proof.
  induction domain as [|c d IH]; [reflexivity|]. cbn [append String.length].
  rewrite IH. reflexivity.
Qed.

Lemma ref_to_python_domain_own domain sub :
  Samples.free_of "." sub ->
  ref_to_python_domain (domain ++ "." ++ sub) domain = Ok sub.
Proof.
  intros Hs. unfold ref_to_python_domain.
  rewrite <- append_assoc, prefix_app, <- length_append_dot, drop_app.
  apply ref_to_python_free. exact Hs.
Qed.

Lemma ref_to_python_domain_local domain sub :
  Samples.free_of "." sub -> ref_to_python_domain sub domain = Ok sub.
Proof.
  intros Hs. unfold ref_to_python_domain.
  rewrite (prefix_dot_free _ _ Hs). apply ref_to_python_free. exact Hs.
Qed.

Lemma ref_to_python_domain_foreign domain other sub :
  Samples.free_of "." other -> Samples.free_of "." sub -> other <> domain ->
  ref_to_python_domain (other ++ "." ++ sub) domain
  = Ok (snake_case other ++ "." ++ sub)%string.
Proof.
  intros Ho Hs Hne. unfold ref_to_python_domain.
  rewrite (prefix_other_domain _ _ _ Ho Hs Hne).
  apply ref_to_python_dotted; assumption.
Qed.

(** X3. [ref_to_python_domain] writes a ref to a type of the domain itself
    without qualifier, whether or not the ref names the domain, and a ref
    to a type of another domain with the module name of that domain,
    that is its snake-cased name, as qualifier. *)
Theorem X3_own_refs_unqualified_foreign_refs_qualified (domain other sub : string) :
  Samples.free_of "." other -> Samples.free_of "." sub -> other <> domain ->
  ref_to_python_domain (domain ++ "." ++ sub) domain = Ok sub
  /\ ref_to_python_domain sub domain = Ok sub
  /\ ref_to_python_domain (other ++ "." ++ sub) domain
     = Ok (snake_case other ++ "." ++ sub)%string.
Proof.
  intros Ho Hs Hne. split; [|split].
  - apply ref_to_python_domain_own. exact Hs.
  - apply ref_to_python_domain_local. exact Hs.
  - apply ref_to_python_domain_foreign; assumption.
Qed.

(** X3 on the refs [DOM.NodeId], [NodeId] and [Page.NodeId] in the
    domain [DOM]. *)
Lemma X3_refs_witness :
  ref_to_python_domain "DOM.NodeId" "DOM" = Ok "NodeId"
  /\ ref_to_python_domain "NodeId" "DOM" = Ok "NodeId"
  /\ ref_to_python_domain "Page.NodeId" "DOM" = Ok "page.NodeId".
Proof.
  apply (X3_own_refs_unqualified_foreign_refs_qualified "DOM" "Page" "NodeId").
  - unfold Samples.free_of. simpl. intros H.
    repeat (destruct H as [H|H]; [discriminate H|]). exact H.
  - unfold Samples.free_of. simpl. intros H.
    repeat (destruct H as [H|H]; [discriminate H|]). exact H.
  - discriminate.
Defined.

End References.

Section ParsedItems.
Import Py GenerateCdp.

Lemma items_from_json_ok j i :
  CdpItems.from_json j = Ok i ->
  str_truthy (CdpItems.ref i) = true /\ str_truthy (CdpItems.type i) = true.
Proof.
  unfold CdpItems.from_json. intros H.
  destruct (Json.get j "type") as [o_type|]; cbn [bind] in H; [|discriminate].
  destruct (Json.get j "$ref") as [o_ref|]; cbn [bind] in H; [|discriminate].
  set (type_ := match o_type with Some v => v | None => Json.Str "any" end) in *.
  set (ref := match o_ref with Some v => v | None => Json.Null end) in *.
  destruct (Json.truthy type_) eqn:Ht; cbn [negb orb] in H; [|discriminate].
  destruct (Json.truthy ref) eqn:Hr; cbn [negb] in H; [|discriminate].
  destruct type_; cbn [Json.as_str bind] in H; try discriminate.
  destruct ref; cbn [Json.as_str bind] in H; try discriminate.
  injection H as <-. cbn [CdpItems.ref CdpItems.type]. split; assumption.
Qed.

(** X4. An [items] object without a [$ref] is refused with a
    [ValueError], whatever else it holds: the item type of an array of
    primitives, given by [type] alone, is not accepted. *)
Theorem X4_items_without_ref_are_refused (fields : list (string * Json.t)) :
  Json.lookup "$ref" fields = None ->
  exists msg, CdpItems.from_json (Json.Obj fields) = Raise (ValueError msg).
Proof.
  intros H. unfold CdpItems.from_json. cbn [Json.get bind]. rewrite H.
  cbn [Json.truthy negb]. rewrite orb_true_r. eauto.
Qed.

(** X4 on [{"type": "string"}]. *)
Lemma X4_items_witness :
  exists msg,
    CdpItems.from_json (Json.Obj [("type", Json.Str "string")]) = Raise (ValueError msg).
Proof.
  apply (X4_items_without_ref_are_refused [("type", Json.Str "string")]).
  reflexivity.
Defined.

Ltac bind_ok H :=
  repeat match type of H with
         | bind ?m _ = Ok _ =>
             let E := fresh "E" in
             destruct m eqn:E; cbn [bind] in H; [|discriminate H]
         end.

Lemma property_items_ok prop domain p i :
  CdpProperty.from_json prop domain = Ok p -> CdpProperty.items p = Some i ->
  str_truthy (CdpItems.ref i) = true /\ str_truthy (CdpItems.type i) = true.
Proof.
  unfold CdpProperty.from_json. intros H Hi. bind_ok H. injection H as <-.
  cbn [CdpProperty.items] in Hi. subst.
  match goal with E : items_from_json _ = Ok _ |- _ => rename E into Hitems end.
  unfold items_from_json in Hitems.
  destruct (Json.has prop "items") as [[|]|]; cbn [bind] in Hitems; try discriminate.
  destruct (Json.item prop "items") as [v|]; cbn [bind] in Hitems; [|discriminate].
  destruct (CdpItems.from_json v) as [i'|] eqn:Hv; cbn [bind] in Hitems; [|discriminate].
  injection Hitems as <-. eapply items_from_json_ok; eauto.
Qed.

(** X5. Every property that [CdpProperty.from_json] returns with [items]
    has items with a [$ref]; so the code emitted to export it always
    calls [to_json] on each item of the list. *)
Theorem X5_parsed_items_carry_a_ref
    (prop : Json.t) (domain : string) (p : CdpProperty.t) (i : CdpItems.t) :
  CdpProperty.from_json prop domain = Ok p ->
  CdpProperty.items p = Some i ->
  str_truthy (CdpItems.ref i) = true
  /\ forall dict_ use_self,
      generate_to_json p dict_ use_self
      = let assign :=
          SetItem dict_ (CdpProperty.name p)
                  (ListComp (ToJson (Name "i")) (target p use_self)) in
        if CdpProperty.optional p then IfNotNone (target p use_self) assign else assign.
Proof.
  intros H Hi. destruct (property_items_ok _ _ _ _ H Hi) as [Hr _].
  split; [exact Hr|]. intros dict_ use_self.
  unfold generate_to_json. rewrite Hi, Hr. reflexivity.
Qed.

(** X5 on the property [nodeIds], an array of [NodeId]. *)
Lemma X5_parsed_items_witness :
  exists p i,
    CdpProperty.from_json
      (Json.Obj [("name", Json.Str "nodeIds"); ("type", Json.Str "array");
                 ("items", Json.Obj [("$ref", Json.Str "NodeId")])]) "DOM" = Ok p
    /\ CdpProperty.items p = Some i
    /\ str_truthy (CdpItems.ref i) = true
    /\ generate_to_json p "params" false
       = SetItem "params" "nodeIds" (ListComp (ToJson (Name "i")) (Name "node_ids")).
Proof.
  eexists. eexists. split; [reflexivity|]. split; [reflexivity|].
  match goal with
  | |- str_truthy (CdpItems.ref ?i) = true /\ generate_to_json ?p _ _ = _ =>
      destruct (X5_parsed_items_carry_a_ref
                  (Json.Obj [("name", Json.Str "nodeIds"); ("type", Json.Str "array");
                             ("items", Json.Obj [("$ref", Json.Str "NodeId")])])
                  "DOM" p i eq_refl eq_refl) as [Hr Hg]
  end.
  split; [exact Hr|]. rewrite Hg. reflexivity.
Defined.

(** *** Annotations *)

Lemma annotation_and_constructor ty val e :
  get_annotation ty = Raise e <-> get_constructor ty val = Raise e.
Proof.
  unfold get_annotation, get_constructor. destruct ty as [ty|]; [|split; discriminate].
  destruct (negb (str_truthy ty) || String.eqb ty "any"); [split; discriminate|].
  destruct (CdpPrimitiveType ty); cbn [bind]; split; intros H; congruence.
Qed.

Lemma bind_raise {A B} (m : result A) (k : A -> result B) e :
  (forall a, k a <> Raise e) -> (bind m k = Raise e <-> m = Raise e).
Proof.
  intros Hk. destruct m as [a|e']; cbn [bind]; split; intros H.
  - exfalso. exact (Hk a H).
  - discriminate.
  - injection H as ->. reflexivity.
  - injection H as ->. reflexivity.
Qed.

(** X6. The annotation and the decoder of a property fail together: for
    every property, [CdpProperty.py_annotation] raises an exception
    exactly when [CdpProperty.generate_from_json] raises it, that is for
    a ref with too many dots or a type that is not primitive.  A
    property that can be declared can be decoded. *)
Theorem X6_annotation_and_decoder_fail_together
    (p : CdpProperty.t) (dict_ : string) (e : exn) :
  py_annotation p = Raise e <-> generate_from_json p dict_ = Raise e.
Proof.
  unfold py_annotation, generate_from_json.
  rewrite !bind_raise by discriminate.
  destruct (CdpProperty.items p) as [items|].
  - destruct (str_truthy (CdpItems.ref items)).
    + rewrite !bind_raise by discriminate. reflexivity.
    + rewrite !bind_raise by discriminate. apply annotation_and_constructor.
  - destruct (CdpProperty.ref p) as [ref|]; [destruct (str_truthy ref)|].
    + rewrite !bind_raise by discriminate. reflexivity.
    + apply annotation_and_constructor.
    + apply annotation_and_constructor.
Qed.

End ParsedItems.

Section Imports.
Import Py GenerateCdp.

Lemma insert_sorted_In x y l : In y (insert_sorted x l) <-> y = x \/ In y l.
Proof.
  induction l as [|z l IH]; cbn [insert_sorted].
  - simpl. intuition.
  - destruct (String.eqb_spec x z) as [E|E].
    + subst z. simpl. intuition.
    + destruct (String.ltb x z); simpl; [intuition|].
      rewrite IH. intuition.
Qed.

Lemma sorted_set_In y l : In y (sorted_set l) <-> In y l.
Proof.
  induction l as [|x l IH]; cbn [sorted_set fold_right]; [reflexivity|].
  fold (sorted_set l). rewrite insert_sorted_In, IH. simpl. intuition.
Qed.

(** The refs of a property with a decoder are among those that
    [generate_imports] collects. *)
Lemma decoded_refs_collected p d ref :
  Samples.decoded_in p d -> In ref (CdpProperty.get_refs p) -> In ref (domain_refs d).
Proof.
  intros [(c & Hc & Hp)|[(ev & Hev & Hp)|(ty & Hty & Henum & Hp)]] Hr;
    unfold domain_refs; rewrite !in_app_iff.
  - right. left. apply in_flat_map. exists c. split; [exact Hc|].
    unfold CdpCommand.get_refs. apply in_flat_map. exists p.
    split; [apply in_or_app; now right | exact Hr].
  - right. right. apply in_flat_map. exists ev. split; [exact Hev|].
    unfold CdpEvent.get_refs. apply in_flat_map. eauto.
  - left. apply in_flat_map. exists ty. split; [exact Hty|].
    unfold CdpType.get_refs. rewrite Henum.
    destruct (CdpType.properties ty) as [|q qs] eqn:Hq; [destruct Hp|].
    apply in_flat_map. eauto.
Qed.

(** The Python name of a collected ref with at most one dot is without
    qualifier, or qualified by a module that is imported. *)
Lemma collected_ref_imported d ref py :
  In ref (domain_refs d) ->
  length (split_dot ref) <= 2 ->
  ref_to_python_domain ref (CdpDomain.domain d) = Ok py ->
  Samples.free_of "." py
  \/ exists module name,
      py = (module ++ "." ++ name)%string
      /\ In module (sorted_set (dependencies d)).
Proof.
  intros Hin Hlen Hpy.
  pose proof (split_dot_join ref) as Hjoin.
  pose proof (split_dot_parts ref) as Hparts.
  destruct (split_dot ref) as [|a [|b [|x rest]]] eqn:Hs.
  - exfalso. eapply split_dot_nonempty; eauto.
  - cbn [join] in Hjoin. subst a. inversion Hparts as [|? ? Hfree _]. subst.
    rewrite (ref_to_python_domain_local _ _ Hfree) in Hpy. injection Hpy as <-.
    left. exact Hfree.
  - cbn [join] in Hjoin. inversion Hparts as [|? ? Ha Hrest]. subst.
    inversion Hrest as [|? ? Hb _]. subst.
    destruct (String.eqb_spec a (CdpDomain.domain d)) as [E|E].
    + subst a. rewrite (ref_to_python_domain_own _ _ Hb) in Hpy.
      injection Hpy as <-. left. exact Hb.
    + rewrite (ref_to_python_domain_foreign _ _ _ Ha Hb E) in Hpy.
      injection Hpy as <-. right. exists (snake_case a), b. split; [reflexivity|].
      apply sorted_set_In. unfold dependencies. apply in_flat_map.
      exists (a ++ "." ++ b)%string. split; [exact Hin|]. rewrite Hs.
      destruct (String.eqb_spec a (CdpDomain.domain d)); [contradiction | now left].
  - simpl in Hlen. lia.
Qed.

Lemma constructor_classes ty val e :
  get_constructor ty val = Ok e -> Samples.classes_of e = Samples.classes_of val.
Proof.
  unfold get_constructor. destruct ty as [ty|]; [|intros H; injection H as <-; reflexivity].
  destruct (negb (str_truthy ty) || String.eqb ty "any");
    [intros H; injection H as <-; reflexivity|].
  destruct (CdpPrimitiveType ty); cbn [bind]; [|discriminate].
  intros H. injection H as <-. reflexivity.
Qed.

(** The classes of the decoder of a property are the Python names of its
    refs. *)
Lemma decoder_classes p dict_ e cls :
  generate_from_json p dict_ = Ok e ->
  In cls (Samples.classes_of e) ->
  exists ref,
    In ref (CdpProperty.get_refs p)
    /\ ref_to_python_domain ref (CdpProperty.domain p) = Ok cls.
Proof.
  unfold generate_from_json, CdpProperty.get_refs. intros H Hcls.
  match type of H with bind ?m _ = _ => destruct m as [e0|] eqn:He0 end;
    cbn [bind] in H; [|discriminate].
  injection H as <-.
  assert (Hcls0 : In cls (Samples.classes_of e0))
    by (destruct (CdpProperty.optional p); exact Hcls).
  clear Hcls.
  destruct (CdpProperty.items p) as [items|].
  - destruct (str_truthy (CdpItems.ref items)).
    + destruct (ref_to_python_domain (CdpItems.ref items) (CdpProperty.domain p))
        as [py|] eqn:Hpy; cbn [bind] in He0; [|discriminate].
      injection He0 as <-. cbn in Hcls0. destruct Hcls0 as [<-|[]].
      exists (CdpItems.ref items). split; [now left | exact Hpy].
    + destruct (get_constructor (Some (CdpItems.type items)) (Name "i")) as [c|] eqn:Hc;
        cbn [bind] in He0; [|discriminate].
      injection He0 as <-. cbn in Hcls0. rewrite app_nil_r in Hcls0.
      rewrite (constructor_classes _ _ _ Hc) in Hcls0. destruct Hcls0.
  - destruct (CdpProperty.ref p) as [ref|]; [destruct (str_truthy ref)|].
    + destruct (ref_to_python_domain ref (CdpProperty.domain p)) as [py|] eqn:Hpy;
        cbn [bind] in He0; [|discriminate].
      injection He0 as <-. cbn in Hcls0. destruct Hcls0 as [<-|[]].
      exists ref. split; [now left | exact Hpy].
    + rewrite (constructor_classes _ _ _ He0) in Hcls0. destruct Hcls0.
    + rewrite (constructor_classes _ _ _ He0) in Hcls0. destruct Hcls0.
Qed.

(** X7. The imports that [generate_imports] computes cover the decoders of
    the module.  For a property of the domain with a decoder (a return
    value of a command, a parameter of an event, a property of a class
    type) whose refs have at most one dot, every class whose
    [from_json] the emitted decoder calls is named without qualifier, or
    is qualified by a module among the sorted dependencies that are
    imported. *)
Theorem X7_decoder_classes_are_local_or_imported
    (d : CdpDomain.t) (p : CdpProperty.t) (e : expr) (cls : string) :
  Samples.decoded_in p d ->
  CdpProperty.domain p = CdpDomain.domain d ->
  (forall ref, In ref (CdpProperty.get_refs p) -> length (split_dot ref) <= 2) ->
  generate_from_json p "json" = Ok e ->
  In cls (Samples.classes_of e) ->
  Samples.free_of "." cls
  \/ exists module name,
      cls = (module ++ "." ++ name)%string
      /\ In module (sorted_set (dependencies d)).
Proof.
  intros Hp Hdom Hdots He Hcls.
  destruct (decoder_classes _ _ _ _ He Hcls) as (ref & Href & Hpy).
  rewrite Hdom in Hpy.
  eapply collected_ref_imported; eauto.
  eapply decoded_refs_collected; eauto.
Qed.

(** X7 on the return value [object] of [DOM.resolveNode], a
    [Runtime.RemoteObject]. *)
Lemma X7_imports_witness :
  generate_imports Samples.dom_domain = "from . import runtime"
  /\ (Samples.free_of "." "runtime.RemoteObject"
      \/ exists module name,
          "runtime.RemoteObject" = (module ++ "." ++ name)%string
          /\ In module (sorted_set (dependencies Samples.dom_domain))).
Proof.
  split; [reflexivity|].
  apply (X7_decoder_classes_are_local_or_imported
           Samples.dom_domain
           (Samples.property "object" None (Some "Runtime.RemoteObject") false "DOM")
           (FromJson "runtime.RemoteObject" (Subscript "json" "object"))
           "runtime.RemoteObject").
  - left. exists Samples.resolve_node_command. split; now left.
  - reflexivity.
  - intros ref [<-|[]]. simpl. lia.
  - reflexivity.
  - now left.
Defined.

End Imports.

Section PatchErrors.
Import Py GenerateCdp.

#[local] Abbreviation is_resolve_node :=
  (fun c : CdpCommand.t => String.eqb (CdpCommand.name c) "resolveNode").

Lemma patch_resolve_node_raises cmds e :
  patch_resolve_node cmds = Raise e
  <-> e = IndexError
      /\ exists cmd, find is_resolve_node cmds = Some cmd
                     /\ length (CdpCommand.parameters cmd) < 2.
Proof.
  induction cmds as [|c rest IH]; cbn [patch_resolve_node find].
  - split; [discriminate | intros (_ & cmd & H & _); discriminate].
  - destruct (String.eqb (CdpCommand.name c) "resolveNode").
    + destruct (CdpCommand.parameters c) as [|p0 [|p1 ps]] eqn:Hp.
      * split.
        -- intros H. injection H as <-. split; [reflexivity|].
           exists c. rewrite Hp. split; [reflexivity | simpl; lia].
        -- intros (-> & _). reflexivity.
      * split.
        -- intros H. injection H as <-. split; [reflexivity|].
           exists c. rewrite Hp. split; [reflexivity | simpl; lia].
        -- intros (-> & _). reflexivity.
      * split; [discriminate|].
        intros (_ & cmd & H & Hlen). injection H as <-. rewrite Hp in Hlen.
        simpl in Hlen. lia.
    + destruct (patch_resolve_node rest) as [rest'|e'] eqn:Hrest; cbn [bind].
      * split; [discriminate|]. intros H. apply IH in H. discriminate.
      * rewrite <- IH. split; intros H; congruence.
Qed.

Lemma fix_domain_raises d e :
  fix_domain d = Raise e
  <-> e = IndexError
      /\ CdpDomain.domain d = "DOM"
      /\ exists cmd, find is_resolve_node (CdpDomain.commands d) = Some cmd
                     /\ length (CdpCommand.parameters cmd) < 2.
Proof.
  unfold fix_domain. destruct (String.eqb_spec (CdpDomain.domain d) "DOM") as [E|E].
  - destruct (patch_resolve_node (CdpDomain.commands d)) as [cmds|e'] eqn:Hp; cbn [bind].
    + split; [discriminate|]. intros (-> & _ & H).
      assert (Hr : patch_resolve_node (CdpDomain.commands d) = Raise IndexError)
        by (apply patch_resolve_node_raises; auto).
      congruence.
    + apply patch_resolve_node_raises in Hp. destruct Hp as (-> & H).
      split; [intros H'; injection H' as <-; auto | intros (-> & _); reflexivity].
  - split.
    + destruct (String.eqb (CdpDomain.domain d) "Page"); [discriminate|].
      destruct (String.eqb (CdpDomain.domain d) "Network"); discriminate.
    + intros (_ & H & _). contradiction.
Qed.

Lemma mapM_raises {A B} (f : A -> result B) (l : list A) e :
  mapM f l = Raise e -> exists x, In x l /\ f x = Raise e.
Proof.
  induction l as [|x l IH]; cbn [mapM]; [discriminate|].
  destruct (f x) as [y|e'] eqn:Hx; cbn [bind].
  - destruct (mapM f l) as [ys|e'']; cbn [bind]; [discriminate|].
    intros H. injection H as <-. destruct (IH eq_refl) as (x' & Hin & Hx').
    exists x'. split; [now right | exact Hx'].
  - intros H. injection H as <-. exists x. split; [now left | exact Hx].
Qed.

Lemma mapM_raises_one {A B} (f : A -> result B) (l : list A) e x :
  (forall y e', f y = Raise e' -> e' = e) ->
  In x l -> f x = Raise e -> mapM f l = Raise e.
Proof.
  intros Hone. induction l as [|y l IH]; cbn [mapM]; [intros []|].
  intros [<-|Hin] Hx.
  - rewrite Hx. reflexivity.
  - destruct (f y) as [z|e'] eqn:Hy; cbn [bind].
    + rewrite (IH Hin Hx). reflexivity.
    + rewrite (Hone _ _ Hy). reflexivity.
Qed.

(** X8. [fix_protocol_spec] raises in one case only: it raises
    [IndexError], and does so exactly when a domain called [DOM] has a
    first command [resolveNode] with fewer than two parameters, whose
    second parameter the first patch fails to reach. *)
Theorem X8_fix_protocol_spec_raises_index_error_only
    (domains : list CdpDomain.t) (e : exn) :
  fix_protocol_spec domains = Raise e
  <-> e = IndexError
      /\ exists d cmd,
          In d domains
          /\ CdpDomain.domain d = "DOM"
          /\ find is_resolve_node (CdpDomain.commands d) = Some cmd
          /\ length (CdpCommand.parameters cmd) < 2.
Proof.
  unfold fix_protocol_spec. split.
  - intros H. apply mapM_raises in H. destruct H as (d & Hin & Hd).
    apply fix_domain_raises in Hd. destruct Hd as (-> & Hdom & cmd & Hf & Hlen).
    split; [reflexivity|]. exists d, cmd. auto.
  - intros (-> & d & cmd & Hin & Hdom & Hf & Hlen).
    apply (mapM_raises_one fix_domain domains IndexError d).
    + intros y e' Hy. apply fix_domain_raises in Hy. tauto.
    + exact Hin.
    + apply fix_domain_raises. eauto.
Qed.

(** *** What the patches leave alone *)

Lemma patch_resolve_node_names cmds cmds' :
  patch_resolve_node cmds = Ok cmds' ->
  map CdpCommand.name cmds' = map CdpCommand.name cmds
  /\ map CdpCommand.returns cmds' = map CdpCommand.returns cmds.
Proof.
  revert cmds'. induction cmds as [|c rest IH]; cbn [patch_resolve_node]; intros cmds' H.
  - injection H as <-. split; reflexivity.
  - destruct (String.eqb (CdpCommand.name c) "resolveNode").
    + destruct (CdpCommand.parameters c) as [|p0 [|p1 ps]]; try discriminate.
      injection H as <-. split; reflexivity.
    + destruct (patch_resolve_node rest) as [rest'|]; cbn [bind] in H; [|discriminate].
      injection H as <-. destruct (IH _ eq_refl) as [E1 E2].
      cbn [map]. rewrite E1, E2. split; reflexivity.
Qed.

Lemma patch_screencast_names events :
  map CdpEvent.name (patch_screencast events) = map CdpEvent.name events
  /\ map CdpEvent.parameters (patch_screencast events) = map CdpEvent.parameters events.
Proof.
  induction events as [|ev rest [IH1 IH2]]; cbn [patch_screencast]; [split; reflexivity|].
  destruct (String.eqb (CdpEvent.name ev) "screencastVisibilityChanged").
  - split; reflexivity.
  - cbn [map]. rewrite IH1, IH2. split; reflexivity.
Qed.

(** X9. The patches keep the shape of the schema.  When
    [fix_protocol_spec] returns, the domains are those it was given, in
    the same order, with the same names; the commands of a domain other
    than [DOM], the events of a domain other than [Page] and the types
    of a domain other than [Network] are what they were; and in every
    domain the commands keep their names and return values and the
    events their names and parameters. *)
Theorem X9_patches_keep_the_shape (domains patched : list CdpDomain.t) :
  fix_protocol_spec domains = Ok patched ->
  Forall2
    (fun d d' =>
       CdpDomain.domain d' = CdpDomain.domain d
       /\ CdpDomain.dependencies d' = CdpDomain.dependencies d
       /\ (CdpDomain.domain d <> "DOM" -> CdpDomain.commands d' = CdpDomain.commands d)
       /\ (CdpDomain.domain d <> "Page" -> CdpDomain.events d' = CdpDomain.events d)
       /\ (CdpDomain.domain d <> "Network" -> CdpDomain.types d' = CdpDomain.types d)
       /\ map CdpCommand.name (CdpDomain.commands d')
          = map CdpCommand.name (CdpDomain.commands d)
       /\ map CdpCommand.returns (CdpDomain.commands d')
          = map CdpCommand.returns (CdpDomain.commands d)
       /\ map CdpEvent.name (CdpDomain.events d')
          = map CdpEvent.name (CdpDomain.events d)
       /\ map CdpEvent.parameters (CdpDomain.events d')
          = map CdpEvent.parameters (CdpDomain.events d))
    domains patched.
Proof.
  unfold fix_protocol_spec. intros H. apply mapM_Forall2 in H.
  induction H as [|d d' ds ds' Hd _ IH]; constructor; [|exact IH].
  clear IH. unfold fix_domain in Hd.
  destruct (String.eqb_spec (CdpDomain.domain d) "DOM") as [E1|E1].
  - destruct (patch_resolve_node (CdpDomain.commands d)) as [cmds|] eqn:Hp;
      cbn [bind] in Hd; [|discriminate].
    injection Hd as <-. destruct (patch_resolve_node_names _ _ Hp) as [N1 N2].
    cbn. rewrite N1, N2. repeat split; try reflexivity. intros H. contradiction.
  - destruct (String.eqb_spec (CdpDomain.domain d) "Page") as [E2|E2].
    + injection Hd as <-. destruct (patch_screencast_names (CdpDomain.events d)) as [N1 N2].
      cbn. rewrite N1, N2. repeat split; try reflexivity. intros H. contradiction.
    + destruct (String.eqb_spec (CdpDomain.domain d) "Network") as [E3|E3].
      * injection Hd as <-. cbn. repeat split; try reflexivity. intros H. contradiction.
      * injection Hd as <-. repeat split; reflexivity.
Qed.

(** X9 on the three sample domains. *)
Lemma X9_patches_witness :
  exists patched,
    fix_protocol_spec Samples.parsed_domains = Ok patched
    /\ map CdpDomain.domain patched = ["DOM"; "Network"; "Page"].
Proof.
  eexists. split; [reflexivity|].
  pose proof (X9_patches_keep_the_shape Samples.parsed_domains _ eq_refl) as H.
  inversion H as [|d1 d1' l1 l1' (E1 & _) H1]. subst.
  inversion H1 as [|d2 d2' l2 l2' (E2 & _) H2]. subst.
  inversion H2 as [|d3 d3' l3 l3' (E3 & _) H3]. subst.
  reflexivity.
Defined.

End PatchErrors.

Section WrittenFiles.
Import Py GenerateCdp.

Variable generate_code : CdpDomain.t -> result string.
Variable format : list file -> result unit.

#[local] Abbreviation module_file :=
  (fun dc : CdpDomain.t * string => ModuleFile (CdpDomain.module (fst dc) ++ ".py") (snd dc)).








End WrittenFiles.

Section WrittenFilesSamples.
Import Py GenerateCdp.


End WrittenFilesSamples.

Section EmittedDecoders.
Import Py GenerateCdp Generated.

Variable method_to_json : value -> result value.
Variable class_from_json : string -> value -> result value.
Variable builtin_call : string -> value -> result value.

#[local] Abbreviation eval := (Generated.eval method_to_json class_from_json builtin_call).
#[local] Abbreviation exec := (Generated.exec method_to_json class_from_json builtin_call).
#[local] Abbreviation exec_simples :=
  (Generated.exec_simples method_to_json class_from_json builtin_call).

(** The decoder of a property reads the local name [json] only. *)
Lemma decoder_reads_json_only p e locals sent :
  generate_from_json p "json" = Ok e ->
  lookup "json" locals = Some sent ->
  eval e locals = eval e [("json", sent)].
Proof.
  intros H Hl. unfold generate_from_json in H.
  match type of H with
  | bind ?m _ = _ => destruct m as [base|] eqn:Hb; cbn [bind] in H; [|discriminate]
  end.
  injection H as <-.
  assert (Hbase : eval base locals = eval base [("json", sent)]).
  { unfold get_constructor, bind in Hb.
    repeat match type of Hb with
           | context [match ?x with _ => _ end] =>
               lazymatch x with
               | context [match _ with _ => _ end] => fail
               | _ => destruct x eqn:?; try discriminate
               end
           end;
      injection Hb as <-; simpl; unfold name_lookup; rewrite Hl; reflexivity. }
  destruct (CdpProperty.optional p); [|exact Hbase].
  simpl. unfold name_lookup. rewrite Hl, Hbase. reflexivity.
Qed.

Lemma decoders_read_json_only rs es locals sent :
  mapM (fun r => generate_return r "json") rs = Ok es ->
  lookup "json" locals = Some sent ->
  mapM (fun e => eval e locals) es = mapM (fun e => eval e [("json", sent)]) es.
Proof.
  intros H Hl. apply mapM_Forall2 in H.
  induction H as [|r e rs es Hr _ IH]; [reflexivity|].
  cbn [mapM]. rewrite IH. unfold generate_return in Hr.
  rewrite (decoder_reads_json_only _ _ _ _ Hr Hl). reflexivity.
Qed.

(** X11. The function emitted for a command is one in which no local
    name, a parameter or one of [params], [cmd_dict] and [json], is the
    name of a class, module or constructor that the body calls.  What it
    returns is then decoded from the response alone: when the generator
    has yielded its request and is resumed with the response, it
    finishes with [None] for a command
    without return values, with the decoded value for a command with
    one, and with the tuple of the decoded values, in schema order, for a
    command with several; each value is what the decoder of the return
    value gives in an environment that holds nothing but the response,
    so no argument of the call can reach the result.  (A parameter with
    the name of a module that a decoder names would take its place.) *)
Theorem X11_command_result_is_decoded_from_the_response
    (c : CdpCommand.t) (body : list stmt) (kwargs : list (string * value))
    (request : value) (resume : value -> gen) (sent : value) :
  command_body c = Ok body ->
  well_scoped (command_locals c) body = true ->
  Generated.call_command method_to_json class_from_json builtin_call c body kwargs
  = Yielded request resume ->
  resume sent
  = Done
      match CdpCommand.returns c with
      | [] => Ok VNone
      | [r] => (e <- generate_return r "json" ;; eval e [("json", sent)])
      | rs =>
          (es <- mapM (fun r => generate_return r "json") rs ;;
           vs <- mapM (fun e => eval e [("json", sent)]) es ;;
           Ok (VTuple vs))
      end.
Proof.
  intros Hbody _ Hcall. unfold Generated.call_command in Hcall.
  destruct (valid_function (command_signature c) body); [|discriminate].
  destruct (bind_arguments (command_signature c) kwargs) as [locals|]; [|discriminate].
  unfold command_body in Hbody.
  match type of Hbody with
  | bind ?m _ = _ => destruct m as [ret|] eqn:Hret
  end; unfold bind in Hbody; cbv beta iota zeta in Hbody; [|discriminate].
  injection Hbody as <-.
  set (pre := (if nonempty (CdpCommand.parameters c) then [NewDict "params"] else [])
                ++ map (fun p => generate_to_json p "params" false) (CdpCommand.parameters c)).
  match type of Hcall with
  | Generated.exec _ _ _ (_ ++ _ ++ Do ?cmd :: ?y :: ret) locals = _ =>
      assert (Hshape :
                (if nonempty (CdpCommand.parameters c) then [Do (NewDict "params")] else [])
                  ++ map (fun p => Do (generate_to_json p "params" false))
                         (CdpCommand.parameters c)
                  ++ Do cmd :: y :: ret
                = map Do (pre ++ [cmd]) ++ y :: ret)
  end.
  { unfold pre. rewrite !map_app, map_map, <- !app_assoc.
    destruct (nonempty (CdpCommand.parameters c)); reflexivity. }
  rewrite Hshape in Hcall. clear Hshape.
  rewrite (exec_do_prefix method_to_json class_from_json builtin_call) in Hcall.
  match type of Hcall with
  | match ?m with _ => _ end = _ => destruct m as [locals'|]; [|discriminate]
  end.
  cbn [Generated.exec] in Hcall.
  destruct (name_lookup "cmd_dict" locals'); [|discriminate].
  injection Hcall as _ <-.
  assert (Hl : lookup "json" (update "json" sent locals') = Some sent)
    by apply lookup_update_eq.
  destruct (CdpCommand.returns c) as [|r0 [|r1 rs]].
  - injection Hret as <-. reflexivity.
  - destruct (generate_return r0 "json") as [e|] eqn:He; cbn [bind] in Hret; [|discriminate].
    injection Hret as <-. cbn [Generated.exec bind]. f_equal.
    unfold generate_return in He. apply (decoder_reads_json_only _ _ _ _ He Hl).
  - destruct (mapM (fun r => generate_return r "json") (r0 :: r1 :: rs)) as [es|] eqn:Hes;
      cbn [bind] in Hret; [|discriminate].
    injection Hret as <-. cbn [Generated.exec bind]. f_equal.
    rewrite (decoders_read_json_only _ _ _ _ Hes Hl). reflexivity.
Qed.

End EmittedDecoders.

Section EmittedDecoderSamples.
Import Py GenerateCdp Generated.

(** X11 on [DOM.querySelector]: the response [{"nodeId": {"value": 7}}]
    is decoded to the node id, whatever the arguments were. *)
Lemma X11_command_result_witness :
  exists body request resume,
    command_body Samples.query_selector_command = Ok body
    /\ Generated.call_command Samples.sample_to_json Samples.sample_from_json
         Samples.sample_builtin Samples.query_selector_command body
         [("node_id", VObject "NodeId" [("value", VInt 5)]); ("selector", VStr "a")]
       = Yielded request resume
    /\ resume (VDict [("nodeId", VDict [("value", VInt 7)])])
       = Done (Ok (VObject "NodeId" [("value", VInt 7)])).
Proof.
  eexists. eexists. eexists. split; [reflexivity|]. split; [reflexivity|].
  exact (X11_command_result_is_decoded_from_the_response
           Samples.sample_to_json Samples.sample_from_json Samples.sample_builtin
           Samples.query_selector_command _
           [("node_id", VObject "NodeId" [("value", VInt 5)]); ("selector", VStr "a")]
           _ _ (VDict [("nodeId", VDict [("value", VInt 7)])])
           eq_refl eq_refl eq_refl).
Defined.

End EmittedDecoderSamples.

(* ===================================================================== *)
(** * The emitted classes: decoding what was encoded *)
(* ===================================================================== *)

Section RoundTrip.
Import Py GenerateCdp Generated.

Variable method_to_json : value -> result value.
Variable class_from_json : string -> value -> result value.
Variable builtin_call : string -> value -> result value.

#[local] Abbreviation eval := (Generated.eval method_to_json class_from_json builtin_call).
#[local] Abbreviation to_wire := (Generated.to_wire method_to_json).
#[local] Abbreviation wire_items := (Generated.wire_items method_to_json).
#[local] Abbreviation from_wire := (Generated.from_wire class_from_json builtin_call).
#[local] Abbreviation from_wire_one := (Generated.from_wire_one builtin_call).

Lemma constructor_is_from_wire_one ty val e locals v :
  get_constructor ty val = Ok e ->
  eval val locals = Ok v ->
  eval e locals = from_wire_one ty v.
Proof.
  unfold get_constructor, Generated.from_wire_one. intros H Hv.
  destruct ty as [ty|]; [|injection H as <-; exact Hv].
  destruct (negb (str_truthy ty) || String.eqb ty "any"); [injection H as <-; exact Hv|].
  destruct (CdpPrimitiveType ty) as [ctor|]; cbn [bind] in *; [|discriminate].
  injection H as <-. cbn [Generated.eval]. rewrite Hv. reflexivity.
Qed.

(** The decoder emitted for a property computes [from_wire] of the value
    under the CDP name of the property. *)
Lemma decoder_is_from_wire p e d j :
  generate_from_json p "json" = Ok e ->
  lookup (CdpProperty.name p) d = Some j ->
  j <> VNone ->
  eval e [("json", VDict d)] = from_wire p j.
Proof.
  intros H Hl Hj. unfold generate_from_json in H.
  match type of H with
  | bind ?m _ = _ => destruct m as [base|] eqn:Hb; cbn [bind] in H; [|discriminate]
  end.
  injection H as <-.
  assert (Hsub : eval (Subscript "json" (CdpProperty.name p)) [("json", VDict d)] = Ok j).
  { cbn. rewrite Hl. reflexivity. }
  assert (Hbase : eval base [("json", VDict d)] = from_wire p j).
  { unfold Generated.from_wire.
    destruct (CdpProperty.items p) as [items|].
    - destruct (str_truthy (CdpItems.ref items)).
      + destruct (ref_to_python_domain (CdpItems.ref items) (CdpProperty.domain p))
          as [py_ref|]; cbn [bind] in Hb; [|discriminate].
        injection Hb as <-.
        change (eval (ListComp (FromJson py_ref (Name "i"))
                               (Subscript "json" (CdpProperty.name p)))
                     [("json", VDict d)])
          with (it <- eval (Subscript "json" (CdpProperty.name p)) [("json", VDict d)] ;;
                l <- iterate it ;;
                vs <- mapM (fun v => eval (FromJson py_ref (Name "i"))
                                          [("i", v); ("json", VDict d)]) l ;;
                Ok (VList vs)).
        rewrite Hsub. cbn [bind].
        destruct (iterate j) as [l|]; cbn [bind]; [|reflexivity].
        rewrite (mapM_ext _ (class_from_json py_ref) l) by (intros; reflexivity).
        reflexivity.
      + destruct (get_constructor (Some (CdpItems.type items)) (Name "i")) as [ctor|] eqn:Hc;
          cbn [bind] in Hb; [|discriminate].
        injection Hb as <-.
        change (eval (ListComp ctor (Subscript "json" (CdpProperty.name p)))
                     [("json", VDict d)])
          with (it <- eval (Subscript "json" (CdpProperty.name p)) [("json", VDict d)] ;;
                l <- iterate it ;;
                vs <- mapM (fun v => eval ctor [("i", v); ("json", VDict d)]) l ;;
                Ok (VList vs)).
        rewrite Hsub. cbn [bind].
        destruct (iterate j) as [l|]; cbn [bind]; [|reflexivity].
        rewrite (mapM_ext _ (from_wire_one (Some (CdpItems.type items))) l);
          [reflexivity|].
        intros v. apply (constructor_is_from_wire_one _ _ _ _ _ Hc). reflexivity.
    - destruct (CdpProperty.ref p) as [ref|]; cbn [opt_truthy];
        [destruct (str_truthy ref)|].
      + destruct (ref_to_python_domain ref (CdpProperty.domain p)) as [py_ref|];
          cbn [bind] in Hb; [|discriminate].
        injection Hb as <-.
        change (eval (FromJson py_ref (Subscript "json" (CdpProperty.name p)))
                     [("json", VDict d)])
          with (v <- eval (Subscript "json" (CdpProperty.name p)) [("json", VDict d)] ;;
                class_from_json py_ref v).
        rewrite Hsub. reflexivity.
      + apply (constructor_is_from_wire_one _ _ _ _ _ Hb Hsub).
      + apply (constructor_is_from_wire_one _ _ _ _ _ Hb Hsub). }
  destruct (CdpProperty.optional p); [|exact Hbase].
  cbn [Generated.eval]. unfold name_lookup. cbn [lookup String.eqb Ascii.eqb Bool.eqb bind].
  rewrite Hl. destruct j; try exact Hbase. contradiction.
Qed.

(** *** An instance and its wire items *)

Variable val : CdpProperty.t -> value.

(** The fields of an instance: the value of every property under its
    Python name. *)
#[local] Abbreviation fields_of :=
  (fun ps : list CdpProperty.t => map (fun p => (CdpProperty.py_name p, val p)) ps).

(** The encoder of the property has a result for the value, not [None],
    from which [from_wire] gives the value back. *)
#[local] Abbreviation inverts :=
  (fun p : CdpProperty.t =>
     exists j, to_wire p (val p) = Ok j /\ j <> VNone /\ from_wire p j = Ok (val p)).

Lemma lookup_fields_of ps p :
  NoDup (map CdpProperty.py_name ps) -> In p ps ->
  lookup (CdpProperty.py_name p) (fields_of ps) = Some (val p).
Proof.
  induction ps as [|q ps IH]; intros Hnd Hin; [contradiction|].
  cbn [map lookup]. inversion Hnd as [|? ? Hq Hnd']. subst.
  destruct Hin as [->|Hin]; [rewrite String.eqb_refl; reflexivity|].
  destruct (String.eqb_spec (CdpProperty.py_name p) (CdpProperty.py_name q)) as [E|E].
  - exfalso. apply Hq. rewrite <- E. apply in_map. exact Hin.
  - apply IH; assumption.
Qed.

Lemma wire_items_keys read ps items k :
  wire_items ps read = Ok items ->
  ~ In k (map CdpProperty.name ps) -> lookup k items = None.
Proof.
  revert items. induction ps as [|q rest IH]; intros items Hw Hk.
  - simpl in Hw. injection Hw as <-. reflexivity.
  - rewrite (wire_items_cons method_to_json) in Hw.
    destruct (read (CdpProperty.py_name q)) as [v|]; [|discriminate].
    assert (Hk' : ~ In k (map CdpProperty.name rest)) by (intros H; apply Hk; now right).
    destruct (is_none v); [eapply IH; eauto|].
    destruct (to_wire q v) as [j|]; cbn [bind] in Hw; [|discriminate].
    destruct (wire_items rest read) as [r|] eqn:Hrest; cbn [bind] in Hw; [|discriminate].
    injection Hw as <-. cbn [lookup].
    destruct (String.eqb_spec k (CdpProperty.name q)) as [E|E].
    + exfalso. apply Hk. left. now symmetry.
    + eapply IH; eauto.
Qed.

Lemma is_none_spec v : is_none v = true <-> v = VNone.
Proof. destruct v; split; intros H; try discriminate; reflexivity. Qed.

(** The wire items of an instance whose encoders have results: a
    property whose value is [None] has no item, and every other
    property has the item from which its value is decoded. *)
Lemma wire_items_of_instance read ps :
  (forall p, In p ps -> read (CdpProperty.py_name p) = Some (val p)) ->
  (forall p, In p ps -> val p <> VNone -> inverts p) ->
  NoDup (map CdpProperty.name ps) ->
  exists items,
    wire_items ps read = Ok items
    /\ forall p, In p ps ->
         (val p = VNone -> lookup (CdpProperty.name p) items = None)
         /\ (val p <> VNone ->
             exists j, lookup (CdpProperty.name p) items = Some j
                       /\ j <> VNone /\ from_wire p j = Ok (val p)).
Proof.
  intros Hread Hinv Hnd. induction ps as [|q rest IH].
  - exists []. split; [reflexivity | intros p []].
  - inversion Hnd as [|? ? Hq Hnd']. subst.
    destruct IH as (r & Hr & Hitems); auto.
    { intros p Hp. apply Hread. now right. }
    { intros p Hp. apply Hinv. now right. }
    rewrite (wire_items_cons method_to_json), (Hread q (or_introl eq_refl)).
    destruct (is_none (val q)) eqn:En.
    + apply is_none_spec in En. exists r. split; [exact Hr|].
      intros p [<-|Hp]; [|apply Hitems; exact Hp].
      split; [intros _; eapply wire_items_keys; eauto | intros H; contradiction].
    + assert (Hv : val q <> VNone) by (intros E; apply is_none_spec in E; congruence).
      destruct (Hinv q (or_introl eq_refl) Hv) as (j & Hj & Hjn & Hback).
      rewrite Hj, Hr. cbn [bind]. eexists. split; [reflexivity|].
      intros p [<-|Hp]; cbn [lookup].
      * rewrite String.eqb_refl. split; [intros E; contradiction | intros _; eauto].
      * destruct (String.eqb_spec (CdpProperty.name p) (CdpProperty.name q)) as [E|E].
        -- exfalso. apply Hq. rewrite <- E. apply in_map. exact Hp.
        -- apply Hitems. exact Hp.
Qed.

(** X12. Decoding what was encoded.  Take a class type whose properties
    have distinct CDP names and distinct Python names, and an instance
    that gives every property a value, every required property a value
    other than [None], such that for every value other than [None] the
    encoder of the property has a result, not [None], that [from_wire]
    takes back to the value.  Then the emitted [to_json] of the instance
    returns a dict, and the emitted [from_json] of that dict returns the
    instance: the two agree on the key of every property and on the
    absence of a key for [None]. *)
Theorem X12_from_json_inverts_to_json (ty : CdpType.t) (body : list stmt) :
  NoDup (map CdpProperty.name (CdpType.properties ty)) ->
  NoDup (map CdpProperty.py_name (CdpType.properties ty)) ->
  (forall p, In p (CdpType.properties ty) ->
             CdpProperty.optional p = false -> val p <> VNone) ->
  (forall p, In p (CdpType.properties ty) -> val p <> VNone -> inverts p) ->
  class_from_json_body ty = Ok body ->
  exists items,
    Generated.call_to_json method_to_json class_from_json builtin_call ty
      (VObject (CdpType.id ty) (fields_of (sort_by_optional (CdpType.properties ty))))
    = Done (Ok (VDict items))
    /\ Generated.call_from_json method_to_json class_from_json builtin_call body
         (VDict items)
       = Done (Ok (VObject (CdpType.id ty)
                           (fields_of (sort_by_optional (CdpType.properties ty))))).
Proof.
  intros Hnd Hndpy Hreq Hinv Hbody.
  set (sorted := sort_by_optional (CdpType.properties ty)) in *.
  assert (Hsorted : forall p, In p sorted <-> In p (CdpType.properties ty))
    by (intros p; apply sort_by_optional_In).
  assert (Hread : forall p, In p sorted ->
                            lookup (CdpProperty.py_name p) (fields_of sorted) = Some (val p)).
  { intros p Hp. apply lookup_fields_of; [|exact Hp].
    apply sort_by_optional_NoDup. exact Hndpy. }
  destruct (wire_items_of_instance (fun x => lookup x (fields_of sorted)) sorted)
    as (items & Hw & Hitems).
  { exact Hread. }
  { intros p Hp. apply Hinv. apply Hsorted. exact Hp. }
  { apply sort_by_optional_NoDup. exact Hnd. }
  exists items. split.
  - apply call_to_json_wire_items; [exact Hnd| |exact Hw].
    intros p Hp Hnone. rewrite (Hread p (proj2 (Hsorted p) Hp)) in Hnone.
    injection Hnone as Hnone.
    destruct (CdpProperty.optional p) eqn:Ho; [reflexivity|].
    exfalso. exact (Hreq p Hp Ho Hnone).
  - unfold class_from_json_body in Hbody. fold sorted in Hbody.
    destruct (mapM _ sorted) as [kwargs|] eqn:Hk; cbn [bind] in Hbody; [|discriminate].
    injection Hbody as <-. unfold Generated.call_from_json. cbn [Generated.exec].
    f_equal.
    apply mapM_Forall2 in Hk.
    assert (Haux : forall qs kes,
               Forall2 (fun p ke =>
                          (from_json <- generate_from_json p "json" ;;
                           Ok (CdpProperty.py_name p, from_json)) = Ok ke) qs kes ->
               (forall q, In q qs -> In q sorted) ->
               mapM (fun ke => v <- eval (snd ke) [("json", VDict items)] ;; Ok (fst ke, v)) kes
               = Ok (fields_of qs)).
    { intros qs kes Hf. induction Hf as [|q ke qs kes Hq _ IH]; intros Hall; [reflexivity|].
      cbn [mapM map].
      destruct (generate_from_json q "json") as [e|] eqn:He; cbn [bind] in Hq;
        [|discriminate].
      injection Hq as <-. cbn [fst snd].
      assert (Hin : In q sorted) by (apply Hall; now left).
      assert (Hval : eval e [("json", VDict items)] = Ok (val q)).
      { destruct (Hitems q Hin) as [Habsent Hpresent].
        destruct (is_none (val q)) eqn:En.
        - apply is_none_spec in En. rewrite En.
          eapply from_json_null_is_absent; [exact He| |right; exact (Habsent En)].
          destruct (CdpProperty.optional q) eqn:Ho; [reflexivity|].
          exfalso. exact (Hreq q (proj1 (Hsorted q) Hin) Ho En).
        - assert (Hv : val q <> VNone) by (intros E; apply is_none_spec in E; congruence).
          destruct (Hpresent Hv) as (j & Hl & Hjn & Hback).
          rewrite (decoder_is_from_wire q e items j He Hl Hjn). exact Hback. }
      rewrite Hval. cbn [bind]. rewrite IH by (intros q' Hq'; apply Hall; now right).
      reflexivity. }
    rewrite (Haux sorted kwargs Hk) by auto. reflexivity.
Qed.

End RoundTrip.

Section RoundTripSamples.
Import Py GenerateCdp Generated.

(** X12 on a [Network.Cookie] with the name [sid] and no [expires]. *)
Lemma X12_round_trip_witness :
  exists items,
    Generated.call_to_json Samples.sample_to_json Samples.sample_from_json
      Samples.sample_builtin Samples.patched_cookie_type
      (VObject "Cookie" [("name", VStr "sid"); ("expires", VNone)])
    = Done (Ok (VDict items))
    /\ Generated.call_from_json Samples.sample_to_json Samples.sample_from_json
         Samples.sample_builtin
         [ReturnNew "Cookie"
            [("name", Call "str" (Subscript "json" "name"));
             ("expires",
               IfKeyNotNone (Call "float" (Subscript "json" "expires")) "json" "expires")]]
         (VDict items)
       = Done (Ok (VObject "Cookie" [("name", VStr "sid"); ("expires", VNone)])).
Proof.
  apply (X12_from_json_inverts_to_json
           Samples.sample_to_json Samples.sample_from_json Samples.sample_builtin
           (fun p => if String.eqb (CdpProperty.name p) "name" then VStr "sid" else VNone)
           Samples.patched_cookie_type).
  - repeat constructor; simpl; intuition discriminate.
  - repeat constructor; simpl; intuition discriminate.
  - intros p [<-|[<-|[]]]; simpl; intros H; discriminate.
  - intros p [<-|[<-|[]]]; simpl; intros H.
    + exists (VStr "sid"). split; [reflexivity|]. split; [discriminate | reflexivity].
    + contradiction.
  - reflexivity.
Defined.

End RoundTripSamples.

(* ===================================================================== *)
(** * Further properties of the element facade *)
(* ===================================================================== *)

Section Attributes.
Import Py Dom ElementPy.

Lemma attrs_get_set_eq k v m : attrs_get k (attrs_set k v m) = Some v.
Proof.
  induction m as [|[k' v'] m IH]; cbn [attrs_set attrs_get].
  - rewrite String.eqb_refl. reflexivity.
  - destruct (String.eqb k k') eqn:E; cbn [attrs_get].
    + rewrite String.eqb_refl. reflexivity.
    + rewrite E. exact IH.
Qed.

Lemma attrs_get_set_ne k k' v m : k <> k' -> attrs_get k' (attrs_set k v m) = attrs_get k' m.
Proof.
  intros Hne. induction m as [|[k0 v0] m IH]; cbn [attrs_set attrs_get].
  - destruct (String.eqb_spec k' k); [congruence | reflexivity].
  - destruct (String.eqb_spec k k0) as [->|Hk]; cbn [attrs_get].
    + destruct (String.eqb_spec k' k0); [congruence | reflexivity].
    + rewrite IH. reflexivity.
Qed.

Lemma even_index n : ((2 * n =? 0)%nat || ((2 * n) mod 2 =? 0)%nat) = true.
Proof.
  rewrite Nat.mul_comm, Nat.Div0.mod_mul. apply orb_true_r.
Qed.

Lemma odd_index n : ((S (2 * n) =? 0)%nat || (S (2 * n) mod 2 =? 0)%nat) = false.
Proof.
  replace (S (2 * n)) with (1 + n * 2) by lia.
  rewrite Nat.Div0.mod_add. reflexivity.
Qed.

(** The loop on an array of names and values in turn, with at most one
    more name at its end. *)
Lemma make_attrs_loop_pairs pairs tail n sav m :
  length tail <= 1 ->
  make_attrs_loop (2 * n) sav (Samples.flat_pairs pairs ++ tail) m
  = fold_left Samples.store pairs m.
Proof.
  intros Htail. revert n sav m.
  induction pairs as [|[k v] pairs IH]; intros n sav m.
  - cbn [Samples.flat_pairs flat_map app fold_left].
    destruct tail as [|a [|b tail]]; [reflexivity| |simpl in Htail; lia].
    cbn [make_attrs_loop]. rewrite even_index. reflexivity.
  - cbn [Samples.flat_pairs flat_map app fold_left fst snd].
    cbn [make_attrs_loop]. rewrite even_index, odd_index.
    replace (S (S (2 * n))) with (2 * S n) by lia.
    fold (Samples.flat_pairs pairs). rewrite IH. reflexivity.
Qed.

Lemma attrs_get_fold name pairs m :
  name <> "" ->
  attrs_get name (fold_left Samples.store pairs m)
  = match find (fun kv => String.eqb name (Samples.attr_key (fst kv))) (rev pairs) with
    | Some kv => Some (snd kv)
    | None => attrs_get name m
    end.
Proof.
  intros Hname. induction pairs as [|[k v] pairs IH] using rev_ind; [reflexivity|].
  rewrite fold_left_app, rev_app_distr. cbn [fold_left rev app find fst snd].
  unfold Samples.store at 1. cbn [fst snd].
  destruct (String.eqb_spec name (Samples.attr_key k)) as [E|E].
  - rewrite <- E. destruct name as [|c name]; [contradiction|]. cbn [str_truthy].
    apply attrs_get_set_eq.
  - destruct (str_truthy (Samples.attr_key k)); [|exact IH].
    rewrite attrs_get_set_ne by congruence. exact IH.
Qed.

Lemma attr_key_not_class k : Samples.attr_key k <> "class".
Proof.
  unfold Samples.attr_key. destruct (String.eqb_spec k "class"); [discriminate | assumption].
Qed.

(** X13. The attribute map of a new element.  For a node whose attributes
    array holds names and values in turn (a last name without value is
    ignored), the map gives for a name other than the empty one the value
    of the last pair with that name; the attribute [class] is held under
    [class_], so the map has nothing under [class] itself. *)
Theorem X13_attribute_map_of_a_new_element
    (node : Node) (tab : Z) (tree : option Node)
    (pairs : list (string * string)) (tail : list string) (name : string) :
  attributes node = Some (Samples.flat_pairs pairs ++ tail) ->
  length tail <= 1 ->
  name <> "" ->
  attrs_get name (attrs (create node tab tree))
  = option_map snd
      (find (fun kv => String.eqb name (Samples.attr_key (fst kv))) (rev pairs))
  /\ attrs_get "class" (attrs (create node tab tree)) = None
  /\ get (create node tab tree) "class" = None.
Proof.
  intros Hattrs Htail Hname.
  assert (Hmap : attrs (create node tab tree) = fold_left Samples.store pairs []).
  { unfold attrs, create, _make_attrs. cbn [_attrs]. rewrite Hattrs.
    destruct (Samples.flat_pairs pairs ++ tail) as [|a l] eqn:Hl.
    - destruct pairs as [|[k v] pairs]; [reflexivity | discriminate Hl].
    - rewrite <- Hl. apply (make_attrs_loop_pairs pairs tail 0 None [] Htail). }
  assert (Hclass : attrs_get "class" (attrs (create node tab tree)) = None).
  { rewrite Hmap, attrs_get_fold by discriminate.
    destruct (find _ (rev pairs)) as [kv|] eqn:Hf; [|reflexivity].
    apply find_some in Hf. destruct Hf as [_ Hf]. apply String.eqb_eq in Hf.
    symmetry in Hf. exfalso. exact (attr_key_not_class _ Hf). }
  split; [|split].
  - rewrite Hmap, attrs_get_fold by exact Hname.
    destruct (find _ (rev pairs)); reflexivity.
  - exact Hclass.
  - unfold get, attrs_getattr. rewrite Hclass. reflexivity.
Qed.

End Attributes.

Section AttributeSamples.
Import Py Dom ElementPy.

(** X13 on [<input hidden="" class="big" id="q">], for the name
    [class_]. *)
Lemma X13_attribute_map_witness :
  attrs_get "class_" (attrs (create input_node 1 None)) = Some "big"
  /\ attrs_get "class" (attrs (create input_node 1 None)) = None
  /\ get (create input_node 1 None) "class" = None.
Proof.
  apply (X13_attribute_map_of_a_new_element input_node 1 None
           [("hidden", ""); ("class", "big"); ("id", "q")] [] "class_").
  - reflexivity.
  - simpl. lia.
  - discriminate.
Defined.

End AttributeSamples.

Section Revalidation.
Import Py Dom ElementPy.

Variable filter_recurse : Node -> (Node -> bool) -> option Node.
Variable browser : list request -> reply.

#[local] Abbreviation update := (ElementPy.update filter_recurse browser).
#[local] Abbreviation parent := (ElementPy.parent filter_recurse).

(** X14. [Element.update] of an element of a tab that searches soundly,
    when it returns: the element still stands for the same backend node
    and belongs to the same tab; its tree is the document that the
    browser has just sent; its attribute map is rebuilt from its node; its
    remote object is the one the browser resolved; and exactly two
    requests were sent, for the document and for the remote object of
    the backend node. *)
Theorem X14_update_keeps_the_backend_node
    (self updated : Element) (log log' : list request) :
  Samples.sound_search filter_recurse ->
  update self log = (Ok updated, log') ->
  backend_node_id updated = backend_node_id self
  /\ _tab updated = _tab self
  /\ _attrs updated = _make_attrs (_node updated) []
  /\ log' = log ++ [GetDocument (-1) true; ResolveNodeByBackendId (backend_node_id self)]
  /\ exists doc object,
      browser (log ++ [GetDocument (-1) true]) = Document doc
      /\ browser log' = Resolved object
      /\ _tree updated = Some doc
      /\ _remote_object updated = Some object.
Proof.
  intros Hsound H.
  unfold ElementPy.update, get_document, resolve_node, bindM, send, ret, raise in H.
  destruct (browser (log ++ [GetDocument (-1) true])) as [doc| | | | | |] eqn:Hdoc;
    try discriminate H.
  set (pred := fun n : Node => Z.eqb (Dom.backend_node_id n) (Dom.backend_node_id (_node self)))
    in *.
  assert (Hid : Dom.backend_node_id
                  (match filter_recurse doc pred with Some n => n | None => _node self end)
                = Dom.backend_node_id (_node self)).
  { destruct (filter_recurse doc pred) as [n|] eqn:Hn; [|reflexivity].
    apply Hsound in Hn. unfold pred in Hn. apply Z.eqb_eq in Hn. exact Hn. }
  rewrite Hid in H. rewrite <- app_assoc in H. cbn [app] in H.
  destruct (browser (log ++ [GetDocument (-1) true;
                             ResolveNodeByBackendId (Dom.backend_node_id (_node self))]))
    as [| | | |object| |] eqn:Hobj; try discriminate H.
  injection H as <- <-.
  unfold backend_node_id. cbn [_node _tab _attrs _tree _remote_object].
  split; [exact Hid|]. split; [reflexivity|]. split; [reflexivity|].
  split; [reflexivity|]. exists doc, object. auto.
Qed.

(** X15. [Element.parent] of an element of a tab that searches soundly.
    Without a tree it raises [RuntimeError]; with a tree it returns
    [None] for an element whose node has no parent id, and otherwise
    [None] or an element of the same tab, with the same tree, whose node
    has the parent id as its node id. *)
Theorem X15_parent_has_the_parent_id (self : Element) :
  Samples.sound_search filter_recurse ->
  match _tree self with
  | None => exists msg, parent self = Raise (RuntimeError msg)
  | Some tree =>
      (parent_id self = None -> parent self = Ok None)
      /\ forall p,
          parent self = Ok (Some p) ->
          parent_id self = Some (Dom.node_id (_node p))
          /\ _tab p = _tab self
          /\ _tree p = Some tree
  end.
Proof.
  intros Hsound. unfold ElementPy.parent.
  destruct (_tree self) as [tree|]; [|eauto]. split.
  - intros Hnone. rewrite Hnone.
    destruct (filter_recurse tree (fun _ => false)) as [n|] eqn:Hn; [|reflexivity].
    apply Hsound in Hn. discriminate Hn.
  - intros p.
    destruct (filter_recurse tree _) as [n|] eqn:Hn; [|discriminate].
    intros H. injection H as <-. apply Hsound in Hn.
    cbn [_node _tab _tree create]. split; [|split; reflexivity].
    destruct (parent_id self) as [pid|]; [|discriminate Hn].
    apply Z.eqb_eq in Hn. rewrite Hn. reflexivity.
Qed.

End Revalidation.

Section RevalidationSamples.
Import Py Dom ElementPy.

(** The depth-first search of [Util] is sound. *)
Lemma filter_recurse_sound : Samples.sound_search Util.filter_recurse.
Proof.
  unfold Samples.sound_search. intros doc predicate.
  induction doc as [nid pid bid ty name val children attrs cd IH] using Samples.node_children_ind.
  intros n. cbn [Util.filter_recurse].
  induction IH as [|child rest Hchild _ IHrest]; [discriminate|].
  destruct (predicate child) eqn:Hp.
  - intros H. injection H as <-. exact Hp.
  - destruct (Util.filter_recurse child predicate) as [found|] eqn:Hc.
    + intros H. injection H as <-. exact (Hchild found eq_refl).
    + exact IHrest.
Qed.

(** X14 on the [<div>] of the page that is rebuilt: its node id changes
    from 2 to 12, its backend node id 202 stays. *)
Lemma X14_update_witness :
  ElementPy.update Util.filter_recurse Samples.rebuilding_browser
    (create Samples.div_before 1 (Some Samples.page_before)) []
  = (Ok Samples.div_handle_after,
     [GetDocument (-1) true; ResolveNodeByBackendId 202])
  /\ Dom.node_id (_node Samples.div_handle_after) = 12%Z
  /\ backend_node_id Samples.div_handle_after = 202%Z
  /\ _tab Samples.div_handle_after = 1%Z
  /\ _tree Samples.div_handle_after = Some Samples.page_after.
Proof.
  split; [reflexivity|]. split; [reflexivity|].
  destruct (X14_update_keeps_the_backend_node
              Util.filter_recurse Samples.rebuilding_browser
              (create Samples.div_before 1 (Some Samples.page_before))
              Samples.div_handle_after []
              [GetDocument (-1) true; ResolveNodeByBackendId 202]
              filter_recurse_sound eq_refl)
    as (Hid & Htab & _ & _ & doc & object & Hdoc & _ & Htree & _).
  split; [exact Hid|]. split; [exact Htab|].
  rewrite Htree. f_equal. injection Hdoc as <-. reflexivity.
Defined.

(** X15 on the text node [a] of the sample page: its parent is the first
    paragraph, node 2. *)
Lemma X15_parent_witness :
  ElementPy.parent Util.filter_recurse (create Samples.text_a 1 (Some Samples.page))
  = Ok (Some Samples.elem_p_a)
  /\ parent_id (create Samples.text_a 1 (Some Samples.page))
     = Some (Dom.node_id (_node Samples.elem_p_a))
  /\ _tab Samples.elem_p_a = 1%Z
  /\ _tree Samples.elem_p_a = Some Samples.page.
Proof.
  split; [reflexivity|].
  destruct (X15_parent_has_the_parent_id
              Util.filter_recurse (create Samples.text_a 1 (Some Samples.page))
              filter_recurse_sound) as [_ H].
  exact (H Samples.elem_p_a eq_refl).
Defined.

End RevalidationSamples.

(* ===================================================================== *)
(** * Further properties of the tab *)
(* ===================================================================== *)

Section SelectorErrors.
Import Py Dom ElementPy TabPy.

Variable filter_recurse : Node -> (Node -> bool) -> option Node.
Variable browser : list request -> reply.
Variable self : Z.

#[local] Abbreviation query_selector_all :=
  (TabPy.query_selector_all filter_recurse browser self).
#[local] Abbreviation query_selector :=
  (TabPy.query_selector filter_recurse browser self).

Ltac step_query :=
  cbn [TabPy.query_selector_all TabPy.query_selector];
  repeat (progress unfold bindM, except_protocol, search_root, doc_node_id, update_handle,
            disable_dom_agent, get_document, send, ret, raise, handle_node, getattr_last,
            delattr_last, setattr_last);
  cbn -[ElementPy.update].

(** X16. [query_selector_all] on the whole document, when the browser
    answers the query with a protocol error: the DOM agent is disabled
    and the error is raised again, whatever its message and whatever the
    browser answers to the disabling; three requests have been sent. *)
Theorem X16_query_selector_all_on_document_raises
    (fuel : nat) (selector : string) (doc : Node) (message : option string)
    (log : list request) :
  browser (log ++ [GetDocument (-1) true]) = Document doc ->
  browser (log ++ [GetDocument (-1) true; QuerySelectorAll (Dom.node_id doc) selector])
  = Error message ->
  query_selector_all (S fuel) selector None log
  = (Raise (ProtocolException message),
     log ++ [GetDocument (-1) true; QuerySelectorAll (Dom.node_id doc) selector; Disable]).
Proof.
  intros Hdoc Hq. step_query. rewrite Hdoc. step_query.
  rewrite <- !app_assoc. cbn [app]. rewrite Hq. cbn.
  rewrite <- !app_assoc. cbn [app].
  match goal with |- context [browser ?l] => destruct (browser l) end; reflexivity.
Qed.



End SelectorErrors.

Section SelectorErrorSamples.
Import Py Dom ElementPy TabPy.

(** X16 on the page that is rebuilt: the query on the document is stale. *)
Lemma X16_query_selector_all_witness :
  TabPy.query_selector_all Util.filter_recurse Samples.rebuilding_browser 1 1 "span" None []
  = (Raise (ProtocolException (Some "Could not find node with given id")),
     [GetDocument (-1) true; QuerySelectorAll 11 "span"; Disable]).
Proof.
  exact (X16_query_selector_all_on_document_raises
           Util.filter_recurse Samples.rebuilding_browser 1 0 "span" Samples.page_after
           (Some "Could not find node with given id") [] eq_refl eq_refl).
Defined.



End SelectorErrorSamples.

Section QueryResults.
Import Py Dom ElementPy TabPy.

Variable filter_recurse : Node -> (Node -> bool) -> option Node.
Variable browser : list request -> reply.
Variable self : Z.

#[local] Abbreviation query_selector_all :=
  (TabPy.query_selector_all filter_recurse browser self).

(** An element made for a node that the tree search finds in [root]
    under one of the node ids [node_ids]: it belongs to this tab, its
    tree is [root], and its attribute map is that of the node. *)
#[local] Abbreviation located_in :=
  (fun (root : Node) (node_ids : list Z) (e : Element) =>
     _tab e = self
     /\ _tree e = Some root
     /\ _remote_object e = None
     /\ attrs e = _make_attrs (_node e) []
     /\ exists nid,
         In nid node_ids
         /\ filter_recurse root (fun n => Z.eqb (Dom.node_id n) nid) = Some (_node e)).

Lemma locate_all_located root node_ids :
  Forall (located_in root node_ids) (locate_all filter_recurse self root node_ids)
  /\ length (locate_all filter_recurse self root node_ids) <= length node_ids.
Proof.
  unfold locate_all.
  assert (H : forall ids,
             (forall nid, In nid ids -> In nid node_ids) ->
             Forall (located_in root node_ids)
                    (flat_map (fun nid =>
                                 match filter_recurse root (fun n => Z.eqb (Dom.node_id n) nid) with
                                 | None => []
                                 | Some node => [create node self (Some root)]
                                 end) ids)
             /\ length (flat_map (fun nid =>
                                    match filter_recurse root
                                            (fun n => Z.eqb (Dom.node_id n) nid) with
                                    | None => []
                                    | Some node => [create node self (Some root)]
                                    end) ids) <= length ids).
  { induction ids as [|nid rest IH]; intros Hsub; cbn [flat_map].
    { split; [apply Forall_nil | apply Nat.le_refl]. }
    destruct (IH (fun n Hn => Hsub n (or_intror Hn))) as [IH1 IH2].
    destruct (filter_recurse root _) as [node|] eqn:Hf; cbn [app length].
    - split; [|lia]. constructor; [|exact IH1].
      cbn [create _tab _tree _remote_object attrs _attrs _node].
      repeat split. exists nid. split; [apply Hsub; now left | exact Hf].
    - split; [exact IH1 | lia]. }
  apply H. auto.
Qed.

(** Takes apart the innermost [match] of a hypothesis. *)
Ltac take_apart H :=
  repeat match type of H with
         | context [match ?x with _ => _ end] =>
             lazymatch x with
             | context [match _ with _ => _ end] => fail
             | _ => destruct x eqn:?; try discriminate H
             end
         end.

(** X19. What [query_selector_all] returns comes from the root that was
    searched.  When the query returns, its result is empty, or the
    browser has answered the one [querySelectorAll] on that root, the
    fetched document, the given object or the content document of a given
    IFRAME, with node ids, and every element of the result belongs to the
    tab that was asked, carries that root as its tree and stands for the
    node that the tree search finds in that root for one of those ids;
    there are no more elements than ids.  With a tree search that finds
    nothing but what it is asked for, the node ids of the elements are
    among those the browser sent. *)
Theorem X19_query_results_come_from_the_root
    (fuel : nat) (selector : string) (_node : option handle) (log log' : list request)
    (items : list Element) (left : option handle) :
  query_selector_all fuel selector _node log = (Ok (items, left), log') ->
  items = []
  \/ exists root log1 node_ids,
      search_root browser _node log = (Ok (Some root), log1)
      /\ browser (log1 ++ [QuerySelectorAll (Dom.node_id root) selector]) = NodeIds node_ids
      /\ log' = log1 ++ [QuerySelectorAll (Dom.node_id root) selector]
      /\ Forall (located_in root node_ids) items
      /\ length items <= length node_ids
      /\ (Samples.sound_search filter_recurse ->
          Forall (fun e => In (Dom.node_id (ElementPy._node e)) node_ids) items).
Proof.
  destruct fuel as [|fuel]; intros H; [discriminate H|].
  cbn [TabPy.query_selector_all] in H.
  unfold bindM at 1 in H.
  destruct (search_root browser _node log) as [[doc|] log1] eqn:Hroot; [|discriminate H].
  unfold bindM at 1 in H.
  match type of H with
  | match ?m with _ => _ end = _ => destruct m as [[[node_ids|r]|] log2] eqn:Htried
  end; [| |discriminate H].
  - (* the query was answered, or its error was swallowed *)
    unfold ret in H.
    destruct node_ids as [|nid node_ids]; [injection H as <- _ _; now left|].
    destruct doc as [root|]; [|injection H as <- _ _; now left].
    injection H as Hitems _ Hlog.
    right. exists root, log1, (nid :: node_ids).
    unfold except_protocol, bindM, doc_node_id, send, ret, raise in Htried.
    destruct (browser (log1 ++ [QuerySelectorAll (Dom.node_id root) selector]))
      as [| |ids| | | |message] eqn:Hq; try discriminate Htried.
    + injection Htried as Hids Hlog2. subst ids log2 log' items.
      destruct (locate_all_located root (nid :: node_ids)) as [Hall Hlen].
      split; [reflexivity|]. split; [reflexivity|]. split; [reflexivity|].
      split; [exact Hall|]. split; [exact Hlen|].
      intros Hsound. eapply Forall_impl; [|exact Hall].
      intros e (_ & _ & _ & _ & nid' & Hin & Hf).
      apply Hsound in Hf. apply Z.eqb_eq in Hf. rewrite Hf. exact Hin.
    + exfalso. destruct _node as [h|].
      * destruct (could_not_find_node message); [|discriminate Htried].
        destruct (getattr_last h); [destruct (delattr_last h)|]; discriminate Htried.
      * destruct (disable_dom_agent browser _) as [[]]; discriminate Htried.
  - (* the handler returned: the marker was set, and the result is empty *)
    left. unfold ret in H. injection H as -> ->.
    unfold except_protocol in Htried.
    match type of Htried with
    | match ?m with _ => _ end = _ => destruct m as [[[]|[]] log3] eqn:Hq
    end; try discriminate Htried.
    + unfold bindM, doc_node_id, send, ret, raise in Hq. take_apart Hq.
    + destruct _node as [h|].
      * destruct (could_not_find_node message); [|discriminate Htried].
        destruct (getattr_last h).
        -- destruct (delattr_last h); [|discriminate Htried].
           unfold ret in Htried. injection Htried as <- _ _. reflexivity.
        -- discriminate Htried.
      * unfold bindM at 1 in Htried.
        destruct (disable_dom_agent browser log3) as [[]]; discriminate Htried.
Qed.

End QueryResults.

Section QueryResultSamples.
Import Py Dom ElementPy TabPy.

(** X19 on a query without root: the browser names the nodes 2, 9 and 4,
    and the two paragraphs of the page are returned, each with the page
    as its tree. *)
Lemma X19_query_results_witness :
  TabPy.query_selector_all Util.filter_recurse Samples.selecting_browser 1 1 "p" None []
  = (Ok ([Samples.elem_p_a; Samples.elem_p_abc], None),
     [GetDocument (-1) true; QuerySelectorAll 1 "p"])
  /\ exists root log1 node_ids,
      search_root Samples.selecting_browser None [] = (Ok (Some root), log1)
      /\ Samples.selecting_browser (log1 ++ [QuerySelectorAll (Dom.node_id root) "p"])
         = NodeIds node_ids
      /\ Forall (fun e => _tree e = Some root) [Samples.elem_p_a; Samples.elem_p_abc].
Proof.
  split; [reflexivity|].
  destruct (X19_query_results_come_from_the_root
              Util.filter_recurse Samples.selecting_browser 1 1 "p" None [] _ _ _ eq_refl)
    as [H | (root & log1 & node_ids & Hroot & Hq & _ & Hall & _)]; [discriminate H|].
  exists root, log1, node_ids. split; [exact Hroot|]. split; [exact Hq|].
  eapply Forall_impl; [|exact Hall]. intros e (_ & Ht & _). exact Ht.
Defined.

End QueryResultSamples.

Section TextSearchRequests.
Import Py Dom ElementPy TabPy.

Variable browser : list request -> reply.
Variable allowed : request -> Prop.

Lemma sends_only_ret {A} (a : A) : Samples.sends_only allowed (ret a).
Proof. intros log. exists []. rewrite app_nil_r. split; [reflexivity | constructor]. Qed.

Lemma sends_only_raise {A} (e : exn) : Samples.sends_only allowed (@raise A e).
Proof. intros log. exists []. rewrite app_nil_r. split; [reflexivity | constructor]. Qed.

Lemma sends_only_pure {A} (r : result A) :
  Samples.sends_only allowed (fun log => (r, log)).
Proof. intros log. exists []. rewrite app_nil_r. split; [reflexivity | constructor]. Qed.

Lemma sends_only_bind {A B} (m : M A) (k : A -> M B) :
  Samples.sends_only allowed m -> (forall a, Samples.sends_only allowed (k a)) ->
  Samples.sends_only allowed (bindM m k).
Proof.
  intros Hm Hk log. unfold bindM. destruct (Hm log) as (extra & E & Hall).
  destruct (m log) as [[a|e] log1]; cbn [snd] in E; subst log1.
  - destruct (Hk a (log ++ extra)) as (extra' & E' & Hall').
    exists (extra ++ extra'). rewrite E', app_assoc. split; [reflexivity|].
    apply Forall_app. split; assumption.
  - exists extra. split; [reflexivity | exact Hall].
Qed.

Lemma sends_only_except {A} (m : M A) (handler : option string -> M A) :
  Samples.sends_only allowed m -> (forall message, Samples.sends_only allowed (handler message)) ->
  Samples.sends_only allowed (except_protocol m handler).
Proof.
  intros Hm Hh log. unfold except_protocol. destruct (Hm log) as (extra & E & Hall).
  destruct (m log) as [[a|e] log1]; cbn [snd] in E; subst log1.
  - exists extra. split; [reflexivity | exact Hall].
  - destruct e; try (exists extra; split; [reflexivity | exact Hall]).
    destruct (Hh message (log ++ extra)) as (extra' & E' & Hall').
    exists (extra ++ extra'). rewrite E', app_assoc. split; [reflexivity|].
    apply Forall_app. split; assumption.
Qed.

Lemma sends_only_send r : allowed r -> Samples.sends_only allowed (send browser r).
Proof.
  intros Hr log. exists [r]. unfold send.
  destruct (browser (log ++ [r])); (split; [reflexivity | constructor; [exact Hr | constructor]]).
Qed.

End TextSearchRequests.

Section TextSearchLog.
Import Py Dom ElementPy TabPy.

Variable filter_recurse : Node -> (Node -> bool) -> option Node.
Variable filter_recurse_all : Node -> (Node -> bool) -> list Node.
Variable browser : list request -> reply.
Variable self : Z.

Ltac sends_only :=
  repeat first
    [ apply sends_only_ret
    | apply sends_only_raise
    | apply sends_only_pure
    | apply sends_only_send; exact I
    | apply sends_only_bind; [|intros ?]
    | apply sends_only_except; [|intros ?]
    | assumption
    | match goal with
      | |- Samples.sends_only _ (match ?x with _ => _ end) => destruct x
      | |- Samples.sends_only _ (if ?x then _ else _) => destruct x
      end ].




End TextSearchLog.

Section TextSearchLogSamples.
Import Py Dom ElementPy TabPy.


End TextSearchLogSamples.

Section Evaluation.
Import Py Session TabRuntime.

Variable browser : list request -> reply.
Variable message_of : ExceptionDetails -> option string.

#[local] Abbreviation evaluate := (TabRuntime.evaluate browser message_of).
#[local] Abbreviation set_user_agent := (TabRuntime.set_user_agent browser message_of).

Lemma evaluate_truthy expression await_promise return_by_value log log' r :
  evaluate expression await_promise return_by_value log = (Ok r, log') ->
  truthy r = true.
Proof.
  unfold TabRuntime.evaluate, bindM, send, ret, raise. intros H.
  destruct (browser (log ++ [Evaluate expression await_promise return_by_value]))
    as [remote_object [details|]| |]; cbn [error_of] in H; try discriminate H.
  destruct (return_by_value && Json.truthy (value remote_object)) eqn:Hv;
    injection H as <- _; [|reflexivity].
  apply andb_true_iff in Hv. apply Hv.
Qed.

(** X21. [Tab.evaluate] never returns a value that is false.  When it
    returns the value of the expression, [return_by_value] was set and
    the value is true; every other result, a value such as [0], [false],
    the empty string or [null] included, comes back as the pair of the
    remote object and [None]: the pair never holds exception details,
    since those are raised. *)
Theorem X21_evaluate_returns_no_false_value
    (expression : string) (await_promise return_by_value : bool)
    (log log' : list request) (r : evaluated) :
  evaluate expression await_promise return_by_value log = (Ok r, log') ->
  truthy r = true
  /\ log' = log ++ [Evaluate expression await_promise return_by_value]
  /\ exists remote_object,
      browser log' = Evaluated remote_object None
      /\ r = if return_by_value && Json.truthy (value remote_object)
             then Value (value remote_object)
             else Pair remote_object None.
Proof.
  unfold TabRuntime.evaluate, bindM, send, ret, raise. intros H.
  destruct (browser (log ++ [Evaluate expression await_promise return_by_value]))
    as [remote_object [details|]| |] eqn:Hb; cbn [error_of] in H; try discriminate H.
  destruct (return_by_value && Json.truthy (value remote_object)) eqn:Hv;
    injection H as <- <-; rewrite Hb.
  - split; [apply andb_true_iff in Hv; apply Hv|]. split; [reflexivity|].
    exists remote_object. rewrite Hv. split; reflexivity.
  - split; [reflexivity|]. split; [reflexivity|]. exists remote_object.
    rewrite Hv. split; reflexivity.
Qed.

(** X22. [Tab.set_user_agent] never raises its [ValueError].  When no
    user agent is given it evaluates [navigator.userAgent]; what comes
    back is never false (X21), so the test that guards the [ValueError]
    never succeeds: for a page whose user agent is the empty string the
    pair that [evaluate] returns is sent as the user agent. *)
Theorem X22_set_user_agent_never_raises_value_error
    (user_agent accept_language platform : option string) (log : list request) :
  match fst (set_user_agent user_agent accept_language platform log) with
  | Raise (ValueError _) => False
  | _ => True
  end
  /\ forall remote_object,
      user_agent = None ->
      browser (log ++ [Evaluate "navigator.userAgent" false true])
      = Evaluated remote_object None ->
      Json.truthy (value remote_object) = false ->
      snd (set_user_agent user_agent accept_language platform log)
      = log ++ [Evaluate "navigator.userAgent" false true;
                SetUserAgentOverride (Pair remote_object None) accept_language platform].
Proof.
  split.
  - unfold TabRuntime.set_user_agent.
    destruct (match user_agent with Some s => str_truthy s | None => false end).
    + unfold bindM, ret, send. cbn.
      match goal with |- context [error_of ?b] => destruct (error_of b) end; exact I.
    + unfold bindM at 1. unfold bindM at 1.
      destruct (TabRuntime.evaluate browser message_of "navigator.userAgent" false true log)
        as [[r|e] log1] eqn:He.
      * apply evaluate_truthy in He. rewrite He. cbn [negb]. unfold bindM, ret, send.
        match goal with |- context [error_of ?b] => destruct (error_of b) end; exact I.
      * cbn [fst].
        unfold TabRuntime.evaluate, bindM, send, ret, raise in He.
        destruct (error_of _) in He; [injection He as <- _; exact I|].
        destruct (browser _) as [ro [d|]| |] in He;
          try (injection He as <- _; exact I).
        destruct (true && Json.truthy (value ro)); discriminate He.
  - intros remote_object -> Hb Hv.
    unfold TabRuntime.set_user_agent, TabRuntime.evaluate, bindM, send, ret, raise.
    rewrite Hb. cbn [error_of]. rewrite Hv. cbn.
    rewrite <- app_assoc. cbn [app].
    match goal with |- context [error_of ?b] => destruct (error_of b) end; reflexivity.
Qed.

End Evaluation.

Section EvaluationSamples.
Import Py Session TabRuntime.

(** X21 on a page whose user agent is the empty string. *)
Lemma X21_evaluate_witness :
  truthy (Pair (mkRemoteObject (Json.Str "")) None) = true
  /\ [Evaluate "navigator.userAgent" false true]
     = [] ++ [Evaluate "navigator.userAgent" false true]
  /\ exists remote_object,
      Samples.blank_browser [Evaluate "navigator.userAgent" false true]
      = Evaluated remote_object None
      /\ Pair (mkRemoteObject (Json.Str "")) None
         = if true && Json.truthy (value remote_object)
           then Value (value remote_object)
           else Pair remote_object None.
Proof.
  exact (X21_evaluate_returns_no_false_value
           Samples.blank_browser (fun _ => None) "navigator.userAgent" false true []
           [Evaluate "navigator.userAgent" false true]
           (Pair (mkRemoteObject (Json.Str "")) None) eq_refl).
Defined.

(** X22 on the same page: the pair is sent as the user agent. *)
Lemma X22_set_user_agent_witness :
  TabRuntime.set_user_agent Samples.blank_browser (fun _ => None) None None None []
  = (Ok tt,
     [Evaluate "navigator.userAgent" false true;
      SetUserAgentOverride (Pair (mkRemoteObject (Json.Str "")) None) None None])
  /\ snd (TabRuntime.set_user_agent Samples.blank_browser (fun _ => None) None None None [])
     = [] ++ [Evaluate "navigator.userAgent" false true;
              SetUserAgentOverride (Pair (mkRemoteObject (Json.Str "")) None) None None].
Proof.
  split; [reflexivity|].
  exact (proj2 (X22_set_user_agent_never_raises_value_error
                  Samples.blank_browser (fun _ => None) None None None [])
               (mkRemoteObject (Json.Str "")) eq_refl eq_refl eq_refl).
Defined.

End EvaluationSamples.

Section StorageOrigin.
Import Py TabStorage.

Lemma split_max_free n s : Samples.free_of "/" s -> split_max n s = [s].
Proof.
  revert n. induction s as [|c s IH]; intros n H; [reflexivity|].
  cbn [split_max]. destruct n as [|n]; [reflexivity|].
  rewrite (free_of_head _ _ _ H), (IH (S n) (free_of_tail _ _ _ H)). reflexivity.
Qed.

Lemma split_max_app n a rest :
  Samples.free_of "/" a ->
  split_max (S n) (a ++ "/" ++ rest) = a :: split_max n rest.
Proof.
  induction a as [|c a IH]; intros H.
  - reflexivity.
  - change ((String c a ++ "/" ++ rest)%string) with (String c (a ++ "/" ++ rest)).
    cbn [split_max]. rewrite (free_of_head _ _ _ H), (IH (free_of_tail _ _ _ H)).
    reflexivity.
Qed.

Lemma split_max_zero s : split_max 0 s = [s].
Proof. destruct s; reflexivity. Qed.

Lemma truthy_with_slash a rest : str_truthy (a ++ "/" ++ rest) = true.
Proof. destruct a; reflexivity. Qed.

(** X23. The security origin that [get_local_storage] and
    [set_local_storage] compute from the URL of the tab.  A URL is cut
    before its third slash, which gives scheme and host for a URL with a
    path; a URL with two slashes only, such as a bare
    [scheme://host], loses what follows its last slash, the host. *)
Theorem X23_security_origin (a b c rest : string) :
  Samples.free_of "/" a -> Samples.free_of "/" b -> Samples.free_of "/" c ->
  origin (Some (a ++ "/" ++ b ++ "/" ++ c ++ "/" ++ rest)%string)
  = (a ++ "/" ++ b ++ "/" ++ c)%string
  /\ origin (Some (a ++ "/" ++ b ++ "/" ++ c)%string) = (a ++ "/" ++ b)%string.
Proof.
  intros Ha Hb Hc. unfold origin. rewrite !truthy_with_slash. split.
  - rewrite (split_max_app 2 a _ Ha), (split_max_app 1 b _ Hb), (split_max_app 0 c _ Hc).
    rewrite split_max_zero. reflexivity.
  - rewrite (split_max_app 2 a _ Ha), (split_max_app 1 b _ Hb), (split_max_free 1 c Hc).
    reflexivity.
Qed.

(** X23 on [https://example.com/a/b?c] and on [https://example.com]. *)
Lemma X23_security_origin_witness :
  origin (Some "https://example.com/a/b?c") = "https://example.com"
  /\ origin (Some "https://example.com") = "https:/".
Proof.
  apply (X23_security_origin "https:" "" "example.com" "a/b?c");
    unfold Samples.free_of; simpl; intros H;
    repeat (destruct H as [H|H]; [discriminate H|]); exact H.
Defined.

End StorageOrigin.

Section WindowState.
Import Py Session TabWindow.

Variable browser : list request -> reply.
Variable self : Z.

#[local] Abbreviation set_window_state := (TabWindow.set_window_state browser self).

Lemma normal_is_normal :
  find_state_name "normal" = Ok "normal"
  /\ window_state_of "normal" = NORMAL.
Proof. split; reflexivity. Qed.

(** X24. Setting a window state other than [normal].  The window is
    first put into the normal state by a call of the function on itself,
    which takes the default position and size, (0, 0) and 1280 x 720;
    then the state is set, without position or size.  Four requests are
    sent; the position and size that were passed are not used, and
    those the window had are not kept. *)
Theorem X24_window_state_goes_through_normal
    (fuel : nat) (left top width height : Z) (state state_name : string)
    (window_id window_id' : Z) (bounds bounds' : Bounds) (log : list request) :
  find_state_name state = Ok state_name ->
  is_normal (window_state_of state_name) = false ->
  browser (log ++ [GetWindowForTarget self]) = Window window_id bounds ->
  browser (log ++ [GetWindowForTarget self; GetWindowForTarget self])
  = Window window_id' bounds' ->
  error_of (browser (log ++ [GetWindowForTarget self; GetWindowForTarget self;
                             SetWindowBounds window_id'
                               (mkBounds (Some 0%Z) (Some 0%Z) (Some 1280%Z) (Some 720%Z)
                                         (Some NORMAL))])) = None ->
  error_of (browser (log ++ [GetWindowForTarget self; GetWindowForTarget self;
                             SetWindowBounds window_id'
                               (mkBounds (Some 0%Z) (Some 0%Z) (Some 1280%Z) (Some 720%Z)
                                         (Some NORMAL));
                             SetWindowBounds window_id
                               (mkBounds None None None None
                                         (Some (window_state_of state_name)))])) = None ->
  set_window_state (S (S fuel)) left top width height state log
  = (Ok tt,
     log ++ [GetWindowForTarget self; GetWindowForTarget self;
             SetWindowBounds window_id'
               (mkBounds (Some 0%Z) (Some 0%Z) (Some 1280%Z) (Some 720%Z) (Some NORMAL));
             SetWindowBounds window_id
               (mkBounds None None None None (Some (window_state_of state_name)))]).
Proof.
  intros Hname Hstate Hw1 Hw2 Hs1 Hs2.
  destruct normal_is_normal as [Hn1 Hn2].
  cbn [TabWindow.set_window_state]. rewrite Hname, Hstate, Hn1, Hn2. cbn [is_normal].
  repeat (progress unfold bindM, get_window, send, ret, raise). cbn beta.
  rewrite Hw1. cbn [error_of fst].
  rewrite <- !app_assoc. cbn [app]. rewrite Hw2. cbn [error_of fst].
  rewrite <- ?app_assoc. cbn [app]. rewrite Hs1.
  rewrite <- ?app_assoc. cbn [app]. rewrite Hs2. reflexivity.
Qed.

(** X25. A state that none of the four state names covers, that is for
    which each name lacks one of the characters of the lower-cased
    state, is reported by a [NameError]; the error is raised after the
    window has been asked for, so one request has been sent. *)
Theorem X25_unknown_window_state
    (fuel : nat) (left top width height : Z) (state : string)
    (window_id : Z) (bounds : Bounds) (log : list request) :
  (forall state_name, In state_name available_states ->
                      all_in (lower state) state_name = false) ->
  browser (log ++ [GetWindowForTarget self]) = Window window_id bounds ->
  set_window_state (S fuel) left top width height state log
  = (Raise (NameError state), log ++ [GetWindowForTarget self]).
Proof.
  intros Hnone Hw.
  cbn [TabWindow.set_window_state].
  repeat (progress unfold bindM, get_window, send, ret, raise). cbn beta.
  rewrite Hw. cbn [error_of fst].
  unfold find_state_name.
  destruct (find (all_in (lower state)) available_states) as [state_name|] eqn:Hf;
    [|reflexivity].
  apply find_some in Hf. destruct Hf as [Hin Hall].
  rewrite (Hnone _ Hin) in Hall. discriminate Hall.
Qed.

(** X26. The abbreviations of a state.  Every beginning of a state name
    that has two characters or more selects that state, whatever the
    case of its letters: [mi], [min], [ma], [max], [fu], [full], [no],
    [nor] and so on, as the documentation of the function promises. *)
Theorem X26_beginnings_of_a_state_name_select_it (state state_name : string) :
  In state_name available_states ->
  prefix (lower state) state_name = true ->
  2 <= String.length (lower state) ->
  find_state_name state = Ok state_name.
Proof.
  unfold find_state_name. generalize (lower state) as s. intros s Hin Hp Hlen.
  destruct Hin as [<-|[<-|[<-|[<-|[]]]]];
    repeat (destruct s as [|c s];
            [first [reflexivity | simpl in Hlen; lia]
            |cbn [prefix] in Hp;
             match type of Hp with
             | match ascii_dec c ?b with _ => _ end = _ =>
                 destruct (ascii_dec c b) as [->|]; [|discriminate Hp]
             | false = true => discriminate Hp
             end]).
Qed.

End WindowState.

Section WindowStateSamples.
Import Py Session TabWindow.

(** X24 on [Tab.maximize]: the window at (10, 20) of size 800 x 600 is
    moved to (0, 0) and resized to 1280 x 720 on its way. *)
Lemma X24_maximize_witness :
  maximize Samples.window_browser 1 2 []
  = (Ok tt,
     [] ++ [GetWindowForTarget 1; GetWindowForTarget 1;
            SetWindowBounds 7
              (mkBounds (Some 0%Z) (Some 0%Z) (Some 1280%Z) (Some 720%Z) (Some NORMAL));
            SetWindowBounds 7
              (mkBounds None None None None (Some (window_state_of "maximized")))]).
Proof.
  exact (X24_window_state_goes_through_normal
           Samples.window_browser 1 0 0 0 1280 720 "maximize" "maximized" 7 7
           (mkBounds (Some 10%Z) (Some 20%Z) (Some 800%Z) (Some 600%Z) (Some NORMAL))
           (mkBounds (Some 10%Z) (Some 20%Z) (Some 800%Z) (Some 600%Z) (Some NORMAL))
           [] eq_refl eq_refl eq_refl eq_refl eq_refl eq_refl).
Defined.

(** X25 on the state [big]: no state name has a [b]. *)
Lemma X25_unknown_state_witness :
  TabWindow.set_window_state Samples.window_browser 1 1 0 0 1280 720 "big" []
  = (Raise (NameError "big"), [] ++ [GetWindowForTarget 1]).
Proof.
  apply (X25_unknown_window_state
           Samples.window_browser 1 0 0 0 1280 720 "big" 7
           (mkBounds (Some 10%Z) (Some 20%Z) (Some 800%Z) (Some 600%Z) (Some NORMAL)) []).
  - intros state_name [<-|[<-|[<-|[<-|[]]]]]; reflexivity.
  - reflexivity.
Defined.

(** X26 on [Max]. *)
Lemma X26_abbreviation_witness : find_state_name "Max" = Ok "maximized".
Proof.
  apply (X26_beginnings_of_a_state_name_select_it "Max" "maximized").
  - right. left. reflexivity.
  - reflexivity.
  - simpl. lia.
Defined.

End WindowStateSamples.
